(** * The JIT code cache of the ART runtime (runtime/jit/jit_code_cache.cc)

    A shallow embedding of [JitCodeCache]: construction, the two region
    allocators it drives, the catalog of compiled code ([method_code_map_]),
    the live bitmap, the collector ([GarbageCollectCache]) and the facade
    operations ([CommitCode], [ReserveData], [LookupMethodHeader],
    [AddProfilingInfo]).

    Around the cache: the queries by method, unloading ([RemoveMethodsIn]),
    the callback of the region allocator ([MoreCore]), the compiler that
    fills the cache ([OptimizingCompiler::JitCompile]) and the JIT that owns
    it ([Jit::Create], [Jit::LoadCompiler] and the destructor).

    Conventions.
    - Addresses are integers ([Z]); a nullable pointer is an [option].
    - [size_t] arithmetic that the source performs on capacities is written
      with its wrap-around ([size_t_wrap]).
    - Every critical section of the source (a block under [MutexLock]) is one
      function of the state; a thread that would sleep on [lock_cond_] yields
      the outcome [Waits], a dereference of a null [live_bitmap_] or a
      decrement of [begin()] yields [Undefined].
    - Logging ([VLOG], [LOG]), [mprotect] toggling, instruction-cache flushes
      and thread-state transitions have no effect on the modelled state and
      are left out; [DCHECK]s are debug-only and are not part of the model. *)

From Stdlib Require Import ZArith List Bool Lia.
From stdpp Require Import gmap strings pretty.

Open Scope Z_scope.

(** ** Constants and bit utilities

    globals.h and base/bit_utils.h are not among the sources; these are the
    definitions the names stand for. *)

Definition KB : Z := 1024.
Definition MB : Z := KB * KB.
Definition GB : Z := KB * KB * KB.
Definition kPageSize : Z := 4096.

(** [RoundDown(x, n)] is [x & -n] and [RoundUp(x, n)] is
    [RoundDown(x + n - 1, n)], for [n] a power of two. *)
Definition RoundDown (x n : Z) : Z := Z.land x (- n).
Definition RoundUp (x n : Z) : Z := RoundDown (x + n - 1) n.

(** ** The platform

    arch/instruction_set.h is not among the sources.  Of the instruction set
    the cache uses whether it is [kArm] and the width of a pointer. *)

Inductive InstructionSet :=
  | kNone | kArm | kArm64 | kThumb2 | kX86 | kX86_64 | kMips | kMips64.

Global Instance InstructionSet_eq_dec : EqDecision InstructionSet.
Proof. solve_decision. Defined.

Definition Is64BitInstructionSet (isa : InstructionSet) : bool :=
  match isa with
  | kArm64 | kX86_64 | kMips64 => true
  | _ => false
  end.

(** [sizeof(void* )] for the instruction set. *)
Definition kPointerSize (isa : InstructionSet) : Z :=
  if Is64BitInstructionSet isa then 8 else 4.

Definition kBitsPerSizeT (isa : InstructionSet) : Z := 8 * kPointerSize isa.

(** What the build fixes and the sources under study only name: the runtime
    instruction set, its code alignment, the sizes of the structures placed in
    the cache and the address of the interpreter bridge. *)
Record Platform := {
  kRuntimeISA : InstructionSet;
  kInstructionSetAlignment : Z;      (* GetInstructionSetAlignment(kRuntimeISA) *)
  kJitCodeAlignment : Z;             (* granule of the live bitmap *)
  sizeof_OatQuickMethodHeader : Z;
  sizeof_ProfilingInfo : Z;
  sizeof_InlineCache : Z;
  kQuickToInterpreterBridge : Z      (* GetQuickToInterpreterBridge() *)
}.

Definition size_t_wrap (P : Platform) (z : Z) : Z :=
  z mod 2 ^ kBitsPerSizeT (kRuntimeISA P).

Definition uint32_wrap (z : Z) : Z := z mod 2 ^ 32.

(** ** Memory mappings

    Modelled from the spec: [MemMap] (mem_map.h is not among the sources), one
    mapping of the reserved region, with where it begins and its size. *)

Record MemMap := { Begin : Z; Size : Z }.

Definition End (m : MemMap) : Z := Begin m + Size m.

(** ** The region allocator

    [code_mspace_] and [data_mspace_] are dlmalloc mspaces, a library outside
    the repository.  The allocator is a parameter of the development: the
    cache relies on the interface below, and the laws are the contract the
    spec gives the region allocator (4.2): an allocation that succeeds stays
    within the footprint limit, a failed one changes nothing (it yields no
    state), a free never raises the bytes in use, and moving the limit touches
    nothing else. *)
Class Mspace := {
  mspace : Type;
  create_mspace_with_base : Z -> Z -> option mspace;
  mspace_malloc : mspace -> Z -> option (Z * mspace);
  mspace_memalign : mspace -> Z -> Z -> option (Z * mspace);
  mspace_free : mspace -> Z -> mspace;
  mspace_set_footprint_limit : mspace -> Z -> mspace;
  mspace_footprint_limit : mspace -> Z;
  (* mspace_inspect_all with DlmallocBytesAllocatedCallback *)
  mspace_bytes_allocated : mspace -> Z;

  create_bytes : forall base cap s,
    create_mspace_with_base base cap = Some s -> mspace_bytes_allocated s = 0;
  malloc_limit : forall s n p s',
    mspace_malloc s n = Some (p, s') ->
    mspace_footprint_limit s' = mspace_footprint_limit s;
  malloc_bytes : forall s n p s',
    mspace_malloc s n = Some (p, s') ->
    mspace_bytes_allocated s <= mspace_footprint_limit s ->
    mspace_bytes_allocated s' <= mspace_footprint_limit s;
  memalign_limit : forall s a n p s',
    mspace_memalign s a n = Some (p, s') ->
    mspace_footprint_limit s' = mspace_footprint_limit s;
  memalign_bytes : forall s a n p s',
    mspace_memalign s a n = Some (p, s') ->
    mspace_bytes_allocated s <= mspace_footprint_limit s ->
    mspace_bytes_allocated s' <= mspace_footprint_limit s;
  free_limit : forall s p,
    mspace_footprint_limit (mspace_free s p) = mspace_footprint_limit s;
  free_bytes : forall s p,
    mspace_bytes_allocated (mspace_free s p) <= mspace_bytes_allocated s;
  set_limit_limit : forall s n,
    mspace_footprint_limit (mspace_set_footprint_limit s n) = n;
  set_limit_bytes : forall s n,
    mspace_bytes_allocated (mspace_set_footprint_limit s n)
    = mspace_bytes_allocated s
}.

(** ** The live bitmap

    Modelled from the spec: [CodeCacheBitmap], a [MemoryRangeBitmap]
    (gc/accounting/bitmap.h is not among the sources): one bit per allocation
    granule ([kJitCodeAlignment] bytes) of the covered range, set with a
    test-and-set that returns the previous value.  The bits are kept as the
    bits of an integer.  An address outside the covered range is undefined in
    the source; here an address below [cover_begin_] has a negative index,
    whose bit reads as clear and cannot be set. *)
Record CodeCacheBitmap := {
  cover_begin_ : Z;
  cover_end_ : Z;
  bits_ : Z
}.

Section Bitmap.
Context (P : Platform).

Definition bitmap_Create (begin_ end_ : Z) : CodeCacheBitmap :=
  {| cover_begin_ := begin_; cover_end_ := end_; bits_ := 0 |}.

Definition BitIndexFromAddr (bm : CodeCacheBitmap) (addr : Z) : Z :=
  (addr - cover_begin_ bm) / kJitCodeAlignment P.

Definition bitmap_Test (bm : CodeCacheBitmap) (addr : Z) : bool :=
  Z.testbit (bits_ bm) (BitIndexFromAddr bm addr).

(** Returns the previous value of the bit and the bitmap with the bit set. *)
Definition AtomicTestAndSet (bm : CodeCacheBitmap) (addr : Z)
  : bool * CodeCacheBitmap :=
  (bitmap_Test bm addr,
   {| cover_begin_ := cover_begin_ bm;
      cover_end_ := cover_end_ bm;
      bits_ := Z.lor (bits_ bm) (Z.shiftl 1 (BitIndexFromAddr bm addr)) |}).
End Bitmap.

(** ** Objects the cache points to *)

(** Modelled from the spec: [OatQuickMethodHeader]
    (oat_quick_method_header.h is not among the sources), the header stored in
    front of the native code: 32-bit offsets from the code back to the three
    tables, zero when absent.  The fields are those [CommitCodeInternal]
    passes to the constructor, in its order. *)
Record OatQuickMethodHeader := {
  mapping_table_offset_ : Z;
  vmap_table_offset_ : Z;
  gc_map_offset_ : Z;
  frame_size_in_bytes_ : Z;
  core_spill_mask_ : Z;
  fp_spill_mask_ : Z;
  code_size_ : Z
}.

(** The fields of [ArtMethod] the cache reads and writes (art_method.h).
    [GetProfilingInfo] and [SetProfilingInfo] use the JNI entry-point slot. *)
Record ArtMethod := {
  entry_point_from_quick_compiled_code_ : Z;
  entry_point_from_jni_ : option Z;
  hotness_count_ : Z
}.

(** Modelled from the spec: [ProfilingInfo] (jit/profiling_info.h is not
    among the sources), the owning method and the sample entries. *)
Record ProfilingInfo := {
  method_ : Z;
  cache_ : list Z
}.

Global Instance OatQuickMethodHeader_inhabited : Inhabited OatQuickMethodHeader :=
  populate (Build_OatQuickMethodHeader 0 0 0 0 0 0 0).
Global Instance ArtMethod_inhabited : Inhabited ArtMethod :=
  populate (Build_ArtMethod 0 None 0).
Global Instance ProfilingInfo_inhabited : Inhabited ProfilingInfo :=
  populate (Build_ProfilingInfo 0 []).

Definition SetEntryPointFromQuickCompiledCode (entry : Z) (m : ArtMethod) : ArtMethod :=
  {| entry_point_from_quick_compiled_code_ := entry;
     entry_point_from_jni_ := entry_point_from_jni_ m;
     hotness_count_ := hotness_count_ m |}.

Definition SetProfilingInfo (info : option Z) (m : ArtMethod) : ArtMethod :=
  {| entry_point_from_quick_compiled_code_ := entry_point_from_quick_compiled_code_ m;
     entry_point_from_jni_ := info;
     hotness_count_ := hotness_count_ m |}.

Definition GetProfilingInfo (m : ArtMethod) : option Z := entry_point_from_jni_ m.

Definition ClearCounter (m : ArtMethod) : ArtMethod :=
  {| entry_point_from_quick_compiled_code_ := entry_point_from_quick_compiled_code_ m;
     entry_point_from_jni_ := entry_point_from_jni_ m;
     hotness_count_ := 0 |}.

(** ** The call log

    Observation only: every entry into the collector and every call of the
    region allocator is appended (newest first).  No operation reads it. *)
Inductive Space := CodeSpace | DataSpace.

Inductive Event :=
  | EvCollect
  | EvAlloc (sp : Space) (size : Z) (result : option Z)
  | EvFree (sp : Space) (ptr : Z).

Global Instance Space_eq_dec : EqDecision Space.
Proof. solve_decision. Defined.
Global Instance Event_eq_dec : EqDecision Event.
Proof. solve_decision. Defined.

Definition is_collect (e : Event) : bool :=
  match e with EvCollect => true | _ => false end.

Definition is_alloc (sp : Space) (e : Event) : bool :=
  match e with EvAlloc sp' _ _ => bool_decide (sp' = sp) | _ => false end.

Definition count_events (p : Event -> bool) (l : list Event) : nat :=
  length (List.filter p l).

Definition is_free (ev : Event) : Prop := exists sp p, ev = EvFree sp p.

(** What the call log of an allocation with one retry looks like, [evs]
    being the calls it added (newest first) and [r] its result: either the
    first attempt succeeded and nothing else happened, or it failed, exactly
    one collection ran (which only frees) and exactly one more attempt was
    made, whose failure is the null result.  Either way there is at most one
    collection and there are at most two attempts. *)
Definition retried_at_most_once (sp : Space) (evs : list Event) (r : option Z) : Prop :=
  (count_events is_collect evs <= 1)%nat
  /\ (count_events (is_alloc sp) evs <= 2)%nat
  /\ ((exists n p, evs = [EvAlloc sp n (Some p)] /\ r <> None)
      \/ (exists n res frees,
            evs = EvAlloc sp n res :: frees ++ [EvCollect; EvAlloc sp n None]
            /\ Forall is_free frees
            /\ (r = None <-> res = None))).

(** ** The catalog: [SafeMap<const void*, ArtMethod*>], an ordered map

    Modelled from the spec: [SafeMap] (safe_map.h is not among the sources)
    has the semantics of the standard ordered map.  It is kept as the list of
    its pairs in iteration order (ascending keys). *)
Definition Catalog := list (Z * Z).

(** [SafeMap::Put]: [std::map::emplace], which leaves an existing key alone. *)
Fixpoint catalog_Put (k v : Z) (l : Catalog) : Catalog :=
  match l with
  | [] => [(k, v)]
  | (k', v') :: t =>
      if k <? k' then (k, v) :: l
      else if k =? k' then l
      else (k', v') :: catalog_Put k v t
  end.

Definition catalog_erase (k : Z) (l : Catalog) : Catalog :=
  List.filter (fun e => negb (fst e =? k)) l.

(** [lower_bound(k)] as a position: the number of leading keys below [k]. *)
Fixpoint lower_bound (k : Z) (l : Catalog) : nat :=
  match l with
  | [] => 0%nat
  | (k', _) :: t => if k' <? k then S (lower_bound k t) else 0%nat
  end.

Fixpoint catalog_sorted (l : Catalog) : Prop :=
  match l with
  | [] => True
  | (k, _) :: t => (forall e, In e t -> k < fst e) /\ catalog_sorted t
  end.

(** ** The cache and the state it lives in *)

Section Cache.
Context `{!Mspace} (P : Platform).

(** The fields of [JitCodeCache], as its constructor initialises them.  The
    lock and the condition variable are the critical sections and [Waits];
    [code_end_] and [data_end_] are only used by [MoreCore], the callback of
    the allocator, and [last_update_time_ns_] only by its getter. *)
Record JitCodeCache := {
  collection_in_progress_ : bool;
  code_map_ : MemMap;
  data_map_ : MemMap;
  max_capacity_ : Z;
  current_capacity_ : Z;
  code_mspace_ : mspace;
  data_mspace_ : mspace;
  method_code_map_ : Catalog;
  profiling_infos_ : list Z;
  live_bitmap_ : option CodeCacheBitmap;
  has_done_one_collection_ : bool
}.

(** The cache together with the memory it points into: the [ArtMethod]
    objects, the method headers in the code region (by code pointer), the
    [ProfilingInfo] objects in the data region, and the call log. *)
Record State := {
  cache : JitCodeCache;
  methods : gmap Z ArtMethod;
  headers : gmap Z OatQuickMethodHeader;
  infos : gmap Z ProfilingInfo;
  calls : list Event
}.

Definition set_collection_in_progress_ (v : bool) (c : JitCodeCache) :=
  Build_JitCodeCache v (code_map_ c) (data_map_ c) (max_capacity_ c)
    (current_capacity_ c) (code_mspace_ c) (data_mspace_ c) (method_code_map_ c)
    (profiling_infos_ c) (live_bitmap_ c) (has_done_one_collection_ c).

Definition set_current_capacity_ (v : Z) (c : JitCodeCache) :=
  Build_JitCodeCache (collection_in_progress_ c) (code_map_ c) (data_map_ c)
    (max_capacity_ c) v (code_mspace_ c) (data_mspace_ c) (method_code_map_ c)
    (profiling_infos_ c) (live_bitmap_ c) (has_done_one_collection_ c).

Definition set_code_mspace_ (v : mspace) (c : JitCodeCache) :=
  Build_JitCodeCache (collection_in_progress_ c) (code_map_ c) (data_map_ c)
    (max_capacity_ c) (current_capacity_ c) v (data_mspace_ c) (method_code_map_ c)
    (profiling_infos_ c) (live_bitmap_ c) (has_done_one_collection_ c).

Definition set_data_mspace_ (v : mspace) (c : JitCodeCache) :=
  Build_JitCodeCache (collection_in_progress_ c) (code_map_ c) (data_map_ c)
    (max_capacity_ c) (current_capacity_ c) (code_mspace_ c) v (method_code_map_ c)
    (profiling_infos_ c) (live_bitmap_ c) (has_done_one_collection_ c).

Definition set_method_code_map_ (v : Catalog) (c : JitCodeCache) :=
  Build_JitCodeCache (collection_in_progress_ c) (code_map_ c) (data_map_ c)
    (max_capacity_ c) (current_capacity_ c) (code_mspace_ c) (data_mspace_ c) v
    (profiling_infos_ c) (live_bitmap_ c) (has_done_one_collection_ c).

Definition set_profiling_infos_ (v : list Z) (c : JitCodeCache) :=
  Build_JitCodeCache (collection_in_progress_ c) (code_map_ c) (data_map_ c)
    (max_capacity_ c) (current_capacity_ c) (code_mspace_ c) (data_mspace_ c)
    (method_code_map_ c) v (live_bitmap_ c) (has_done_one_collection_ c).

Definition set_live_bitmap_ (v : option CodeCacheBitmap) (c : JitCodeCache) :=
  Build_JitCodeCache (collection_in_progress_ c) (code_map_ c) (data_map_ c)
    (max_capacity_ c) (current_capacity_ c) (code_mspace_ c) (data_mspace_ c)
    (method_code_map_ c) (profiling_infos_ c) v (has_done_one_collection_ c).

Definition set_has_done_one_collection_ (v : bool) (c : JitCodeCache) :=
  Build_JitCodeCache (collection_in_progress_ c) (code_map_ c) (data_map_ c)
    (max_capacity_ c) (current_capacity_ c) (code_mspace_ c) (data_mspace_ c)
    (method_code_map_ c) (profiling_infos_ c) (live_bitmap_ c) v.

Definition with_cache (f : JitCodeCache -> JitCodeCache) (s : State) : State :=
  Build_State (f (cache s)) (methods s) (headers s) (infos s) (calls s).

Definition with_methods (f : gmap Z ArtMethod -> gmap Z ArtMethod) (s : State) : State :=
  Build_State (cache s) (f (methods s)) (headers s) (infos s) (calls s).

Definition with_headers
  (f : gmap Z OatQuickMethodHeader -> gmap Z OatQuickMethodHeader) (s : State) : State :=
  Build_State (cache s) (methods s) (f (headers s)) (infos s) (calls s).

Definition with_infos (f : gmap Z ProfilingInfo -> gmap Z ProfilingInfo) (s : State) : State :=
  Build_State (cache s) (methods s) (headers s) (f (infos s)) (calls s).

Definition with_calls (f : list Event -> list Event) (s : State) : State :=
  Build_State (cache s) (methods s) (headers s) (infos s) (f (calls s)).

(** ** Outcomes and sequencing *)

Inductive Outcome (A : Type) : Type :=
  | Returns (a : A) (s : State)
  | Waits
  | Undefined.

Arguments Returns {A} a s.
Arguments Waits {A}.
Arguments Undefined {A}.

Definition M (A : Type) : Type := State -> Outcome A.

Definition ret {A} (a : A) : M A := fun s => Returns a s.

Definition bind {A B} (m : M A) (k : A -> M B) : M B :=
  fun s =>
    match m s with
    | Returns a s' => k a s'
    | Waits => Waits
    | Undefined => Undefined
    end.

Definition get {A} (f : State -> A) : M A := fun s => Returns (f s) s.

Definition modify (f : State -> State) : M unit := fun s => Returns tt (f s).

Definition undefined {A} : M A := fun _ => Undefined.

Definition record (e : Event) : M unit := modify (with_calls (cons e)).

#[global] Instance M_ret : MRet M := @ret.
#[global] Instance M_bind : MBind M := fun A B k m => bind m k.

(** ** Helpers of the facade *)

(** [WaitForPotentialCollectionToComplete]: the caller sleeps on [lock_cond_]
    while a collection is in progress; when none is, it returns [false]. *)
Definition WaitForPotentialCollectionToComplete : M bool :=
  fun s => if collection_in_progress_ (cache s) then Waits else Returns false s.

Definition ContainsPc (c : JitCodeCache) (ptr : Z) : bool :=
  (Begin (code_map_ c) <=? ptr) && (ptr <? End (code_map_ c)).

Definition header_size : Z :=
  RoundUp (sizeof_OatQuickMethodHeader P) (kInstructionSetAlignment P).

Definition FromCodeToAllocation (code : Z) : Z := code - header_size.

(** [OatQuickMethodHeader::FromCodePointer]: the header lies just before the
    code; the header memory is indexed by the code pointer. *)
Definition FromCodePointer (s : State) (code_ptr : Z) : OatQuickMethodHeader :=
  headers s !!! code_ptr.

Definition header_address (code_ptr : Z) : Z :=
  code_ptr - sizeof_OatQuickMethodHeader P.

(** Modelled from the spec: [OatQuickMethodHeader::GetEntryPoint]
    (oat_quick_method_header.h is not among the sources); the entry point of a
    compiled entry is the address of its native code. *)
Definition GetEntryPoint (code_ptr : Z) : Z := code_ptr.

(** Modelled from the spec: [OatQuickMethodHeader::Contains]; the program
    counter falls within the recorded length of the code. *)
Definition Contains (h : OatQuickMethodHeader) (code_ptr pc : Z) : bool :=
  (code_ptr <=? pc) && (pc <? code_ptr + code_size_ h).

(** Modelled from the spec: [Instrumentation::UpdateMethodsCode]
    (instrumentation.cc is not among the sources) rewrites the entry point of
    the method. *)
Definition UpdateMethodsCode (method entry : Z) : M unit :=
  modify (with_methods (fun ms =>
    <[method := SetEntryPointFromQuickCompiledCode entry (ms !!! method)]> ms)).

Definition method_SetProfilingInfo (method : Z) (info : option Z) : M unit :=
  modify (with_methods (fun ms =>
    <[method := SetProfilingInfo info (ms !!! method)]> ms)).

Definition method_ClearCounter (method : Z) : M unit :=
  modify (with_methods (fun ms => <[method := ClearCounter (ms !!! method)]> ms)).

Definition free_data (ptr : Z) : M unit :=
  modify (with_cache (fun c => set_data_mspace_ (mspace_free (data_mspace_ c) ptr) c));;
  record (EvFree DataSpace ptr).

Definition free_code (ptr : Z) : M unit :=
  modify (with_cache (fun c => set_code_mspace_ (mspace_free (code_mspace_ c) ptr) c));;
  record (EvFree CodeSpace ptr).

Definition malloc_data (size : Z) : M (option Z) :=
  fun s =>
    match mspace_malloc (data_mspace_ (cache s)) size with
    | Some (p, ms) =>
        Returns (Some p)
          (with_calls (cons (EvAlloc DataSpace size (Some p)))
             (with_cache (set_data_mspace_ ms) s))
    | None => Returns None (with_calls (cons (EvAlloc DataSpace size None)) s)
    end.

Definition memalign_code (alignment size : Z) : M (option Z) :=
  fun s =>
    match mspace_memalign (code_mspace_ (cache s)) alignment size with
    | Some (p, ms) =>
        Returns (Some p)
          (with_calls (cons (EvAlloc CodeSpace size (Some p)))
             (with_cache (set_code_mspace_ ms) s))
    | None => Returns None (with_calls (cons (EvAlloc CodeSpace size None)) s)
    end.

(** Modelled from the spec: [GetNativeGcMap], [GetMappingTable]
    (oat_quick_method_header.h is not among the sources); a table is absent
    when its offset is zero and lies [offset] bytes before the code otherwise. *)
Definition GetNativeGcMap (h : OatQuickMethodHeader) (code_ptr : Z) : option Z :=
  if gc_map_offset_ h =? 0 then None else Some (code_ptr - gc_map_offset_ h).

Definition GetMappingTable (h : OatQuickMethodHeader) (code_ptr : Z) : option Z :=
  if mapping_table_offset_ h =? 0 then None
  else Some (code_ptr - mapping_table_offset_ h).

Definition free_data_if_present (data : option Z) : M unit :=
  match data with
  | Some d => free_data d
  | None => ret tt
  end.

(** [JitCodeCache::FreeCode] *)
Definition FreeCode (code_ptr : Z) : M unit :=
  let allocation := FromCodeToAllocation code_ptr in
  method_header ← get (fun s => FromCodePointer s code_ptr);
  free_data_if_present (GetNativeGcMap method_header code_ptr);;
  free_data_if_present (GetMappingTable method_header code_ptr);;
  (if vmap_table_offset_ method_header =? 0 then ret tt
   else free_data (code_ptr - vmap_table_offset_ method_header));;
  free_code allocation.

Fixpoint for_each {A} (f : A -> M unit) (l : list A) : M unit :=
  match l with
  | [] => ret tt
  | x :: t => f x;; for_each f t
  end.

(** ** Capacity *)

(** [JitCodeCache::SetFootprintLimit] *)
Definition cache_SetFootprintLimit (new_footprint : Z) (c : JitCodeCache) : JitCodeCache :=
  let per_space_footprint := new_footprint / 2 in
  set_code_mspace_
    (mspace_set_footprint_limit (code_mspace_ c) per_space_footprint)
    (set_data_mspace_
       (mspace_set_footprint_limit (data_mspace_ c) per_space_footprint) c).

Definition SetFootprintLimit (new_footprint : Z) : M unit :=
  modify (with_cache (cache_SetFootprintLimit new_footprint)).

(** The capacity [IncreaseCodeCacheCapacity] moves to. *)
Definition increased_capacity (current max_capacity : Z) : Z :=
  let grown :=
    if current <? 1 * MB then size_t_wrap P (current * 2)
    else size_t_wrap P (current + 1 * MB) in
  if grown >? max_capacity then max_capacity else grown.

(** [JitCodeCache::IncreaseCodeCacheCapacity] *)
Definition IncreaseCodeCacheCapacity : M bool :=
  c ← get cache;
  if current_capacity_ c =? max_capacity_ c then ret false
  else
    let new_capacity := increased_capacity (current_capacity_ c) (max_capacity_ c) in
    modify (with_cache (set_current_capacity_ new_capacity));;
    SetFootprintLimit new_capacity;;
    ret true.

(** ** The collector *)

Definition NotifyCollectionDone : M unit :=
  modify (with_cache (set_collection_in_progress_ false)).

(** [GetLiveBitmap()] followed by a member access. *)
Definition GetLiveBitmap : M CodeCacheBitmap :=
  fun s =>
    match live_bitmap_ (cache s) with
    | Some bm => Returns bm s
    | None => Undefined
    end.

Definition live_bitmap_AtomicTestAndSet (addr : Z) : M unit :=
  bm ← GetLiveBitmap;
  modify (with_cache (set_live_bitmap_ (Some (snd (AtomicTestAndSet P bm addr))))).

(** [live_bitmap_.reset(CodeCacheBitmap::Create(...))] *)
Definition allocate_live_bitmap : M unit :=
  modify (with_cache (fun c =>
    set_live_bitmap_
      (Some (bitmap_Create (Begin (code_map_ c))
               (Begin (code_map_ c) + current_capacity_ c / 2))) c)).

(** Second critical section of [GarbageCollectCache]: grow, or allocate the
    bitmap.  Returns whether the capacity was grown. *)
Definition gc_grow_or_allocate_bitmap : M bool :=
  has_done ← get (fun s => has_done_one_collection_ (cache s));
  if (has_done : bool) then
    grown ← IncreaseCodeCacheCapacity;
    if (grown : bool) then
      modify (with_cache (set_has_done_one_collection_ false));;
      NotifyCollectionDone;;
      ret true
    else allocate_live_bitmap;; ret false
  else allocate_live_bitmap;; ret false.

(** Third critical section: every compiled method goes back to the
    interpreter and every profiling info is detached. *)
Definition gc_reset_entry_points : M unit :=
  entries ← get (fun s => method_code_map_ (cache s));
  for_each (fun it => UpdateMethodsCode (snd it) (kQuickToInterpreterBridge P)) entries;;
  pis ← get (fun s => profiling_infos_ (cache s));
  for_each (fun info =>
    method ← get (fun s => method_ (infos s !!! info));
    method_SetProfilingInfo method None) pis.

(** [MarkCodeVisitor::VisitFrame]; a frame is the code pointer of its method
    header, or [None] when the frame has no header. *)
Definition VisitFrame (frame : option Z) : M unit :=
  match frame with
  | None => ret tt
  | Some code =>
      c ← get cache;
      if ContainsPc c code then live_bitmap_AtomicTestAndSet (FromCodeToAllocation code)
      else ret tt
  end.

(** [MarkCodeClosure::Run] on every thread of the checkpoint. *)
Definition RunCheckpoint (stacks : list (list (option Z))) : M unit :=
  for_each (for_each VisitFrame) stacks.

Definition sweep_entry (it : Z * Z) : M unit :=
  let code_ptr := fst it in
  let method := snd it in
  let allocation := FromCodeToAllocation code_ptr in
  bm ← GetLiveBitmap;
  if bitmap_Test P bm allocation then
    UpdateMethodsCode method (GetEntryPoint code_ptr)
  else
    method_ClearCounter method;;
    FreeCode code_ptr;;
    modify (with_cache (fun c =>
      set_method_code_map_ (catalog_erase code_ptr (method_code_map_ c)) c)).

(** Last critical section: sweep, free all profiling info, drop the bitmap. *)
Definition gc_sweep : M unit :=
  entries ← get (fun s => method_code_map_ (cache s));
  for_each sweep_entry entries;;
  pis ← get (fun s => profiling_infos_ (cache s));
  for_each free_data pis;;
  modify (with_cache (set_profiling_infos_ []));;
  modify (with_cache (set_live_bitmap_ None));;
  modify (with_cache (set_has_done_one_collection_ true));;
  NotifyCollectionDone.

(** [JitCodeCache::GarbageCollectCache] *)
Definition GarbageCollectCache (stacks : list (list (option Z))) : M unit :=
  waited ← WaitForPotentialCollectionToComplete;
  if (waited : bool) then ret tt
  else
    modify (with_cache (set_collection_in_progress_ true));;
    record EvCollect;;
    grown ← gc_grow_or_allocate_bitmap;
    if (grown : bool) then ret tt
    else
      gc_reset_entry_points;;
      RunCheckpoint stacks;;
      gc_sweep.

(** ** Committing code *)

(** The arguments of [CommitCode]; the code bytes themselves are not part of
    the modelled state, only their size. *)
Record CommitArgs := {
  arg_method : Z;
  arg_mapping_table : option Z;
  arg_vmap_table : option Z;
  arg_gc_map : option Z;
  arg_frame_size_in_bytes : Z;
  arg_core_spill_mask : Z;
  arg_fp_spill_mask : Z;
  arg_code_size : Z
}.

Definition table_offset (code_ptr : Z) (table : option Z) : Z :=
  match table with
  | None => 0
  | Some t => uint32_wrap (code_ptr - t)
  end.

Definition new_method_header (a : CommitArgs) (code_ptr : Z) : OatQuickMethodHeader :=
  {| mapping_table_offset_ := table_offset code_ptr (arg_mapping_table a);
     vmap_table_offset_ := table_offset code_ptr (arg_vmap_table a);
     gc_map_offset_ := table_offset code_ptr (arg_gc_map a);
     frame_size_in_bytes_ := uint32_wrap (arg_frame_size_in_bytes a);
     core_spill_mask_ := uint32_wrap (arg_core_spill_mask a);
     fp_spill_mask_ := uint32_wrap (arg_fp_spill_mask a);
     code_size_ := uint32_wrap (arg_code_size a) |}.

(** First critical section of [CommitCodeInternal]: allocate and fill in the
    header.  Returns the code pointer. *)
Definition CommitCode_allocate (a : CommitArgs) : M (option Z) :=
  let alignment := kInstructionSetAlignment P in
  let total_size := size_t_wrap P (header_size + arg_code_size a) in
  WaitForPotentialCollectionToComplete;;
  result ← memalign_code alignment total_size;
  match result with
  | None => ret None
  | Some result =>
      let code_ptr := result + header_size in
      modify (with_headers (fun hs => <[code_ptr := new_method_header a code_ptr]> hs));;
      ret (Some code_ptr)
  end.

(** Second critical section of [CommitCodeInternal]: publish. *)
Definition CommitCode_publish (method code_ptr : Z) : M unit :=
  modify (with_cache (fun c =>
    set_method_code_map_ (catalog_Put code_ptr method (method_code_map_ c)) c));;
  UpdateMethodsCode method (GetEntryPoint code_ptr);;
  in_progress ← get (fun s => collection_in_progress_ (cache s));
  if (in_progress : bool) then
    live_bitmap_AtomicTestAndSet (FromCodeToAllocation code_ptr)
  else ret tt.

(** [JitCodeCache::CommitCodeInternal]; the result is the header pointer. *)
Definition CommitCodeInternal (a : CommitArgs) : M (option Z) :=
  code ← CommitCode_allocate a;
  match code with
  | None => ret None
  | Some code_ptr =>
      CommitCode_publish (arg_method a) code_ptr;;
      ret (Some (header_address code_ptr))
  end.

(** [JitCodeCache::CommitCode] *)
Definition CommitCode (stacks : list (list (option Z))) (a : CommitArgs) : M (option Z) :=
  result ← CommitCodeInternal a;
  match result with
  | Some _ => ret result
  | None =>
      GarbageCollectCache stacks;;
      CommitCodeInternal a
  end.

(** ** Data *)

(** [JitCodeCache::ReserveData]; the size is rounded up in [size_t]. *)
Definition ReserveData (stacks : list (list (option Z))) (size : Z) : M (option Z) :=
  let size := size_t_wrap P (RoundUp size (kPointerSize (kRuntimeISA P))) in
  WaitForPotentialCollectionToComplete;;
  result ← malloc_data size;
  match result with
  | Some _ => ret result
  | None =>
      GarbageCollectCache stacks;;
      WaitForPotentialCollectionToComplete;;
      malloc_data size
  end.

(** [JitCodeCache::ClearData] *)
Definition ClearData (data : Z) : M unit := free_data data.

(** ** Lookup *)

(** [JitCodeCache::LookupMethodHeader]; the [method] argument is only
    compared in debug builds.  The result is the header pointer. *)
Definition LookupMethodHeader (pc : Z) : M (option Z) :=
  let pc := if decide (kRuntimeISA P = kArm) then size_t_wrap P (pc - 1) else pc in
  c ← get cache;
  if negb (ContainsPc c pc) then ret None
  else
    match method_code_map_ c with
    | [] => ret None
    | _ =>
        match lower_bound pc (method_code_map_ c) with
        | O => undefined                           (* --it on begin() *)
        | S i =>
            match nth_error (method_code_map_ c) i with
            | None => undefined
            | Some (code_ptr, _) =>
                method_header ← get (fun s => FromCodePointer s code_ptr);
                if negb (Contains method_header code_ptr pc) then ret None
                else ret (Some (header_address code_ptr))
            end
        end
    end.

(** ** Profiling info *)

(** The size [AddProfilingInfoInternal] asks for, computed in [size_t]. *)
Definition profile_info_size (entries : list Z) : Z :=
  size_t_wrap P
    (RoundUp (sizeof_ProfilingInfo P + sizeof_InlineCache P * Z.of_nat (length entries))
             (kPointerSize (kRuntimeISA P))).

(** [JitCodeCache::AddProfilingInfoInternal] *)
Definition AddProfilingInfoInternal (method : Z) (entries : list Z) : M (option Z) :=
  let profile_info_size := profile_info_size entries in
  WaitForPotentialCollectionToComplete;;
  info ← get (fun s => GetProfilingInfo (methods s !!! method));
  match info with
  | Some _ => ret info
  | None =>
      data ← malloc_data profile_info_size;
      match data with
      | None => ret None
      | Some d =>
          modify (with_infos (fun objs =>
            <[d := {| method_ := method; cache_ := entries |}]> objs));;
          method_SetProfilingInfo method (Some d);;
          modify (with_cache (fun c =>
            set_profiling_infos_ (profiling_infos_ c ++ [d]) c));;
          ret (Some d)
      end
  end.

(** [JitCodeCache::AddProfilingInfo] *)
Definition AddProfilingInfo (stacks : list (list (option Z)))
    (method : Z) (entries : list Z) (retry_allocation : bool) : M (option Z) :=
  info ← AddProfilingInfoInternal method entries;
  match info with
  | None =>
      if retry_allocation then
        GarbageCollectCache stacks;;
        AddProfilingInfoInternal method entries
      else ret info
  | Some _ => ret info
  end.

(** ** Unloading *)

(** [JitCodeCache::RemoveMethodsIn]; [alloc] stands for
    [LinearAlloc::ContainsUnsafe]. *)
Definition RemoveMethodsIn (alloc : Z -> bool) : M unit :=
  entries ← get (fun s => method_code_map_ (cache s));
  for_each (fun it =>
    if alloc (snd it) then
      FreeCode (fst it);;
      modify (with_cache (fun c =>
        set_method_code_map_ (catalog_erase (fst it) (method_code_map_ c)) c))
    else ret tt) entries;;
  pis ← get (fun s => profiling_infos_ (cache s));
  for_each (fun info =>
    method ← get (fun s => method_ (infos s !!! info));
    if alloc method then
      method_SetProfilingInfo method None;;
      free_data info;;
      modify (with_cache (fun c =>
        set_profiling_infos_
          (List.filter (fun i => negb (i =? info)) (profiling_infos_ c)) c))
    else ret tt) pis.

End Cache.

Arguments Returns {_ A} a s.
Arguments Waits {_ A}.
Arguments Undefined {_ A}.

(** ** Construction *)

Section Create.
Context `{!Mspace} (P : Platform).

(** The environment of [Create]: [MemMap::MapAnonymous] and
    [MemMap::RemapAtEnd], which yield a mapping or an error string, and
    [PrettySize].  [RemapAtEnd] returns the new tail mapping together with the
    truncated original. *)
Context (MapAnonymous : string -> Z -> MemMap + string).
Context (RemapAtEnd : MemMap -> Z -> string -> (MemMap * MemMap) + string).
Context (PrettySize : Z -> string).

Inductive CreateResult :=
  | CreateAborted                          (* a CHECK or PLOG(FATAL) fired *)
  | CreateFailed (error_msg : string)      (* nullptr and *error_msg *)
  | Created (c : JitCodeCache).

(** The constructor [JitCodeCache::JitCodeCache]; [None] when
    [create_mspace_with_base] fails, which is fatal. *)
Definition JitCodeCache_new (code_map data_map : MemMap)
    (initial_code_capacity initial_data_capacity max_capacity : Z)
  : option JitCodeCache :=
  let current_capacity := size_t_wrap P (initial_code_capacity + initial_data_capacity) in
  match create_mspace_with_base (Begin code_map) initial_code_capacity,
        create_mspace_with_base (Begin data_map) initial_data_capacity with
  | Some code_mspace, Some data_mspace =>
      Some (cache_SetFootprintLimit current_capacity
              {| collection_in_progress_ := false;
                 code_map_ := code_map;
                 data_map_ := data_map;
                 max_capacity_ := max_capacity;
                 current_capacity_ := current_capacity;
                 code_mspace_ := code_mspace;
                 data_mspace_ := data_mspace;
                 method_code_map_ := [];
                 profiling_infos_ := [];
                 live_bitmap_ := None;
                 has_done_one_collection_ := false |})
  | _, _ => None
  end.

Definition too_big_message (max_capacity : Z) : string :=
  "Maxium code cache capacity is limited to 1 GB, "
    +:+ PrettySize max_capacity +:+ " is too big".

Definition map_failed_message (error_str : string) (max_capacity : Z) : string :=
  "Failed to create read write execute cache: "
    +:+ error_str +:+ " size=" +:+ pretty max_capacity.

(** [JitCodeCache::Create] *)
Definition Create (initial_capacity max_capacity : Z) : CreateResult :=
  if max_capacity <? initial_capacity then CreateAborted     (* CHECK_GE *)
  else if max_capacity >? 1 * GB then CreateFailed (too_big_message max_capacity)
  else
    match MapAnonymous "data-code-cache" max_capacity with
    | inr error_str => CreateFailed (map_failed_message error_str max_capacity)
    | inl data_map =>
        let initial_capacity := RoundDown initial_capacity (2 * kPageSize) in
        let max_capacity := RoundDown max_capacity (2 * kPageSize) in
        let data_size := max_capacity / 2 in
        let divider := Begin data_map + data_size in
        match RemapAtEnd data_map divider "jit-code-cache" with
        | inr error_str => CreateFailed (map_failed_message error_str max_capacity)
        | inl (code_map, data_map) =>
            let data_size := initial_capacity / 2 in
            let code_size := initial_capacity - data_size in
            match JitCodeCache_new code_map data_map code_size data_size max_capacity with
            | Some c => Created c
            | None => CreateAborted
            end
        end
    end.

End Create.

(** ** Operations, reachable states and the vocabulary of the properties *)

Section Vocabulary.
Context `{!Mspace} (P : Platform).

(** [CodeCacheSizeLocked] and [DataCacheSizeLocked] *)
Definition CodeCacheSize (c : JitCodeCache) : Z := mspace_bytes_allocated (code_mspace_ c).
Definition DataCacheSize (c : JitCodeCache) : Z := mspace_bytes_allocated (data_mspace_ c).

(** The calls a client can make on a cache.  [OpRuntime] stands for the rest
    of the runtime writing to [ArtMethod] objects between two calls. *)
Inductive Op :=
  | OpCommitCode (stacks : list (list (option Z))) (a : CommitArgs)
  | OpReserveData (stacks : list (list (option Z))) (size : Z)
  | OpClearData (data : Z)
  | OpGarbageCollectCache (stacks : list (list (option Z)))
  | OpLookupMethodHeader (pc : Z)
  | OpAddProfilingInfo (stacks : list (list (option Z)))
      (method : Z) (entries : list Z) (retry_allocation : bool)
  | OpRemoveMethodsIn (alloc : Z -> bool)
  | OpRuntime (f : gmap Z ArtMethod -> gmap Z ArtMethod).

Definition discard {A} (m : M A) : M unit := bind m (fun _ => ret tt).

Definition run_op (op : Op) : M unit :=
  match op with
  | OpCommitCode stacks a => discard (CommitCode P stacks a)
  | OpReserveData stacks size => discard (ReserveData P stacks size)
  | OpClearData data => ClearData data
  | OpGarbageCollectCache stacks => GarbageCollectCache P stacks
  | OpLookupMethodHeader pc => discard (LookupMethodHeader P pc)
  | OpAddProfilingInfo stacks method entries retry =>
      discard (AddProfilingInfo P stacks method entries retry)
  | OpRemoveMethodsIn alloc => RemoveMethodsIn P alloc
  | OpRuntime f => modify (with_methods f)
  end.

(** The states a cache goes through: those [Create] builds, in any memory,
    and those a call leads to. *)
Inductive reachable : State -> Prop :=
  | reachable_created MapAnonymous RemapAtEnd PrettySize initial_capacity max_capacity
      c ms hs objs :
      0 <= initial_capacity ->
      Create P MapAnonymous RemapAtEnd PrettySize initial_capacity max_capacity = Created c ->
      reachable (Build_State c ms hs objs [])
  | reachable_step s op s' :
      reachable s -> run_op op s = Returns tt s' -> reachable s'.

(** What the capacity bookkeeping maintains. *)
Definition capacity_inv (c : JitCodeCache) : Prop :=
  0 <= current_capacity_ c <= max_capacity_ c /\
  max_capacity_ c <= GB /\
  mspace_footprint_limit (code_mspace_ c) = current_capacity_ c / 2 /\
  mspace_footprint_limit (data_mspace_ c) = current_capacity_ c / 2 /\
  CodeCacheSize c <= mspace_footprint_limit (code_mspace_ c) /\
  DataCacheSize c <= mspace_footprint_limit (data_mspace_ c).

(** [preserves I m]: a run of [m] that returns keeps [I]. *)
Definition preserves {A} (I : State -> Prop) (m : M A) : Prop :=
  forall s a s', I s -> m s = Returns a s' -> I s'.

Definition idle (s : State) : Prop := collection_in_progress_ (cache s) = false.

(** The program counter [LookupMethodHeader] searches with. *)
Definition lookup_pc (pc : Z) : Z :=
  if decide (kRuntimeISA P = kArm) then size_t_wrap P (pc - 1) else pc.

(** What can happen to the cache while a collection is between the
    allocation of the bitmap and the sweep: the collector resets the entry
    points, a thread marks a frame of its stack, a commit publishes, or data
    is given back.  (The calls that allocate wait for the collection to end.) *)
Inductive cycle_step : State -> State -> Prop :=
  | cycle_reset s s' :
      gc_reset_entry_points P s = Returns tt s' -> cycle_step s s'
  | cycle_mark frame s s' :
      VisitFrame P frame s = Returns tt s' -> cycle_step s s'
  | cycle_publish method code_ptr s s' :
      CommitCode_publish P method code_ptr s = Returns tt s' -> cycle_step s s'
  | cycle_clear_data data s s' :
      ClearData data s = Returns tt s' -> cycle_step s s'.

Inductive cycle_steps : State -> State -> Prop :=
  | cycle_done s : cycle_steps s s
  | cycle_next s s' s'' : cycle_step s s' -> cycle_steps s' s'' -> cycle_steps s s''.

(** The allocation [addr] is marked and the catalog has an entry at [key]. *)
Definition marked_entry (addr key : Z) (s : State) : Prop :=
  (exists bm, live_bitmap_ (cache s) = Some bm /\ bitmap_Test P bm addr = true)
  /\ (exists method, In (key, method) (method_code_map_ (cache s))).

(** The bookkeeping holds and the capacity is at least [lo]. *)
Definition capacity_ok (lo : Z) (s : State) : Prop :=
  capacity_inv (cache s) /\ lo <= current_capacity_ (cache s).

(** *** The phases of a collection as functions

    What the loops of [GarbageCollectCache] compute, as folds over the list
    they iterate on. *)

Definition reset_entry (bridge : Z) (ms : gmap Z ArtMethod) (it : Z * Z) :=
  <[snd it := SetEntryPointFromQuickCompiledCode bridge (ms !!! snd it)]> ms.

Definition detach_info (objs : gmap Z ProfilingInfo) (ms : gmap Z ArtMethod) (info : Z) :=
  <[method_ (objs !!! info) := SetProfilingInfo None (ms !!! method_ (objs !!! info))]> ms.

Definition reset_methods (entries : Catalog) (pis : list Z)
    (objs : gmap Z ProfilingInfo) (ms : gmap Z ArtMethod) : gmap Z ArtMethod :=
  fold_left (detach_info objs) pis
    (fold_left (reset_entry (kQuickToInterpreterBridge P)) entries ms).

Definition mark_frame (c : JitCodeCache) (bm : CodeCacheBitmap) (frame : option Z)
  : CodeCacheBitmap :=
  match frame with
  | Some code =>
      if ContainsPc c code
      then snd (AtomicTestAndSet P bm (FromCodeToAllocation P code))
      else bm
  | None => bm
  end.

Definition mark_stacks (c : JitCodeCache) (stacks : list (list (option Z)))
    (bm : CodeCacheBitmap) : CodeCacheBitmap :=
  fold_left (fun bm stack => fold_left (mark_frame c) stack bm) stacks bm.

(** The bitmap a collection sweeps with: allocated empty over the code in
    use, then marked from the stacks. *)
Definition marked_bitmap (c : JitCodeCache) (stacks : list (list (option Z)))
  : CodeCacheBitmap :=
  mark_stacks c stacks
    (bitmap_Create (Begin (code_map_ c)) (Begin (code_map_ c) + current_capacity_ c / 2)).

Definition entry_live (bm : CodeCacheBitmap) (code_ptr : Z) : bool :=
  bitmap_Test P bm (FromCodeToAllocation P code_ptr).

Definition sweep_catalog (bm : CodeCacheBitmap) (l cat : Catalog) : Catalog :=
  fold_left (fun cat it =>
    if entry_live bm (fst it) then cat else catalog_erase (fst it) cat) l cat.

Definition sweep_method (bm : CodeCacheBitmap) (ms : gmap Z ArtMethod) (it : Z * Z) :=
  if entry_live bm (fst it)
  then <[snd it := SetEntryPointFromQuickCompiledCode (GetEntryPoint (fst it)) (ms !!! snd it)]> ms
  else <[snd it := ClearCounter (ms !!! snd it)]> ms.

Definition sweep_methods (bm : CodeCacheBitmap) (l : Catalog) (ms : gmap Z ArtMethod) :=
  fold_left (sweep_method bm) l ms.

(** The calls [FreeCode] makes, newest first. *)
Definition FreeCode_events (h : OatQuickMethodHeader) (code_ptr : Z) : list Event :=
  [EvFree CodeSpace (FromCodeToAllocation P code_ptr)]
  ++ (if vmap_table_offset_ h =? 0 then []
      else [EvFree DataSpace (code_ptr - vmap_table_offset_ h)])
  ++ (if mapping_table_offset_ h =? 0 then []
      else [EvFree DataSpace (code_ptr - mapping_table_offset_ h)])
  ++ (if gc_map_offset_ h =? 0 then []
      else [EvFree DataSpace (code_ptr - gc_map_offset_ h)]).

Definition sweep_events (bm : CodeCacheBitmap) (hs : gmap Z OatQuickMethodHeader)
    (l : Catalog) (evs : list Event) : list Event :=
  fold_left (fun evs it =>
    if entry_live bm (fst it) then evs
    else FreeCode_events (hs !!! fst it) (fst it) ++ evs) l evs.

(** The state [s] with the two mspaces, the catalog, the methods and the
    call log replaced. *)
Definition rebuild (s : State) (cms dms : mspace) (cat : Catalog)
    (ms : gmap Z ArtMethod) (evs : list Event) : State :=
  {| cache := set_code_mspace_ cms
                (set_data_mspace_ dms (set_method_code_map_ cat (cache s)));
     methods := ms;
     headers := headers s;
     infos := infos s;
     calls := evs |}.

(** A collection collects (marks and sweeps) unless it can grow. *)
Definition takes_growth_shortcut (c : JitCodeCache) : bool :=
  has_done_one_collection_ c && negb (current_capacity_ c =? max_capacity_ c).

(** The state of a collecting cycle started in [s] when the checkpoint is
    issued: the flag is set, the bitmap allocated and the entry points reset. *)
Definition scan_state (s : State) : State :=
  let c := cache s in
  {| cache :=
       set_live_bitmap_
         (Some (bitmap_Create (Begin (code_map_ c))
                  (Begin (code_map_ c) + current_capacity_ c / 2)))
         (set_collection_in_progress_ true c);
     methods := reset_methods (method_code_map_ c) (profiling_infos_ c) (infos s) (methods s);
     headers := headers s;
     infos := infos s;
     calls := EvCollect :: calls s |}.

(** The state a collecting cycle started in [s] ends in, up to the contents
    of the two mspaces. *)
Definition collected_state (s : State) (stacks : list (list (option Z)))
    (cms dms : mspace) : State :=
  let c := cache s in
  let bm := marked_bitmap c stacks in
  {| cache :=
       {| collection_in_progress_ := false;
          code_map_ := code_map_ c;
          data_map_ := data_map_ c;
          max_capacity_ := max_capacity_ c;
          current_capacity_ := current_capacity_ c;
          code_mspace_ := cms;
          data_mspace_ := dms;
          method_code_map_ := sweep_catalog bm (method_code_map_ c) (method_code_map_ c);
          profiling_infos_ := [];
          live_bitmap_ := None;
          has_done_one_collection_ := true |};
     methods :=
       sweep_methods bm (method_code_map_ c)
         (reset_methods (method_code_map_ c) (profiling_infos_ c) (infos s) (methods s));
     headers := headers s;
     infos := infos s;
     calls :=
       rev (map (EvFree DataSpace) (profiling_infos_ c))
       ++ sweep_events bm (headers s) (method_code_map_ c) (EvCollect :: calls s) |}.

(** The state a growing cycle started in [s] ends in. *)
Definition grown_state (s : State) : State :=
  let c := cache s in
  let new_capacity := increased_capacity P (current_capacity_ c) (max_capacity_ c) in
  {| cache :=
       {| collection_in_progress_ := false;
          code_map_ := code_map_ c;
          data_map_ := data_map_ c;
          max_capacity_ := max_capacity_ c;
          current_capacity_ := new_capacity;
          code_mspace_ := mspace_set_footprint_limit (code_mspace_ c) (new_capacity / 2);
          data_mspace_ := mspace_set_footprint_limit (data_mspace_ c) (new_capacity / 2);
          method_code_map_ := method_code_map_ c;
          profiling_infos_ := profiling_infos_ c;
          live_bitmap_ := live_bitmap_ c;
          has_done_one_collection_ := false |};
     methods := methods s;
     headers := headers s;
     infos := infos s;
     calls := EvCollect :: calls s |}.

End Vocabulary.

Arguments FreeCode_events : simpl never.

(** ** A reference allocator and platform, to run the model

    A counting allocator: it hands out fresh addresses from its base and
    refuses a request that would take the bytes in use past the footprint
    limit. *)
Module Reference.

Record counting := {
  cnt_base : Z;
  cnt_next : Z;
  cnt_limit : Z;
  cnt_blocks : list (Z * Z)
}.

Definition cnt_used (s : counting) : Z :=
  fold_right (fun b acc => Z.max 0 (snd b) + acc) 0 (cnt_blocks s).

Definition cnt_create (base cap : Z) : option counting :=
  Some {| cnt_base := base; cnt_next := base; cnt_limit := cap; cnt_blocks := [] |}.

Definition cnt_memalign (s : counting) (alignment n : Z) : option (Z * counting) :=
  let p := RoundUp (cnt_next s) alignment in
  if cnt_used s + Z.max 0 n <=? cnt_limit s then
    Some (p, {| cnt_base := cnt_base s; cnt_next := p + Z.max 0 n;
                cnt_limit := cnt_limit s; cnt_blocks := (p, n) :: cnt_blocks s |})
  else None.

Definition cnt_malloc (s : counting) (n : Z) : option (Z * counting) :=
  cnt_memalign s 8 n.

Definition cnt_free (s : counting) (p : Z) : counting :=
  {| cnt_base := cnt_base s; cnt_next := cnt_next s; cnt_limit := cnt_limit s;
     cnt_blocks := List.filter (fun b => negb (fst b =? p)) (cnt_blocks s) |}.

Definition cnt_set_limit (s : counting) (n : Z) : counting :=
  {| cnt_base := cnt_base s; cnt_next := cnt_next s; cnt_limit := n;
     cnt_blocks := cnt_blocks s |}.

Lemma cnt_used_filter (f : Z * Z -> bool) (l : list (Z * Z)) :
  fold_right (fun b acc => Z.max 0 (snd b) + acc) 0 (List.filter f l)
  <= fold_right (fun b acc => Z.max 0 (snd b) + acc) 0 l.
Proof.
  induction l as [|b l IH]; simpl; [lia|].
  destruct (f b); simpl; lia.
Qed.

Lemma cnt_memalign_inv s a n p s' :
  cnt_memalign s a n = Some (p, s') ->
  cnt_limit s' = cnt_limit s /\ cnt_used s' <= cnt_limit s.
Proof.
  unfold cnt_memalign.
  destruct (cnt_used s + Z.max 0 n <=? cnt_limit s) eqn:E; [|discriminate].
  intros [= <- <-]. apply Z.leb_le in E.
  unfold cnt_used in *. simpl. split; [reflexivity | lia].
Qed.

#[export] Program Instance counting_mspace : Mspace := {|
  mspace := counting;
  create_mspace_with_base := cnt_create;
  mspace_malloc := cnt_malloc;
  mspace_memalign := cnt_memalign;
  mspace_free := cnt_free;
  mspace_set_footprint_limit := cnt_set_limit;
  mspace_footprint_limit := cnt_limit;
  mspace_bytes_allocated := cnt_used
|}.
Next Obligation. intros base cap s [= <-]. reflexivity. Qed.
Next Obligation. intros s n p s' H. apply (cnt_memalign_inv _ _ _ _ _ H). Qed.
Next Obligation. intros s n p s' H _. apply (cnt_memalign_inv _ _ _ _ _ H). Qed.
Next Obligation. intros s a n p s' H. apply (cnt_memalign_inv _ _ _ _ _ H). Qed.
Next Obligation. intros s a n p s' H _. apply (cnt_memalign_inv _ _ _ _ _ H). Qed.
Next Obligation. reflexivity. Qed.
Next Obligation. intros s p. apply cnt_used_filter. Qed.
Next Obligation. reflexivity. Qed.
Next Obligation. reflexivity. Qed.

Definition x86_64 : Platform :=
  {| kRuntimeISA := kX86_64;
     kInstructionSetAlignment := 16;
     kJitCodeAlignment := 16;
     sizeof_OatQuickMethodHeader := 28;
     sizeof_ProfilingInfo := 16;
     sizeof_InlineCache := 48;
     kQuickToInterpreterBridge := 4096 |}.

(** An environment in which every mapping succeeds, at a fixed address. *)
Definition map_anonymous (name : string) (size : Z) : MemMap + string :=
  inl {| Begin := 65536; Size := size |}.

Definition remap_at_end (m : MemMap) (divider : Z) (name : string)
  : (MemMap * MemMap) + string :=
  inl ({| Begin := divider; Size := End m - divider |},
       {| Begin := Begin m; Size := divider - Begin m |}).

Definition map_anonymous_fails (name : string) (size : Z) : MemMap + string :=
  inr "mmap failed".

Definition pretty_size (z : Z) : string := pretty z +:+ "B".

(** The cache [Create] builds for 16 KB growing to 64 KB, and for 64 KB with
    no room to grow. *)
Definition small_cache : JitCodeCache :=
  {| collection_in_progress_ := false;
     code_map_ := {| Begin := 98304; Size := 32768 |};
     data_map_ := {| Begin := 65536; Size := 32768 |};
     max_capacity_ := 65536;
     current_capacity_ := 16384;
     code_mspace_ := {| cnt_base := 98304; cnt_next := 98304; cnt_limit := 8192;
                        cnt_blocks := [] |};
     data_mspace_ := {| cnt_base := 65536; cnt_next := 65536; cnt_limit := 8192;
                        cnt_blocks := [] |};
     method_code_map_ := [];
     profiling_infos_ := [];
     live_bitmap_ := None;
     has_done_one_collection_ := false |}.

Definition full_cache : JitCodeCache :=
  set_code_mspace_ {| cnt_base := 98304; cnt_next := 98304; cnt_limit := 32768;
                      cnt_blocks := [] |}
    (set_data_mspace_ {| cnt_base := 65536; cnt_next := 65536; cnt_limit := 32768;
                         cnt_blocks := [] |}
       (set_current_capacity_ 65536 small_cache)).

Definition in_empty_memory (c : JitCodeCache) : State :=
  {| cache := c; methods := ∅; headers := ∅; infos := ∅; calls := [] |}.

(** A commit of [size] bytes of code for [method], without tables. *)
Definition plain_code (method size : Z) : CommitArgs :=
  {| arg_method := method; arg_mapping_table := None; arg_vmap_table := None;
     arg_gc_map := None; arg_frame_size_in_bytes := 64; arg_core_spill_mask := 0;
     arg_fp_spill_mask := 0; arg_code_size := size |}.

(** The state a computation returns, or [s] itself when it does not return. *)
Definition after {A} (m : M A) (s : State) : State :=
  match m s with
  | Returns _ s' => s'
  | _ => s
  end.

(** Two compiled methods, the first with a vmap table in the data region and
    a profiling info, in the cache that can still grow. *)
Definition two_methods : State :=
  after (AddProfilingInfo x86_64 [] 1 [7] false)
    (after (CommitCode x86_64 [] (plain_code 2 100))
       (after (CommitCode x86_64 []
                 {| arg_method := 1; arg_mapping_table := None;
                    arg_vmap_table := Some 65536; arg_gc_map := None;
                    arg_frame_size_in_bytes := 64; arg_core_spill_mask := 0;
                    arg_fp_spill_mask := 0; arg_code_size := 100 |})
          (after (ReserveData x86_64 [] 40) (in_empty_memory small_cache)))).

(** One method committed twice. *)
Definition compiled_twice : State :=
  after (CommitCode x86_64 [] (plain_code 1 100))
    (after (CommitCode x86_64 [] (plain_code 1 100)) (in_empty_memory small_cache)).

(** A stack on which only the second method runs. *)
Definition second_running : list (list (option Z)) := [[Some 98480; None]].

(** [two_methods] after one collection. *)
Definition collected_once : State :=
  after (GarbageCollectCache x86_64 second_running) two_methods.

End Reference.

(** ** Queries on the catalog *)

Section Queries.
Context `{!Mspace} (P : Platform).

(** The loop of [JitCodeCache::ContainsMethod]: true at the first entry owned
    by the method. *)
Fixpoint ContainsMethod_loop (method : Z) (l : Catalog) : bool :=
  match l with
  | [] => false
  | it :: t => if snd it =? method then true else ContainsMethod_loop method t
  end.

(** [JitCodeCache::ContainsMethod] *)
Definition ContainsMethod (method : Z) : M bool :=
  entries ← get (fun s => method_code_map_ (cache s));
  ret (ContainsMethod_loop method entries).

(** [JitCodeCache::NumberOfCompiledCode] *)
Definition NumberOfCompiledCode : M Z :=
  get (fun s => Z.of_nat (length (method_code_map_ (cache s)))).

(** [it.second->GetDexFile()->GetOatDexFile()->GetOatFile()]: the oat file a
    method comes from, [None] when a pointer on the way is null. *)
Context (GetOatFile : Z -> option Z).

(** The loop of [JitCodeCache::GetCompiledArtMethods] over the catalog;
    [methods] is the [std::set] it inserts into. *)
Fixpoint GetCompiledArtMethods_loop (oat_file : Z) (l : Catalog) (methods : gset Z)
  : option (gset Z) :=
  match l with
  | [] => Some methods
  | it :: t =>
      match GetOatFile (snd it) with
      | None => None
      | Some f =>
          GetCompiledArtMethods_loop oat_file t
            (if f =? oat_file then {[snd it]} ∪ methods else methods)
      end
  end.

(** [JitCodeCache::GetCompiledArtMethods] *)
Definition GetCompiledArtMethods (oat_file : Z) (methods : gset Z) : M (gset Z) :=
  entries ← get (fun s => method_code_map_ (cache s));
  match GetCompiledArtMethods_loop oat_file entries methods with
  | Some methods => ret methods
  | None => undefined
  end.

End Queries.

(** ** The critical sections of a collection, one at a time *)

Section CollectionSections.
Context `{!Mspace}.

(** First critical section of [GarbageCollectCache]: wait for a collection in
    progress, or let everyone know one is starting.  Returns whether it
    waited, in which case the caller returns at once. *)
Definition gc_enter : M bool :=
  waited ← WaitForPotentialCollectionToComplete;
  if (waited : bool) then ret true
  else
    modify (with_cache (set_collection_in_progress_ true));;
    record EvCollect;;
    ret false.

End CollectionSections.

(** ** The callback of the region allocator

    [code_end_] and [data_end_], which only [MoreCore] uses: how far each
    region has been handed to its mspace, as an offset from the begin of its
    mapping. *)
Record Breaks := { code_end_ : Z; data_end_ : Z }.

Section MoreCore.
Context `{!Mspace} (P : Platform).

(** The constructor: [code_end_(initial_code_capacity)],
    [data_end_(initial_data_capacity)]; these are the sizes it gives
    [create_mspace_with_base]. *)
Definition Breaks_new (initial_code_capacity initial_data_capacity : Z) : Breaks :=
  {| code_end_ := initial_code_capacity; data_end_ := initial_data_capacity |}.

(** [JitCodeCache::MoreCore]; the [mspace] argument is compared with
    [code_mspace_] and is [data_mspace_] otherwise.  [increment] is an
    [intptr_t] added to a [size_t]. *)
Definition MoreCore (c : JitCodeCache) (sp : Space) (increment : Z) (b : Breaks)
  : Z * Breaks :=
  match sp with
  | CodeSpace =>
      let result := code_end_ b in
      (result + Begin (code_map_ c),
       {| code_end_ := size_t_wrap P (code_end_ b + increment);
          data_end_ := data_end_ b |})
  | DataSpace =>
      let result := data_end_ b in
      (result + Begin (data_map_ c),
       {| code_end_ := code_end_ b;
          data_end_ := size_t_wrap P (data_end_ b + increment) |})
  end.

Definition break_of (sp : Space) (b : Breaks) : Z :=
  match sp with
  | CodeSpace => code_end_ b
  | DataSpace => data_end_ b
  end.

Definition region_begin (c : JitCodeCache) (sp : Space) : Z :=
  match sp with
  | CodeSpace => Begin (code_map_ c)
  | DataSpace => Begin (data_map_ c)
  end.

(** A sequence of calls, as the allocator makes them; the addresses returned,
    in order, and the final offsets. *)
Fixpoint MoreCore_calls (c : JitCodeCache) (l : list (Space * Z)) (b : Breaks)
  : list Z * Breaks :=
  match l with
  | [] => ([], b)
  | (sp, increment) :: t =>
      let (r, b1) := MoreCore c sp increment b in
      let (rs, b2) := MoreCore_calls c t b1 in
      (r :: rs, b2)
  end.

End MoreCore.

(** ** Unloading: what the loops of [RemoveMethodsIn] compute *)

Section Unloading.
Context `{!Mspace} (P : Platform) (alloc : Z -> bool).

Definition unload_catalog (l cat : Catalog) : Catalog :=
  fold_left (fun cat it =>
    if alloc (snd it) then catalog_erase (fst it) cat else cat) l cat.

Definition unload_events (hs : gmap Z OatQuickMethodHeader)
    (l : Catalog) (evs : list Event) : list Event :=
  fold_left (fun evs it =>
    if alloc (snd it) then FreeCode_events P (hs !!! fst it) (fst it) ++ evs
    else evs) l evs.

Definition unloaded_info (objs : gmap Z ProfilingInfo) (info : Z) : bool :=
  alloc (method_ (objs !!! info)).

Definition unload_info_methods (objs : gmap Z ProfilingInfo)
    (l : list Z) (ms : gmap Z ArtMethod) : gmap Z ArtMethod :=
  fold_left (fun ms info =>
    if unloaded_info objs info then detach_info objs ms info else ms) l ms.

Definition unload_info_list (objs : gmap Z ProfilingInfo) (l pis : list Z) : list Z :=
  fold_left (fun pis info =>
    if unloaded_info objs info
    then List.filter (fun i => negb (i =? info)) pis else pis) l pis.

Definition unload_info_events (objs : gmap Z ProfilingInfo)
    (l : list Z) (evs : list Event) : list Event :=
  fold_left (fun evs info =>
    if unloaded_info objs info then EvFree DataSpace info :: evs else evs) l evs.

(** The state [RemoveMethodsIn] leads to, up to the contents of the two
    mspaces. *)
Definition unloaded_state (s : State) (cms dms : mspace) : State :=
  let c := cache s in
  {| cache :=
       set_profiling_infos_
         (unload_info_list (infos s) (profiling_infos_ c) (profiling_infos_ c))
         (set_code_mspace_ cms
            (set_data_mspace_ dms
               (set_method_code_map_
                  (unload_catalog (method_code_map_ c) (method_code_map_ c)) c)));
     methods := unload_info_methods (infos s) (profiling_infos_ c) (methods s);
     headers := headers s;
     infos := infos s;
     calls :=
       unload_info_events (infos s) (profiling_infos_ c)
         (unload_events (headers s) (method_code_map_ c) (calls s)) |}.

End Unloading.

Section Committed.
Context `{!Mspace} (P : Platform).

(** The state a successful attempt leads to. *)
Definition committed_state (a : CommitArgs) (s : State) (p : Z) (cms : mspace) : State :=
  let code_ptr := p + header_size P in
  {| cache :=
       set_method_code_map_
         (catalog_Put code_ptr (arg_method a) (method_code_map_ (cache s)))
         (set_code_mspace_ cms (cache s));
     methods :=
       <[arg_method a :=
           SetEntryPointFromQuickCompiledCode (GetEntryPoint code_ptr)
             (methods s !!! arg_method a)]> (methods s);
     headers := <[code_ptr := new_method_header a code_ptr]> (headers s);
     infos := infos s;
     calls :=
       EvAlloc CodeSpace (size_t_wrap P (header_size P + arg_code_size a)) (Some p)
       :: calls s |}.

End Committed.

(** What the [DCHECK]s of [SetFootprintLimit] ask of the footprint it is
    given: each half is a whole number of pages and the two halves add up. *)
Definition footprint_splits_evenly (new_footprint : Z) : Prop :=
  let per_space_footprint := new_footprint / 2 in
  per_space_footprint mod kPageSize = 0 /\ per_space_footprint * 2 = new_footprint.

(** Both capacities are multiples of two pages. *)
Definition capacity_aligned {M : Mspace} (s : State) : Prop :=
  current_capacity_ (cache s) mod (2 * kPageSize) = 0
  /\ max_capacity_ (cache s) mod (2 * kPageSize) = 0.

(** No collection is running and no live bitmap exists. *)
Definition at_rest {M : Mspace} (s : State) : Prop :=
  idle s /\ live_bitmap_ (cache s) = None.

(** Some frame of some stack runs code of the cache whose allocation falls
    into the granule of the live bitmap that [addr] falls into. *)
Definition runs_in_granule {M : Mspace} (P : Platform) (c : JitCodeCache)
    (stacks : list (list (option Z))) (addr : Z) : Prop :=
  exists stack code,
    In stack stacks /\ In (Some code) stack
    /\ ContainsPc c code = true
    /\ (FromCodeToAllocation P code - Begin (code_map_ c)) / kJitCodeAlignment P
       = (addr - Begin (code_map_ c)) / kJitCodeAlignment P.

(** A call of the allocator that handed out a block. *)
Definition obtained (ev : Event) : bool :=
  match ev with
  | EvAlloc _ _ (Some _) => true
  | _ => false
  end.

(** The calls of an allocation with one retry, newest first, [res] being the
    block it ended with: one successful call, or a failed call, one collection
    (which frees) and a second call. *)
Definition attempt_log (sp : Space) (evs : list Event) (res : option Z) : Prop :=
  (exists n p, res = Some p /\ evs = [EvAlloc sp n (Some p)])
  \/ (exists n frees,
        Forall is_free frees
        /\ evs = EvAlloc sp n res :: frees ++ [EvCollect; EvAlloc sp n None]).

Section Attached.
Context `{!Mspace} (P : Platform).

(** The state an attempt of [AddProfilingInfoInternal] leads to when it
    places a new info at [d]. *)
Definition attached_state (method : Z) (entries : list Z) (s : State)
    (d : Z) (dms : mspace) : State :=
  {| cache :=
       set_profiling_infos_ (profiling_infos_ (cache s) ++ [d])
         (set_data_mspace_ dms (cache s));
     methods := <[method := SetProfilingInfo (Some d) (methods s !!! method)]> (methods s);
     headers := headers s;
     infos := <[d := {| method_ := method; cache_ := entries |}]> (infos s);
     calls := EvAlloc DataSpace (profile_info_size P entries) (Some d) :: calls s |}.

End Attached.

(** ** The compiler that fills the cache (compiler/optimizing/optimizing_compiler.cc) *)

(** What [JitCompile] asks of the code generator [TryCompile] returns. *)
Record CodeGenerator := {
  ComputeStackMapsSize : Z;
  HasEmptyFrame : bool;
  GetFrameSize : Z;
  GetCoreSpillMask : Z;
  GetFpuSpillMask : Z;
  code_allocator_GetSize : Z
}.

Section Compiler.
Context `{!Mspace} (P : Platform).

(** The arguments [JitCompile] passes to [CommitCode]: no mapping table, the
    stack maps as vmap table, no GC map. *)
Definition JitCompile_args (method : Z) (codegen : CodeGenerator) (stack_map_data : Z)
  : CommitArgs :=
  {| arg_method := method;
     arg_mapping_table := None;
     arg_vmap_table := Some stack_map_data;
     arg_gc_map := None;
     arg_frame_size_in_bytes :=
       if HasEmptyFrame codegen then 0 else GetFrameSize codegen;
     arg_core_spill_mask := GetCoreSpillMask codegen;
     arg_fp_spill_mask := GetFpuSpillMask codegen;
     arg_code_size := code_allocator_GetSize codegen |}.

(** [OptimizingCompiler::JitCompile], from the result of [TryCompile] on
    ([None] is a null code generator).  [stacks_data] and [stacks_code] are
    the thread stacks a collection finds should the reservation, respectively
    the commit, trigger one. *)
Definition JitCompile (stacks_data stacks_code : list (list (option Z)))
    (method : Z) (codegen : option CodeGenerator) : M bool :=
  match codegen with
  | None => ret false
  | Some codegen =>
      stack_map_data ← ReserveData P stacks_data (ComputeStackMapsSize codegen);
      match stack_map_data with
      | None => ret false
      | Some data =>
          code ← CommitCode P stacks_code (JitCompile_args method codegen data);
          match code with
          | None => ClearData data;; ret false
          | Some _ => ret true
          end
      end
  end.

End Compiler.

(** ** The JIT that owns the cache (runtime/jit/jit.cc) *)

(** The calls [Jit] makes on the dynamic loader and on the compiler library. *)
Inductive LoaderCall :=
  | DlOpen (name : string)
  | DlSym (handle : Z) (symbol : string)
  | DlClose (handle : Z)
  | JitLoad
  | JitUnload (compiler_handle : Z)
  | DumpInfo (code_cache_size data_cache_size number_of_compiled_code : Z).

Global Instance LoaderCall_eq_dec : EqDecision LoaderCall.
Proof. solve_decision. Defined.

(** What the loader answers: a handle or null for [dlopen] and [dlsym], the
    text of [dlerror], and what the [jit_load] of the library returns (the
    compiler handle) and stores (the callbacks). *)
Record Loader := {
  dlopen : string -> option Z;
  dlsym : Z -> string -> option Z;
  dlerror : string;
  jit_load : option Z * option Z
}.

(** The fields of [JitOptions] that [Jit::Create] reads. *)
Record JitOptions := {
  code_cache_initial_capacity_ : Z;
  code_cache_max_capacity_ : Z;
  options_dump_info_on_shutdown_ : bool;
  save_profiling_info_ : bool
}.

Section Jit.
Context `{!Mspace} (P : Platform).
Context (MapAnonymous : string -> Z -> MemMap + string).
Context (RemapAtEnd : MemMap -> Z -> string -> (MemMap * MemMap) + string).
Context (PrettySize : Z -> string).
Context (kIsDebugBuild : bool) (L : Loader).

(** The fields of [Jit] that creation and destruction touch.
    [offline_profile_info_] is kept as whether it exists. *)
Record Jit := {
  jit_library_handle_ : option Z;
  jit_compiler_handle_ : option Z;
  jit_load_ : option Z;
  jit_unload_ : option Z;
  jit_compile_method_ : option Z;
  compiler_callbacks_ : option Z;
  dump_info_on_shutdown_ : bool;
  code_cache_ : option JitCodeCache;
  offline_profile_info_ : bool
}.

(** The constructor [Jit::Jit]; it leaves [jit_unload_] unset. *)
Definition Jit_new : Jit :=
  {| jit_library_handle_ := None;
     jit_compiler_handle_ := None;
     jit_load_ := None;
     jit_unload_ := None;
     jit_compile_method_ := None;
     compiler_callbacks_ := None;
     dump_info_on_shutdown_ := false;
     code_cache_ := None;
     offline_profile_info_ := false |}.

Definition set_jit_library_handle_ (v : option Z) (j : Jit) : Jit :=
  Build_Jit v (jit_compiler_handle_ j) (jit_load_ j) (jit_unload_ j)
    (jit_compile_method_ j) (compiler_callbacks_ j) (dump_info_on_shutdown_ j)
    (code_cache_ j) (offline_profile_info_ j).

Definition set_jit_compiler_handle_ (v : option Z) (j : Jit) : Jit :=
  Build_Jit (jit_library_handle_ j) v (jit_load_ j) (jit_unload_ j)
    (jit_compile_method_ j) (compiler_callbacks_ j) (dump_info_on_shutdown_ j)
    (code_cache_ j) (offline_profile_info_ j).

Definition set_jit_load_ (v : option Z) (j : Jit) : Jit :=
  Build_Jit (jit_library_handle_ j) (jit_compiler_handle_ j) v (jit_unload_ j)
    (jit_compile_method_ j) (compiler_callbacks_ j) (dump_info_on_shutdown_ j)
    (code_cache_ j) (offline_profile_info_ j).

Definition set_jit_unload_ (v : option Z) (j : Jit) : Jit :=
  Build_Jit (jit_library_handle_ j) (jit_compiler_handle_ j) (jit_load_ j) v
    (jit_compile_method_ j) (compiler_callbacks_ j) (dump_info_on_shutdown_ j)
    (code_cache_ j) (offline_profile_info_ j).

Definition set_jit_compile_method_ (v : option Z) (j : Jit) : Jit :=
  Build_Jit (jit_library_handle_ j) (jit_compiler_handle_ j) (jit_load_ j) (jit_unload_ j)
    v (compiler_callbacks_ j) (dump_info_on_shutdown_ j)
    (code_cache_ j) (offline_profile_info_ j).

Definition set_compiler_callbacks_ (v : option Z) (j : Jit) : Jit :=
  Build_Jit (jit_library_handle_ j) (jit_compiler_handle_ j) (jit_load_ j) (jit_unload_ j)
    (jit_compile_method_ j) v (dump_info_on_shutdown_ j)
    (code_cache_ j) (offline_profile_info_ j).

Definition set_dump_info_on_shutdown_ (v : bool) (j : Jit) : Jit :=
  Build_Jit (jit_library_handle_ j) (jit_compiler_handle_ j) (jit_load_ j) (jit_unload_ j)
    (jit_compile_method_ j) (compiler_callbacks_ j) v
    (code_cache_ j) (offline_profile_info_ j).

Definition set_code_cache_ (v : option JitCodeCache) (j : Jit) : Jit :=
  Build_Jit (jit_library_handle_ j) (jit_compiler_handle_ j) (jit_load_ j) (jit_unload_ j)
    (jit_compile_method_ j) (compiler_callbacks_ j) (dump_info_on_shutdown_ j)
    v (offline_profile_info_ j).

Definition set_offline_profile_info_ (v : bool) (j : Jit) : Jit :=
  Build_Jit (jit_library_handle_ j) (jit_compiler_handle_ j) (jit_load_ j) (jit_unload_ j)
    (jit_compile_method_ j) (compiler_callbacks_ j) (dump_info_on_shutdown_ j)
    (code_cache_ j) v.

(** What [LoadCompiler] returns: the object as it leaves it, whether it
    succeeded, the error message it stored, and the calls it made, oldest
    first. *)
Record Loaded := {
  loaded_jit : Jit;
  loaded_ok : bool;
  loaded_error_msg : option string;
  loaded_calls : list LoaderCall
}.

Definition library_name : string :=
  if kIsDebugBuild then "libartd-compiler.so" else "libart-compiler.so".

(** [Jit::LoadCompiler] *)
Definition LoadCompiler (j : Jit) : Loaded :=
  let j := set_jit_library_handle_ (dlopen L library_name) j in
  match jit_library_handle_ j with
  | None =>
      Build_Loaded j false
        (Some ("JIT could not load libart-compiler.so: " +:+ dlerror L))
        [DlOpen library_name]
  | Some handle =>
      let j := set_jit_load_ (dlsym L handle "jit_load") j in
      match jit_load_ j with
      | None =>
          Build_Loaded j false (Some "JIT couldn't find jit_load entry point")
            [DlOpen library_name; DlSym handle "jit_load"; DlClose handle]
      | Some _ =>
          let j := set_jit_unload_ (dlsym L handle "jit_unload") j in
          match jit_unload_ j with
          | None =>
              Build_Loaded j false (Some "JIT couldn't find jit_unload entry point")
                [DlOpen library_name; DlSym handle "jit_load";
                 DlSym handle "jit_unload"; DlClose handle]
          | Some _ =>
              let j := set_jit_compile_method_ (dlsym L handle "jit_compile_method") j in
              match jit_compile_method_ j with
              | None =>
                  Build_Loaded j false
                    (Some "JIT couldn't find jit_compile_method entry point")
                    [DlOpen library_name; DlSym handle "jit_load";
                     DlSym handle "jit_unload"; DlSym handle "jit_compile_method";
                     DlClose handle]
              | Some _ =>
                  let callbacks := snd (jit_load L) in
                  let j := set_jit_compiler_handle_ (fst (jit_load L)) j in
                  let looked_up :=
                    [DlOpen library_name; DlSym handle "jit_load";
                     DlSym handle "jit_unload"; DlSym handle "jit_compile_method";
                     JitLoad] in
                  match jit_compiler_handle_ j with
                  | None =>
                      Build_Loaded j false (Some "JIT couldn't load compiler")
                        (looked_up ++ [DlClose handle])
                  | Some _ =>
                      match callbacks with
                      | None =>
                          Build_Loaded (set_jit_compiler_handle_ None j) false
                            (Some "JIT compiler callbacks were not set")
                            (looked_up ++ [DlClose handle])
                      | Some _ =>
                          Build_Loaded (set_compiler_callbacks_ callbacks j) true None
                            looked_up
                      end
                  end
              end
          end
      end
  end.

(** What the loader must provide for [LoadCompiler] to succeed: the library,
    its three entry points, a compiler handle and the callbacks; and what it
    is to lack one of them once the library is open. *)
Definition loads (handle compiler_handle : Z) : Prop :=
  dlopen L library_name = Some handle
  /\ dlsym L handle "jit_load" <> None
  /\ dlsym L handle "jit_unload" <> None
  /\ dlsym L handle "jit_compile_method" <> None
  /\ fst (jit_load L) = Some compiler_handle
  /\ snd (jit_load L) <> None.

Definition lacks (handle : Z) : Prop :=
  dlopen L library_name = Some handle
  /\ (dlsym L handle "jit_load" = None
      \/ dlsym L handle "jit_unload" = None
      \/ dlsym L handle "jit_compile_method" = None
      \/ fst (jit_load L) = None
      \/ snd (jit_load L) = None).

(** [Jit::~Jit]: the calls it makes, or [None] when [DumpInfo] goes through a
    null [code_cache_].  No thread pool exists before
    [CreateInstrumentationCache], so [DeleteThreadPool] does nothing here. *)
Definition Jit_delete (j : Jit) : option (list LoaderCall) :=
  match
    (if dump_info_on_shutdown_ j then
       match code_cache_ j with
       | None => None
       | Some c =>
           Some [DumpInfo (CodeCacheSize c) (DataCacheSize c)
                   (Z.of_nat (length (method_code_map_ c)))]
       end
     else Some [])
  with
  | None => None
  | Some dumped =>
      Some (dumped
            ++ match jit_compiler_handle_ j with
               | Some h => [JitUnload h]
               | None => []
               end
            ++ match jit_library_handle_ j with
               | Some h => [DlClose h]
               | None => []
               end)
  end.

Inductive JitCreateResult :=
  | JitAborted                        (* a CHECK fired in JitCodeCache::Create *)
  | JitCrashed                        (* a null code_cache_ was dereferenced *)
  | JitFailed (error_msg : option string)    (* nullptr and *error_msg *)
  | JitCreated (j : Jit).

(** Leaving [Jit::Create] with [nullptr]: the [unique_ptr] destroys the
    object. *)
Definition Jit_Create_fail (j : Jit) (error_msg : option string)
    (calls : list LoaderCall) : JitCreateResult * list LoaderCall :=
  match Jit_delete j with
  | None => (JitCrashed, calls)
  | Some deleted => (JitFailed error_msg, calls ++ deleted)
  end.

(** [Jit::Create]; the result and the calls made, oldest first. *)
Definition Jit_Create (options : JitOptions) : JitCreateResult * list LoaderCall :=
  let jit := set_dump_info_on_shutdown_ (options_dump_info_on_shutdown_ options) Jit_new in
  let loaded := LoadCompiler jit in
  let jit := loaded_jit loaded in
  if negb (loaded_ok loaded) then
    Jit_Create_fail jit (loaded_error_msg loaded) (loaded_calls loaded)
  else
    match Create P MapAnonymous RemapAtEnd PrettySize
            (code_cache_initial_capacity_ options) (code_cache_max_capacity_ options) with
    | CreateAborted => (JitAborted, loaded_calls loaded)
    | CreateFailed error_msg =>
        Jit_Create_fail jit (Some error_msg) (loaded_calls loaded)
    | Created c =>
        let jit := set_code_cache_ (Some c) jit in
        let jit := set_offline_profile_info_ (save_profiling_info_ options) jit in
        (JitCreated jit, loaded_calls loaded)
    end.

End Jit.

(** ** Scenarios for the callers and the queries *)
Module Scenario.

(** The allocator of the class loader that defined method 1. *)
Definition loader_of_first (method : Z) : bool := method =? 1.

(** The fresh cache after 40 bytes of data were reserved (at 65536), and the
    commit of 100 bytes of code whose stack maps are those 40 bytes. *)
Definition reserved : State :=
  Reference.after (ReserveData Reference.x86_64 [] 40)
    (Reference.in_empty_memory Reference.small_cache).

Definition code_with_stack_maps : CommitArgs :=
  {| arg_method := 1; arg_mapping_table := None; arg_vmap_table := Some 65536;
     arg_gc_map := None; arg_frame_size_in_bytes := 64; arg_core_spill_mask := 0;
     arg_fp_spill_mask := 0; arg_code_size := 100 |}.

(** Two results of [TryCompile]: 100 bytes of code, and 40000 bytes, more
    than a region of the 64 KB cache holds; 40 bytes of stack maps each. *)
Definition small_method : CodeGenerator :=
  {| ComputeStackMapsSize := 40; HasEmptyFrame := false; GetFrameSize := 64;
     GetCoreSpillMask := 0; GetFpuSpillMask := 0; code_allocator_GetSize := 100 |}.

Definition big_method : CodeGenerator :=
  {| ComputeStackMapsSize := 40; HasEmptyFrame := false; GetFrameSize := 64;
     GetCoreSpillMask := 0; GetFpuSpillMask := 0; code_allocator_GetSize := 40000 |}.

(** Every method comes from oat file 7. *)
Definition oat_file_of (method : Z) : option Z := Some 7.

(** A loader whose library has no [jit_unload], and one that has all. *)
Definition loader_without_unload : Loader :=
  {| dlopen := fun _ => Some 500;
     dlsym := fun _ symbol => if String.eqb symbol "jit_unload" then None else Some 600;
     dlerror := "undefined symbol";
     jit_load := (Some 700, Some 800) |}.

Definition complete_loader : Loader :=
  {| dlopen := fun _ => Some 500;
     dlsym := fun _ _ => Some 600;
     dlerror := "";
     jit_load := (Some 700, Some 800) |}.

Definition options_16K_64K (dump : bool) : JitOptions :=
  {| code_cache_initial_capacity_ := 16384;
     code_cache_max_capacity_ := 65536;
     options_dump_info_on_shutdown_ := dump;
     save_profiling_info_ := false |}.

Definition options_too_big (dump : bool) : JitOptions :=
  {| code_cache_initial_capacity_ := 16384;
     code_cache_max_capacity_ := 2 * GB;
     options_dump_info_on_shutdown_ := dump;
     save_profiling_info_ := false |}.

End Scenario.

(** * Properties *)

(** ** Bit utilities *)

Lemma RoundDown_pow2 (x k : Z) :
  0 <= k -> RoundDown x (2 ^ k) = 2 ^ k * (x / 2 ^ k).
Proof.
  intros Hk. unfold RoundDown.
  replace (- 2 ^ k) with (Z.lnot (Z.ones k)).
  - rewrite <- Z.ldiff_land.
    rewrite Z.ldiff_ones_r by assumption.
    rewrite Z.shiftr_div_pow2, Z.shiftl_mul_pow2 by assumption. lia.
  - rewrite Z.ones_equiv. unfold Z.lnot. lia.
Qed.

Lemma RoundDown_two_pages (x : Z) :
  RoundDown x (2 * kPageSize) = 8192 * (x / 8192).
Proof. change (2 * kPageSize) with (2 ^ 13). rewrite RoundDown_pow2 by lia. reflexivity. Qed.

Lemma RoundDown_two_pages_bounds (x : Z) :
  0 <= x -> 0 <= RoundDown x (2 * kPageSize) <= x.
Proof.
  intros Hx. rewrite RoundDown_two_pages.
  pose proof (Z.mul_div_le x 8192 ltac:(lia)).
  pose proof (Z.div_pos x 8192 Hx ltac:(lia)). lia.
Qed.

Lemma RoundDown_two_pages_mono (x y : Z) :
  x <= y -> RoundDown x (2 * kPageSize) <= RoundDown y (2 * kPageSize).
Proof.
  intros Hxy. rewrite !RoundDown_two_pages.
  pose proof (Z.div_le_mono x y 8192 ltac:(lia) Hxy). lia.
Qed.

Lemma size_t_wrap_small (P : Platform) (z : Z) :
  0 <= z < 2 ^ 32 -> size_t_wrap P z = z.
Proof.
  intros Hz. unfold size_t_wrap, kBitsPerSizeT, kPointerSize.
  apply Z.mod_small.
  destruct (Is64BitInstructionSet (kRuntimeISA P)); simpl; lia.
Qed.

(** The capacity after growth, without the wrap-around: double below 1 MB,
    add 1 MB from 1 MB on, never past the maximum. *)
Lemma increased_capacity_spec (P : Platform) (current max_capacity : Z) :
  0 <= current <= max_capacity -> max_capacity <= GB ->
  increased_capacity P current max_capacity
  = Z.min max_capacity (if current <? MB then 2 * current else current + MB).
Proof.
  intros Hc Hm. unfold increased_capacity.
  change (1 * MB) with MB.
  assert (HMB : MB = 1048576) by reflexivity.
  assert (HGB : GB = 1073741824) by reflexivity.
  destruct (current <? MB) eqn:E.
  - apply Z.ltb_lt in E. rewrite size_t_wrap_small by lia.
    destruct (current * 2 >? max_capacity) eqn:E2; lia.
  - apply Z.ltb_ge in E. rewrite size_t_wrap_small by lia.
    destruct (current + MB >? max_capacity) eqn:E2; lia.
Qed.

(** ** Sequencing *)

Section Sequencing.
Context `{!Mspace}.

Lemma bind_returns {A B} (m : M A) (k : A -> M B) s b s' :
  bind m k s = Returns b s' <->
  exists a s1, m s = Returns a s1 /\ k a s1 = Returns b s'.
Proof.
  unfold bind. split.
  - destruct (m s) as [a s1| |]; try discriminate. eauto.
  - intros (a & s1 & -> & Hk). exact Hk.
Qed.

Lemma preserves_ret {A} (I : State -> Prop) (a : A) : preserves I (ret a).
Proof. intros s a' s' HI [= _ <-]. exact HI. Qed.

Lemma preserves_bind {A B} (I : State -> Prop) (m : M A) (k : A -> M B) :
  preserves I m -> (forall a, preserves I (k a)) -> preserves I (bind m k).
Proof.
  intros Hm Hk s b s' HI Hrun.
  apply bind_returns in Hrun as (a & s1 & H1 & H2).
  eapply Hk; [|exact H2]. eapply Hm; eauto.
Qed.

Lemma preserves_get {A} (I : State -> Prop) (f : State -> A) : preserves I (get f).
Proof. intros s a s' HI [= _ <-]. exact HI. Qed.

Lemma preserves_modify (I : State -> Prop) (f : State -> State) :
  (forall s, I s -> I (f s)) -> preserves I (modify f).
Proof. intros Hf s a s' HI [= _ <-]. auto. Qed.

Lemma preserves_undefined {A} (I : State -> Prop) : preserves I (@undefined _ A).
Proof. intros s a s' _ [=]. Qed.

Lemma preserves_for_each {A} (I : State -> Prop) (f : A -> M unit) (l : list A) :
  (forall x, preserves I (f x)) -> preserves I (for_each f l).
Proof.
  intros Hf. induction l as [|x l IH]; simpl.
  - apply preserves_ret.
  - apply preserves_bind; auto.
Qed.

Lemma preserves_wait (I : State -> Prop) :
  preserves I WaitForPotentialCollectionToComplete.
Proof.
  intros s a s' HI. unfold WaitForPotentialCollectionToComplete.
  destruct (collection_in_progress_ (cache s)); [discriminate|].
  intros [= _ <-]. exact HI.
Qed.

End Sequencing.

Ltac pres_step :=
  lazymatch goal with
  | |- preserves _ (mbind _ _) => unfold mbind, M_bind
  | |- preserves _ (M_bind _ _ _ _) => unfold mbind, M_bind
  | |- preserves _ (bind _ _) => apply preserves_bind; [|intros ?]
  | |- preserves _ (ret _) => apply preserves_ret
  | |- preserves _ (get _) => apply preserves_get
  | |- preserves _ undefined => apply preserves_undefined
  | |- preserves _ (for_each _ _) => apply preserves_for_each; intros ?
  | |- preserves _ WaitForPotentialCollectionToComplete => apply preserves_wait
  | |- preserves _ (match ?x with _ => _ end) => destruct x eqn:?
  end.

(** ** The capacity bookkeeping is an invariant *)

Section Capacity.
Context `{!Mspace} (P : Platform).

Lemma capacity_ok_same lo s s' :
  current_capacity_ (cache s') = current_capacity_ (cache s) ->
  max_capacity_ (cache s') = max_capacity_ (cache s) ->
  code_mspace_ (cache s') = code_mspace_ (cache s) ->
  data_mspace_ (cache s') = data_mspace_ (cache s) ->
  capacity_ok lo s -> capacity_ok lo s'.
Proof.
  unfold capacity_ok, capacity_inv, CodeCacheSize, DataCacheSize.
  intros -> -> -> ->. tauto.
Qed.

Lemma preserves_modify_same lo (f : State -> State) :
  (forall s, current_capacity_ (cache (f s)) = current_capacity_ (cache s)) ->
  (forall s, max_capacity_ (cache (f s)) = max_capacity_ (cache s)) ->
  (forall s, code_mspace_ (cache (f s)) = code_mspace_ (cache s)) ->
  (forall s, data_mspace_ (cache (f s)) = data_mspace_ (cache s)) ->
  preserves (capacity_ok lo) (modify f).
Proof.
  intros H1 H2 H3 H4. apply preserves_modify. intros s.
  apply capacity_ok_same; auto.
Qed.

Lemma preserves_record lo e : preserves (capacity_ok lo) (record e).
Proof. apply preserves_modify_same; reflexivity. Qed.

Lemma preserves_UpdateMethodsCode lo m e :
  preserves (capacity_ok lo) (UpdateMethodsCode m e).
Proof. apply preserves_modify_same; reflexivity. Qed.

Lemma preserves_method_SetProfilingInfo lo m i :
  preserves (capacity_ok lo) (method_SetProfilingInfo m i).
Proof. apply preserves_modify_same; reflexivity. Qed.

Lemma preserves_method_ClearCounter lo m :
  preserves (capacity_ok lo) (method_ClearCounter m).
Proof. apply preserves_modify_same; reflexivity. Qed.

Lemma preserves_free_data lo p : preserves (capacity_ok lo) (free_data p).
Proof.
  unfold free_data. repeat pres_step; [|apply preserves_record].
  apply preserves_modify. intros s (Hinv & Hlo). split; [|exact Hlo].
  unfold capacity_inv, CodeCacheSize, DataCacheSize in *. simpl.
  rewrite free_limit. pose proof (free_bytes (data_mspace_ (cache s)) p). lia.
Qed.

Lemma preserves_free_code lo p : preserves (capacity_ok lo) (free_code p).
Proof.
  unfold free_code. repeat pres_step; [|apply preserves_record].
  apply preserves_modify. intros s (Hinv & Hlo). split; [|exact Hlo].
  unfold capacity_inv, CodeCacheSize, DataCacheSize in *. simpl.
  rewrite free_limit. pose proof (free_bytes (code_mspace_ (cache s)) p). lia.
Qed.

Lemma preserves_malloc_data lo n : preserves (capacity_ok lo) (malloc_data n).
Proof.
  intros s a s' (Hinv & Hlo). unfold malloc_data.
  destruct (mspace_malloc (data_mspace_ (cache s)) n) as [[p ms]|] eqn:E.
  - intros [= _ <-]. split; [|exact Hlo].
    unfold capacity_inv, CodeCacheSize, DataCacheSize in *. simpl.
    rewrite (malloc_limit _ _ _ _ E).
    pose proof (malloc_bytes _ _ _ _ E). lia.
  - intros [= _ <-]. split; assumption.
Qed.

Lemma preserves_memalign_code lo a n : preserves (capacity_ok lo) (memalign_code a n).
Proof.
  intros s r s' (Hinv & Hlo). unfold memalign_code.
  destruct (mspace_memalign (code_mspace_ (cache s)) a n) as [[p ms]|] eqn:E.
  - intros [= _ <-]. split; [|exact Hlo].
    unfold capacity_inv, CodeCacheSize, DataCacheSize in *. simpl.
    rewrite (memalign_limit _ _ _ _ _ E).
    pose proof (memalign_bytes _ _ _ _ _ E). lia.
  - intros [= _ <-]. split; assumption.
Qed.

Lemma preserves_FreeCode lo code_ptr : preserves (capacity_ok lo) (FreeCode P code_ptr).
Proof.
  unfold FreeCode, free_data_if_present.
  repeat pres_step;
    auto using preserves_free_data, preserves_free_code, preserves_ret.
Qed.

(** What [IncreaseCodeCacheCapacity] returns, in one equation. *)
Lemma IncreaseCodeCacheCapacity_run s :
  IncreaseCodeCacheCapacity P s =
  if current_capacity_ (cache s) =? max_capacity_ (cache s) then Returns false s
  else
    let new_capacity :=
      increased_capacity P (current_capacity_ (cache s)) (max_capacity_ (cache s)) in
    Returns true
      (with_cache (fun c =>
         cache_SetFootprintLimit new_capacity (set_current_capacity_ new_capacity c)) s).
Proof.
  unfold IncreaseCodeCacheCapacity, mbind, M_bind, bind, get. simpl.
  destruct (current_capacity_ (cache s) =? max_capacity_ (cache s)); reflexivity.
Qed.

Lemma increased_capacity_bounds current max_capacity :
  0 <= current <= max_capacity -> max_capacity <= GB ->
  current <= increased_capacity P current max_capacity <= max_capacity.
Proof.
  intros Hc Hm. rewrite increased_capacity_spec by assumption.
  assert (MB = 1048576) by reflexivity.
  destruct (current <? MB); lia.
Qed.

Lemma preserves_IncreaseCodeCacheCapacity lo :
  preserves (capacity_ok lo) (IncreaseCodeCacheCapacity P).
Proof.
  intros s b s' (Hinv & Hlo). rewrite IncreaseCodeCacheCapacity_run.
  destruct (current_capacity_ (cache s) =? max_capacity_ (cache s)).
  - intros [= _ <-]. split; assumption.
  - cbv zeta. intros [= _ <-].
    destruct Hinv as (Hc & Hm & Hlc & Hld & Hbc & Hbd).
    pose proof (increased_capacity_bounds _ _ Hc Hm) as Hn.
    set (n := increased_capacity P _ _) in *.
    unfold capacity_ok, capacity_inv, CodeCacheSize, DataCacheSize in *. simpl.
    rewrite !set_limit_limit, !set_limit_bytes.
    pose proof (Z.div_le_mono _ _ 2 ltac:(lia) (proj1 Hn)).
    repeat split; lia.
Qed.

Lemma preserves_NotifyCollectionDone lo : preserves (capacity_ok lo) NotifyCollectionDone.
Proof. apply preserves_modify_same; reflexivity. Qed.

Lemma preserves_live_bitmap_AtomicTestAndSet lo addr :
  preserves (capacity_ok lo) (live_bitmap_AtomicTestAndSet P addr).
Proof.
  unfold live_bitmap_AtomicTestAndSet. repeat pres_step.
  - intros s a s' HI. unfold GetLiveBitmap.
    destruct (live_bitmap_ (cache s)); [|discriminate]. intros [= _ <-]. exact HI.
  - apply preserves_modify_same; reflexivity.
Qed.

Lemma preserves_GetLiveBitmap lo : preserves (capacity_ok lo) GetLiveBitmap.
Proof.
  intros s a s' HI. unfold GetLiveBitmap.
  destruct (live_bitmap_ (cache s)); [|discriminate]. intros [= _ <-]. exact HI.
Qed.

Ltac pres_cap :=
  repeat first
    [ pres_step
    | apply preserves_record
    | apply preserves_UpdateMethodsCode
    | apply preserves_method_SetProfilingInfo
    | apply preserves_method_ClearCounter
    | apply preserves_free_data
    | apply preserves_free_code
    | apply preserves_malloc_data
    | apply preserves_memalign_code
    | apply preserves_FreeCode
    | apply preserves_IncreaseCodeCacheCapacity
    | apply preserves_NotifyCollectionDone
    | apply preserves_live_bitmap_AtomicTestAndSet
    | apply preserves_GetLiveBitmap
    | (apply preserves_modify_same; reflexivity) ].

Lemma preserves_GarbageCollectCache lo stacks :
  preserves (capacity_ok lo) (GarbageCollectCache P stacks).
Proof.
  unfold GarbageCollectCache, gc_grow_or_allocate_bitmap, allocate_live_bitmap,
    gc_reset_entry_points, RunCheckpoint, gc_sweep.
  pres_cap.
  - unfold VisitFrame. pres_cap.
  - unfold sweep_entry. pres_cap.
Qed.

Lemma preserves_run_op lo op : preserves (capacity_ok lo) (run_op P op).
Proof.
  destruct op; unfold run_op, discard.
  - unfold CommitCode, CommitCodeInternal, CommitCode_allocate, CommitCode_publish.
    pres_cap; apply preserves_GarbageCollectCache.
  - unfold ReserveData. pres_cap; apply preserves_GarbageCollectCache.
  - unfold ClearData. pres_cap.
  - apply preserves_GarbageCollectCache.
  - unfold LookupMethodHeader. pres_cap.
  - unfold AddProfilingInfo, AddProfilingInfoInternal.
    pres_cap; apply preserves_GarbageCollectCache.
  - unfold RemoveMethodsIn. pres_cap.
  - pres_cap.
Qed.

(** [Create] establishes the bookkeeping. *)
Lemma Create_capacity_inv MapAnonymous RemapAtEnd PrettySize initial_capacity max_capacity c :
  0 <= initial_capacity ->
  Create P MapAnonymous RemapAtEnd PrettySize initial_capacity max_capacity = Created c ->
  capacity_inv c.
Proof.
  intros Hi. unfold Create.
  destruct (max_capacity <? initial_capacity) eqn:Ecmp; [discriminate|].
  destruct (max_capacity >? 1 * GB) eqn:Egb; [discriminate|].
  destruct (MapAnonymous _ _) as [data_map|]; [|discriminate].
  destruct (RemapAtEnd _ _ _) as [[code_map data_map']|]; [|discriminate].
  unfold JitCodeCache_new.
  destruct (create_mspace_with_base _ _) as [cms|] eqn:Ec; [|discriminate].
  destruct (create_mspace_with_base (Begin data_map') _) as [dms|] eqn:Ed; [|discriminate].
  intros [= <-].
  apply Z.ltb_ge in Ecmp. assert (Hmax : max_capacity <= GB) by lia.
  assert (HGB : GB = 1073741824) by reflexivity.
  pose proof (RoundDown_two_pages_bounds initial_capacity Hi) as Hri.
  pose proof (RoundDown_two_pages_bounds max_capacity ltac:(lia)) as Hrm.
  pose proof (RoundDown_two_pages_mono _ _ Ecmp) as Hmono.
  set (i := RoundDown initial_capacity (2 * kPageSize)) in *.
  set (m := RoundDown max_capacity (2 * kPageSize)) in *.
  replace (i - i / 2 + i / 2) with i by lia.
  rewrite size_t_wrap_small by lia.
  unfold capacity_inv, CodeCacheSize, DataCacheSize, cache_SetFootprintLimit. simpl.
  rewrite !set_limit_limit, !set_limit_bytes.
  rewrite (create_bytes _ _ _ Ec), (create_bytes _ _ _ Ed).
  pose proof (Z.div_pos i 2 ltac:(lia) ltac:(lia)).
  repeat split; lia.
Qed.

Lemma reachable_capacity_inv s : reachable P s -> capacity_inv (cache s).
Proof.
  induction 1 as [? ? ? ? ? c ms hs objs Hi Hc | s op s' Hr IH Hstep].
  - simpl. eapply Create_capacity_inv; eauto.
  - eapply (preserves_run_op (current_capacity_ (cache s)) op s tt s'); [|exact Hstep].
    split; [exact IH | lia].
Qed.

End Capacity.

(** ** The capacity invariant *)

Section CapacityInvariant.
Context `{!Mspace} (P : Platform).

(** C5. In every reachable state the bytes in use in the code region plus
    those in the data region are at most [current_capacity_], which is at
    most [max_capacity_]; and no operation lowers [current_capacity_]. *)
Theorem capacity_invariant (s : State) :
  reachable P s ->
  CodeCacheSize (cache s) + DataCacheSize (cache s) <= current_capacity_ (cache s)
  /\ current_capacity_ (cache s) <= max_capacity_ (cache s)
  /\ (forall op s', run_op P op s = Returns tt s' ->
        current_capacity_ (cache s) <= current_capacity_ (cache s')).
Proof.
  intros Hr. pose proof (reachable_capacity_inv P s Hr) as Hinv.
  destruct (Hinv) as (Hc & Hm & Hlc & Hld & Hbc & Hbd).
  pose proof (Z.mul_div_le (current_capacity_ (cache s)) 2 ltac:(lia)).
  repeat split; try lia.
  intros op s' Hstep.
  destruct (preserves_run_op P (current_capacity_ (cache s)) op s tt s') as (_ & Hlo);
    [split; [exact Hinv | lia] | exact Hstep | exact Hlo].
Qed.

End CapacityInvariant.

Lemma created_small_cache :
  Create Reference.x86_64 Reference.map_anonymous Reference.remap_at_end
    Reference.pretty_size 16384 65536 = Created Reference.small_cache.
Proof. vm_compute. reflexivity. Qed.

Lemma created_full_cache :
  Create Reference.x86_64 Reference.map_anonymous Reference.remap_at_end
    Reference.pretty_size 65536 65536 = Created Reference.full_cache.
Proof. vm_compute. reflexivity. Qed.

Lemma reachable_small_cache :
  reachable Reference.x86_64 (Reference.in_empty_memory Reference.small_cache).
Proof.
  eapply reachable_created; [|exact created_small_cache]. lia.
Defined.

Lemma reachable_after_commit :
  reachable Reference.x86_64
    (Reference.after (CommitCode Reference.x86_64 [] (Reference.plain_code 1 100))
       (Reference.in_empty_memory Reference.small_cache)).
Proof.
  eapply reachable_step with (op := OpCommitCode [] (Reference.plain_code 1 100));
    [exact reachable_small_cache|].
  vm_compute. reflexivity.
Defined.

Lemma capacity_invariant_witness :
  let s := Reference.after (CommitCode Reference.x86_64 [] (Reference.plain_code 1 100))
             (Reference.in_empty_memory Reference.small_cache) in
  reachable Reference.x86_64 s /\
  (CodeCacheSize (cache s) + DataCacheSize (cache s) <= current_capacity_ (cache s)
   /\ current_capacity_ (cache s) <= max_capacity_ (cache s)
   /\ (forall op s', run_op Reference.x86_64 op s = Returns tt s' ->
         current_capacity_ (cache s) <= current_capacity_ (cache s'))).
Proof.
  intros s. split; [exact reachable_after_commit|].
  exact (capacity_invariant Reference.x86_64 s reachable_after_commit).
Defined.

(** ** The phases of the collector *)

Section Collector.
Context `{!Mspace} (P : Platform).

Lemma with_methods_id (s : State) : with_methods (fun ms => ms) s = s.
Proof. destruct s; reflexivity. Qed.

Lemma set_live_bitmap_same (s : State) bm :
  live_bitmap_ (cache s) = Some bm ->
  with_cache (set_live_bitmap_ (Some bm)) s = s.
Proof.
  destruct s as [c ms hs objs evs]. destruct c. simpl. intros ->. reflexivity.
Qed.

Lemma reset_entries_run (bridge : Z) (l : Catalog) (s : State) :
  for_each (fun it => UpdateMethodsCode (snd it) bridge) l s
  = Returns tt (with_methods (fun ms => fold_left (reset_entry bridge) l ms) s).
Proof.
  revert s. induction l as [|it l IH]; intros s; simpl.
  - unfold ret. rewrite with_methods_id. reflexivity.
  - unfold mbind, M_bind, bind, UpdateMethodsCode, modify. rewrite IH. reflexivity.
Qed.

Lemma detach_infos_run (l : list Z) (s : State) :
  for_each (fun info =>
    method ← get (fun s => method_ (infos s !!! info));
    method_SetProfilingInfo method None) l s
  = Returns tt (with_methods (fun ms => fold_left (detach_info (infos s)) l ms) s).
Proof.
  revert s. induction l as [|info l IH]; intros s; simpl.
  - unfold ret. rewrite with_methods_id. reflexivity.
  - unfold mbind, M_bind, bind, get, method_SetProfilingInfo, modify.
    rewrite IH. reflexivity.
Qed.

Lemma gc_reset_entry_points_run (s : State) :
  gc_reset_entry_points P s
  = Returns tt
      (with_methods
         (reset_methods P (method_code_map_ (cache s)) (profiling_infos_ (cache s)) (infos s))
         s).
Proof.
  unfold gc_reset_entry_points, mbind, M_bind, bind, get.
  rewrite reset_entries_run. rewrite detach_infos_run. reflexivity.
Qed.

Lemma mark_frame_ext (c c' : JitCodeCache) bm frame :
  code_map_ c' = code_map_ c -> mark_frame P c' bm frame = mark_frame P c bm frame.
Proof. intros E. unfold mark_frame, ContainsPc. rewrite E. reflexivity. Qed.

Lemma walk_stack_ext (c c' : JitCodeCache) stack bm :
  code_map_ c' = code_map_ c ->
  fold_left (mark_frame P c') stack bm = fold_left (mark_frame P c) stack bm.
Proof.
  intros E. revert bm. induction stack as [|f stack IH]; intros bm; simpl; [reflexivity|].
  rewrite (mark_frame_ext c c') by assumption. apply IH.
Qed.

Lemma mark_stacks_ext (c c' : JitCodeCache) stacks bm :
  code_map_ c' = code_map_ c ->
  fold_left (fun bm stack => fold_left (mark_frame P c') stack bm) stacks bm
  = fold_left (fun bm stack => fold_left (mark_frame P c) stack bm) stacks bm.
Proof.
  intros E. revert bm. induction stacks as [|st stacks IH]; intros bm; simpl; [reflexivity|].
  rewrite (walk_stack_ext c c') by assumption. apply IH.
Qed.

Lemma VisitFrame_run (s : State) bm frame :
  live_bitmap_ (cache s) = Some bm ->
  VisitFrame P frame s
  = Returns tt (with_cache (set_live_bitmap_ (Some (mark_frame P (cache s) bm frame))) s).
Proof.
  intros Hbm. unfold VisitFrame, mark_frame.
  destruct frame as [code|].
  - unfold mbind, M_bind, bind, get.
    destruct (ContainsPc (cache s) code).
    + unfold live_bitmap_AtomicTestAndSet, mbind, M_bind, bind, GetLiveBitmap.
      rewrite Hbm. reflexivity.
    + unfold ret. rewrite set_live_bitmap_same by assumption. reflexivity.
  - unfold ret. rewrite set_live_bitmap_same by assumption. reflexivity.
Qed.

Lemma walk_stack_run (stack : list (option Z)) (s : State) bm :
  live_bitmap_ (cache s) = Some bm ->
  for_each (VisitFrame P) stack s
  = Returns tt
      (with_cache (set_live_bitmap_ (Some (fold_left (mark_frame P (cache s)) stack bm))) s).
Proof.
  revert s bm. induction stack as [|frame stack IH]; intros s bm Hbm; simpl.
  - unfold ret. rewrite set_live_bitmap_same by assumption. reflexivity.
  - unfold mbind, M_bind, bind. rewrite (VisitFrame_run s bm) by assumption.
    rewrite (IH _ (mark_frame P (cache s) bm frame)) by reflexivity.
    simpl. rewrite (walk_stack_ext (cache s)) by reflexivity. reflexivity.
Qed.

Lemma RunCheckpoint_run (stacks : list (list (option Z))) (s : State) bm :
  live_bitmap_ (cache s) = Some bm ->
  RunCheckpoint P stacks s
  = Returns tt (with_cache (set_live_bitmap_ (Some (mark_stacks P (cache s) stacks bm))) s).
Proof.
  unfold RunCheckpoint, mark_stacks.
  revert s bm. induction stacks as [|stack stacks IH]; intros s bm Hbm; simpl.
  - unfold ret. rewrite set_live_bitmap_same by assumption. reflexivity.
  - unfold mbind, M_bind, bind. rewrite (walk_stack_run stack s bm) by assumption.
    rewrite (IH _ (fold_left (mark_frame P (cache s)) stack bm)) by reflexivity.
    simpl. rewrite (mark_stacks_ext (cache s)) by reflexivity. reflexivity.
Qed.

Lemma FreeCode_run (s : State) (code_ptr : Z) :
  exists cms dms,
    FreeCode P code_ptr s
    = Returns tt
        (rebuild s cms dms (method_code_map_ (cache s)) (methods s)
           (FreeCode_events P (headers s !!! code_ptr) code_ptr ++ calls s)).
Proof.
  destruct s as [c ms hs objs evs]. destruct c.
  unfold FreeCode, FreeCode_events, free_data_if_present, GetNativeGcMap, GetMappingTable,
    FromCodePointer, free_data, free_code, record, mbind, M_bind, bind, get, modify, ret.
  simpl.
  destruct (gc_map_offset_ (hs !!! code_ptr) =? 0);
    destruct (mapping_table_offset_ (hs !!! code_ptr) =? 0);
    destruct (vmap_table_offset_ (hs !!! code_ptr) =? 0);
    simpl; eexists _, _; reflexivity.
Qed.

Lemma sweep_entry_run (s : State) bm (it : Z * Z) :
  live_bitmap_ (cache s) = Some bm ->
  exists cms dms,
    sweep_entry P it s
    = Returns tt
        (rebuild s cms dms
           (if entry_live P bm (fst it) then method_code_map_ (cache s)
            else catalog_erase (fst it) (method_code_map_ (cache s)))
           (sweep_method P bm (methods s) it)
           (if entry_live P bm (fst it) then calls s
            else FreeCode_events P (headers s !!! fst it) (fst it) ++ calls s)).
Proof.
  intros Hbm. unfold sweep_entry, sweep_method, entry_live.
  unfold mbind, M_bind, bind at 1. unfold GetLiveBitmap. rewrite Hbm.
  destruct (bitmap_Test P bm (FromCodeToAllocation P (fst it))).
  - destruct s as [c ms hs objs evs]. destruct c.
    eexists _, _. reflexivity.
  - unfold bind at 1. unfold method_ClearCounter, modify at 1.
    unfold bind at 1.
    destruct (FreeCode_run (with_methods
      (fun ms => <[snd it := ClearCounter (ms !!! snd it)]> ms) s) (fst it))
      as (cms & dms & ->).
    eexists cms, dms. reflexivity.
Qed.

Lemma sweep_loop_run (l : Catalog) (s : State) bm :
  live_bitmap_ (cache s) = Some bm ->
  exists cms dms,
    for_each (sweep_entry P) l s
    = Returns tt
        (rebuild s cms dms
           (sweep_catalog P bm l (method_code_map_ (cache s)))
           (sweep_methods P bm l (methods s))
           (sweep_events P bm (headers s) l (calls s))).
Proof.
  revert s. induction l as [|it l IH]; intros s Hbm.
  - destruct s as [c ms hs objs evs]. destruct c. eexists _, _. reflexivity.
  - simpl for_each. unfold mbind, M_bind, bind.
    destruct (sweep_entry_run s bm it Hbm) as (cms1 & dms1 & ->).
    match goal with |- context [for_each _ l ?s1] =>
      destruct (IH s1) as (cms & dms & ->); [exact Hbm|] end.
    eexists cms, dms. reflexivity.
Qed.

Lemma free_all_run (l : list Z) (s : State) :
  exists dms,
    for_each free_data l s
    = Returns tt
        (rebuild s (code_mspace_ (cache s)) dms (method_code_map_ (cache s)) (methods s)
           (rev (map (EvFree DataSpace) l) ++ calls s)).
Proof.
  revert s. induction l as [|p l IH]; intros s.
  - destruct s as [c ms hs objs evs]. destruct c. eexists _. reflexivity.
  - simpl for_each. unfold mbind, M_bind, bind.
    unfold free_data at 1. unfold mbind, M_bind, bind, modify, record, modify.
    match goal with |- context [for_each _ l ?s1] =>
      destruct (IH s1) as (dms & ->) end.
    eexists dms. simpl. rewrite <- app_assoc. reflexivity.
Qed.

Lemma gc_sweep_run (s : State) bm :
  live_bitmap_ (cache s) = Some bm ->
  exists cms dms,
    gc_sweep P s
    = Returns tt
        {| cache :=
             {| collection_in_progress_ := false;
                code_map_ := code_map_ (cache s);
                data_map_ := data_map_ (cache s);
                max_capacity_ := max_capacity_ (cache s);
                current_capacity_ := current_capacity_ (cache s);
                code_mspace_ := cms;
                data_mspace_ := dms;
                method_code_map_ :=
                  sweep_catalog P bm (method_code_map_ (cache s)) (method_code_map_ (cache s));
                profiling_infos_ := [];
                live_bitmap_ := None;
                has_done_one_collection_ := true |};
           methods := sweep_methods P bm (method_code_map_ (cache s)) (methods s);
           headers := headers s;
           infos := infos s;
           calls :=
             rev (map (EvFree DataSpace) (profiling_infos_ (cache s)))
             ++ sweep_events P bm (headers s) (method_code_map_ (cache s)) (calls s) |}.
Proof.
  intros Hbm. unfold gc_sweep. unfold mbind, M_bind. unfold bind at 1. unfold get at 1.
  unfold bind at 1.
  destruct (sweep_loop_run (method_code_map_ (cache s)) s bm Hbm) as (cms & dms1 & ->).
  unfold bind at 1. unfold get at 1. unfold bind at 1.
  match goal with |- context [for_each free_data ?l ?s1] =>
    destruct (free_all_run l s1) as (dms & ->) end.
  eexists cms, dms. reflexivity.
Qed.

(** A cycle that takes the growth shortcut. *)
Lemma GarbageCollectCache_grows (s : State) stacks :
  idle s ->
  takes_growth_shortcut (cache s) = true ->
  GarbageCollectCache P stacks s = Returns tt (grown_state P s).
Proof.
  unfold idle, takes_growth_shortcut. intros Hidle Hg.
  apply andb_true_iff in Hg as (Hdone & Hne). apply negb_true_iff in Hne.
  unfold GarbageCollectCache, mbind, M_bind. unfold bind at 1.
  unfold WaitForPotentialCollectionToComplete. rewrite Hidle.
  unfold bind at 1. unfold modify at 1. unfold bind at 1. unfold record, modify at 1.
  unfold bind at 1. unfold gc_grow_or_allocate_bitmap, mbind, M_bind.
  unfold bind at 1. unfold get at 1. simpl. rewrite Hdone.
  unfold bind at 1. rewrite IncreaseCodeCacheCapacity_run. simpl. rewrite Hne.
  reflexivity.
Qed.

(** A cycle that collects. *)
Lemma GarbageCollectCache_collects (s : State) stacks :
  idle s ->
  takes_growth_shortcut (cache s) = false ->
  exists cms dms,
    GarbageCollectCache P stacks s = Returns tt (collected_state P s stacks cms dms).
Proof.
  unfold idle, takes_growth_shortcut. intros Hidle Hg.
  unfold GarbageCollectCache, mbind, M_bind. unfold bind at 1.
  unfold WaitForPotentialCollectionToComplete. rewrite Hidle.
  unfold bind at 1. unfold modify at 1. unfold bind at 1. unfold record, modify at 1.
  unfold bind at 1.
  set (s1 := with_calls (cons EvCollect) (with_cache (set_collection_in_progress_ true) s)).
  assert (Hdecide : gc_grow_or_allocate_bitmap P s1
    = Returns false (with_cache (fun c =>
        set_live_bitmap_
          (Some (bitmap_Create (Begin (code_map_ c))
                   (Begin (code_map_ c) + current_capacity_ c / 2))) c) s1)).
  { unfold gc_grow_or_allocate_bitmap, mbind, M_bind. unfold bind at 1. unfold get at 1.
    simpl. destruct (has_done_one_collection_ (cache s)); [|reflexivity].
    simpl in Hg. apply negb_false_iff in Hg.
    unfold bind at 1. rewrite IncreaseCodeCacheCapacity_run. simpl. rewrite Hg.
    reflexivity. }
  rewrite Hdecide. unfold bind at 1. rewrite gc_reset_entry_points_run.
  unfold bind at 1.
  match goal with |- context [RunCheckpoint P stacks ?s2] =>
    rewrite (RunCheckpoint_run stacks s2
      (bitmap_Create (Begin (code_map_ (cache s)))
         (Begin (code_map_ (cache s)) + current_capacity_ (cache s) / 2)))
      by reflexivity end.
  match goal with |- context [gc_sweep P ?s3] =>
    destruct (gc_sweep_run s3 (marked_bitmap P (cache s) stacks)) as (cms & dms & ->);
      [reflexivity|] end.
  eexists cms, dms. reflexivity.
Qed.

End Collector.

(** ** What the folds of a collection compute *)

Section Folds.
Context `{!Mspace} (P : Platform).

Lemma catalog_erase_In (e : Z * Z) (k : Z) (cat : Catalog) :
  In e (catalog_erase k cat) <-> In e cat /\ fst e <> k.
Proof.
  unfold catalog_erase. rewrite filter_In.
  rewrite negb_true_iff, Z.eqb_neq. reflexivity.
Qed.

Lemma sweep_catalog_In bm (l cat : Catalog) (e : Z * Z) :
  In e (sweep_catalog P bm l cat) <->
  In e cat /\ forall it, In it l -> fst it = fst e -> entry_live P bm (fst it) = true.
Proof.
  unfold sweep_catalog. revert cat.
  induction l as [|it l IH]; intros cat; simpl.
  - split; [intros H0; split; [exact H0 | intros ? []] | tauto].
  - rewrite IH. destruct (entry_live P bm (fst it)) eqn:Elive.
    + split.
      * intros (Hin & Hall). split; [exact Hin|].
        intros it' [<- | Hin'] Heq; [exact Elive | auto].
      * intros (Hin & Hall). split; [exact Hin | auto].
    + rewrite catalog_erase_In. split.
      * intros ((Hin & Hne) & Hall). split; [exact Hin|].
        intros it' [<- | Hin'] Heq; [congruence | auto].
      * intros (Hin & Hall). repeat split; [exact Hin | | auto].
        intros Heq. specialize (Hall it (or_introl eq_refl) (eq_sym Heq)). congruence.
Qed.

(** After the sweep of a whole catalog, exactly its live entries remain. *)
Lemma sweep_whole_catalog_In bm (cat : Catalog) (e : Z * Z) :
  In e (sweep_catalog P bm cat cat) <-> In e cat /\ entry_live P bm (fst e) = true.
Proof.
  rewrite sweep_catalog_In. split.
  - intros (Hin & Hall). split; [exact Hin | exact (Hall e Hin eq_refl)].
  - intros (Hin & Hlive). split; [exact Hin|]. intros it _ ->. exact Hlive.
Qed.

Lemma sweep_events_mono bm hs (l : Catalog) (evs : list Event) (ev : Event) :
  In ev evs -> In ev (sweep_events P bm hs l evs).
Proof.
  unfold sweep_events. revert evs. induction l as [|it l IH]; intros evs Hin; cbn [fold_left].
  - exact Hin.
  - apply IH. destruct (entry_live P bm (fst it)); [exact Hin|].
    rewrite in_app_iff. right. exact Hin.
Qed.

Lemma sweep_events_app bm hs (l : Catalog) (evs : list Event) :
  sweep_events P bm hs l evs = sweep_events P bm hs l [] ++ evs.
Proof.
  unfold sweep_events. revert evs. induction l as [|it l IH]; intros evs; cbn [fold_left].
  - reflexivity.
  - destruct (entry_live P bm (fst it)).
    + apply IH.
    + rewrite IH. rewrite (IH (_ ++ [])).
      rewrite app_nil_r, <- app_assoc. reflexivity.
Qed.

Lemma sweep_events_dead bm hs (l : Catalog) (evs : list Event) (it : Z * Z) (ev : Event) :
  In it l -> entry_live P bm (fst it) = false ->
  In ev (FreeCode_events P (hs !!! fst it) (fst it)) ->
  In ev (sweep_events P bm hs l evs).
Proof.
  revert evs. induction l as [|it' l IH]; intros evs [] Hdead Hev.
  - subst it'. unfold sweep_events. cbn [fold_left]. rewrite Hdead.
    apply sweep_events_mono. rewrite in_app_iff. left. exact Hev.
  - unfold sweep_events. cbn [fold_left]. apply IH; assumption.
Qed.

(** The sweep only frees: it allocates nothing and starts no collection. *)
Lemma sweep_events_frees bm hs (l : Catalog) (ev : Event) :
  In ev (sweep_events P bm hs l []) -> exists sp p, ev = EvFree sp p.
Proof.
  assert (Hgen : forall evs,
    (forall e, In e evs -> exists sp p, e = EvFree sp p) ->
    forall e, In e (sweep_events P bm hs l evs) -> exists sp p, e = EvFree sp p).
  { unfold sweep_events. induction l as [|it l IH]; intros evs Hevs; cbn [fold_left]; [exact Hevs|].
    apply IH. destruct (entry_live P bm (fst it)); [exact Hevs|].
    intros e He. rewrite in_app_iff in He. destruct He as [He | He]; [|auto].
    unfold FreeCode_events in He. rewrite !in_app_iff in He.
    repeat (destruct He as [He | He]);
      repeat match goal with
        | H : In _ (if ?b then _ else _) |- _ => destruct b
        | H : In _ [] |- _ => destruct H
        | H : In _ [_] |- _ => destruct H as [<- | []]
        end; eauto. }
  apply Hgen. intros e [].
Qed.

Lemma sweep_method_other bm (ms : gmap Z ArtMethod) (it : Z * Z) (m : Z) :
  snd it <> m -> sweep_method P bm ms it !!! m = ms !!! m.
Proof.
  intros Hne. unfold sweep_method.
  destruct (entry_live P bm (fst it)); apply lookup_total_insert_ne; exact Hne.
Qed.

Lemma sweep_method_jni bm (ms : gmap Z ArtMethod) (it : Z * Z) (m : Z) :
  entry_point_from_jni_ (sweep_method P bm ms it !!! m) = entry_point_from_jni_ (ms !!! m).
Proof.
  destruct (decide (snd it = m)) as [<- | Hne].
  - unfold sweep_method. destruct (entry_live P bm (fst it));
      rewrite lookup_total_insert_eq; reflexivity.
  - rewrite sweep_method_other by exact Hne. reflexivity.
Qed.

Lemma sweep_methods_jni bm (l : Catalog) (ms : gmap Z ArtMethod) (m : Z) :
  entry_point_from_jni_ (sweep_methods P bm l ms !!! m) = entry_point_from_jni_ (ms !!! m).
Proof.
  unfold sweep_methods. revert ms. induction l as [|it l IH]; intros ms; simpl.
  - reflexivity.
  - rewrite IH. apply sweep_method_jni.
Qed.

Lemma sweep_methods_counter_stays bm (l : Catalog) (ms : gmap Z ArtMethod) (m : Z) :
  hotness_count_ (ms !!! m) = 0 ->
  hotness_count_ (sweep_methods P bm l ms !!! m) = 0.
Proof.
  unfold sweep_methods. revert ms. induction l as [|it l IH]; intros ms H0; simpl.
  - exact H0.
  - apply IH. destruct (decide (snd it = m)) as [<- | Hne].
    + unfold sweep_method. destruct (entry_live P bm (fst it));
        rewrite lookup_total_insert_eq; [exact H0 | reflexivity].
    + rewrite sweep_method_other by exact Hne. exact H0.
Qed.

Lemma sweep_methods_counter bm (l : Catalog) (ms : gmap Z ArtMethod) (c m : Z) :
  In (c, m) l -> entry_live P bm c = false ->
  hotness_count_ (sweep_methods P bm l ms !!! m) = 0.
Proof.
  revert ms. induction l as [|it l IH]; intros ms [] Hdead.
  - subst it. unfold sweep_methods. simpl.
    apply sweep_methods_counter_stays.
    unfold sweep_method. simpl. rewrite Hdead. rewrite lookup_total_insert_eq. reflexivity.
  - unfold sweep_methods. simpl. apply IH; assumption.
Qed.

Lemma sweep_methods_entry_stays bm (l : Catalog) (ms : gmap Z ArtMethod) (c m : Z) :
  (forall c', In (c', m) l -> entry_live P bm c' = true -> c' = c) ->
  entry_point_from_quick_compiled_code_ (ms !!! m) = GetEntryPoint c ->
  entry_point_from_quick_compiled_code_ (sweep_methods P bm l ms !!! m) = GetEntryPoint c.
Proof.
  unfold sweep_methods. revert ms. induction l as [|it l IH]; intros ms Huniq H0; simpl.
  - exact H0.
  - apply IH; [intros c' Hin; apply Huniq; right; exact Hin|].
    destruct (decide (snd it = m)) as [Heq | Hne].
    + unfold sweep_method. destruct (entry_live P bm (fst it)) eqn:Elive;
        rewrite Heq, lookup_total_insert_eq; simpl; [|exact H0].
      rewrite (Huniq (fst it)); [reflexivity | | exact Elive].
      left. destruct it; simpl in *; congruence.
    + rewrite sweep_method_other by exact Hne. exact H0.
Qed.

Lemma sweep_methods_entry bm (l : Catalog) (ms : gmap Z ArtMethod) (c m : Z) :
  In (c, m) l -> entry_live P bm c = true ->
  (forall c', In (c', m) l -> entry_live P bm c' = true -> c' = c) ->
  entry_point_from_quick_compiled_code_ (sweep_methods P bm l ms !!! m) = GetEntryPoint c.
Proof.
  revert ms. induction l as [|it l IH]; intros ms [] Hlive Huniq.
  - subst it. unfold sweep_methods. simpl.
    apply sweep_methods_entry_stays; [intros c' Hin; apply Huniq; right; exact Hin|].
    unfold sweep_method. simpl. rewrite Hlive. rewrite lookup_total_insert_eq. reflexivity.
  - unfold sweep_methods. simpl. apply IH; [assumption | assumption |].
    intros c' Hin. apply Huniq. right. exact Hin.
Qed.

(** After the sweep, a method that owns a marked entry enters through the
    code of the last marked entry it owns, in the order of the catalog: the
    one with the greatest start address. *)
Lemma sweep_methods_entry_last bm (l : Catalog) (ms : gmap Z ArtMethod) (c m : Z) :
  In (c, m) l -> entry_live P bm c = true ->
  exists c',
    In (c', m) l /\ entry_live P bm c' = true
    /\ entry_point_from_quick_compiled_code_ (sweep_methods P bm l ms !!! m)
       = GetEntryPoint c'
    /\ (catalog_sorted l ->
        forall c'', In (c'', m) l -> entry_live P bm c'' = true -> c'' <= c').
Proof.
  revert ms c. induction l as [|it l IH]; intros ms c Hin Hlive; [destruct Hin|].
  destruct (existsb (fun e => (snd e =? m) && entry_live P bm (fst e)) l) eqn:Ex.
  - apply existsb_exists in Ex as ([c1 m1] & Hin1 & Hb). simpl in Hb.
    apply andb_true_iff in Hb as (Hm & Hl1). apply Z.eqb_eq in Hm. subst m1.
    destruct (IH (sweep_method P bm ms it) c1 Hin1 Hl1)
      as (c' & Hin' & Hlive' & Hentry & Hmax).
    exists c'. split; [right; exact Hin'|]. split; [exact Hlive'|]. split.
    + exact Hentry.
    + intros Hsorted c'' Hin'' Hlive''. destruct it as [k v].
      destruct Hsorted as (Hlt & Hs).
      destruct Hin'' as [E | Hin'']; [|apply Hmax; assumption].
      injection E as -> ->. specialize (Hlt _ Hin'). simpl in Hlt. lia.
  - assert (Hnone : forall c', In (c', m) l -> entry_live P bm c' = true -> False).
    { intros c' Hin' Hl'.
      assert (Hex : existsb (fun e => (snd e =? m) && entry_live P bm (fst e)) l = true).
      { apply existsb_exists. exists (c', m). split; [exact Hin'|].
        simpl. rewrite Z.eqb_refl, Hl'. reflexivity. }
      congruence. }
    destruct Hin as [-> | Hin]; [|exfalso; eapply Hnone; eassumption].
    exists c. split; [left; reflexivity|]. split; [exact Hlive|]. split.
    + unfold sweep_methods. cbn [fold_left].
      apply (sweep_methods_entry_stays bm l _ c m).
      * intros c' Hin' Hl'. exfalso. eapply Hnone; eassumption.
      * unfold sweep_method. simpl. rewrite Hlive, lookup_total_insert_eq. reflexivity.
    + intros _ c'' [E | Hin''] Hl''.
      * injection E as ->. lia.
      * exfalso. eapply Hnone; eassumption.
Qed.

Lemma reset_entries_stays (bridge : Z) (l : Catalog) (ms : gmap Z ArtMethod) (m : Z) :
  entry_point_from_quick_compiled_code_ (ms !!! m) = bridge ->
  entry_point_from_quick_compiled_code_ (fold_left (reset_entry bridge) l ms !!! m) = bridge.
Proof.
  revert ms. induction l as [|it l IH]; intros ms H0; simpl; [exact H0|].
  apply IH. unfold reset_entry. destruct (decide (snd it = m)) as [<- | Hne].
  - rewrite lookup_total_insert_eq. reflexivity.
  - rewrite lookup_total_insert_ne by exact Hne. exact H0.
Qed.

Lemma reset_entries_bridge (bridge : Z) (l : Catalog) (ms : gmap Z ArtMethod) (c m : Z) :
  In (c, m) l ->
  entry_point_from_quick_compiled_code_ (fold_left (reset_entry bridge) l ms !!! m) = bridge.
Proof.
  revert ms. induction l as [|it l IH]; intros ms []; simpl.
  - subst it. apply reset_entries_stays. unfold reset_entry. simpl.
    rewrite lookup_total_insert_eq. reflexivity.
  - apply IH. assumption.
Qed.

Lemma detach_info_entry objs (ms : gmap Z ArtMethod) (info m : Z) :
  entry_point_from_quick_compiled_code_ (detach_info objs ms info !!! m)
  = entry_point_from_quick_compiled_code_ (ms !!! m).
Proof.
  unfold detach_info. destruct (decide (method_ (objs !!! info) = m)) as [<- | Hne].
  - rewrite lookup_total_insert_eq. reflexivity.
  - rewrite lookup_total_insert_ne by exact Hne. reflexivity.
Qed.

Lemma detach_infos_entry objs (l : list Z) (ms : gmap Z ArtMethod) (m : Z) :
  entry_point_from_quick_compiled_code_ (fold_left (detach_info objs) l ms !!! m)
  = entry_point_from_quick_compiled_code_ (ms !!! m).
Proof.
  revert ms. induction l as [|info l IH]; intros ms; simpl; [reflexivity|].
  rewrite IH. apply detach_info_entry.
Qed.

Lemma detach_infos_stays objs (l : list Z) (ms : gmap Z ArtMethod) (m : Z) :
  GetProfilingInfo (ms !!! m) = None ->
  GetProfilingInfo (fold_left (detach_info objs) l ms !!! m) = None.
Proof.
  revert ms. induction l as [|info l IH]; intros ms H0; simpl; [exact H0|].
  apply IH. unfold detach_info.
  destruct (decide (method_ (objs !!! info) = m)) as [<- | Hne].
  - rewrite lookup_total_insert_eq. reflexivity.
  - rewrite lookup_total_insert_ne by exact Hne. exact H0.
Qed.


(** After the reset every method of the catalog enters through the
    interpreter bridge and every listed profiling info is detached. *)
Lemma reset_methods_bridge (cat : Catalog) (pis : list Z) objs (ms : gmap Z ArtMethod) c m :
  In (c, m) cat ->
  entry_point_from_quick_compiled_code_ (reset_methods P cat pis objs ms !!! m)
  = kQuickToInterpreterBridge P.
Proof.
  intros Hin. unfold reset_methods. rewrite detach_infos_entry.
  eapply reset_entries_bridge. exact Hin.
Qed.


End Folds.

(** ** The collector cycle *)

Section Cycle.
Context `{!Mspace} (P : Platform).


Lemma FreeCode_events_code h code_ptr :
  In (EvFree CodeSpace (FromCodeToAllocation P code_ptr)) (FreeCode_events P h code_ptr).
Proof. unfold FreeCode_events. left. reflexivity. Qed.

Lemma FreeCode_events_tables h code_ptr :
  (mapping_table_offset_ h <> 0 ->
     In (EvFree DataSpace (code_ptr - mapping_table_offset_ h)) (FreeCode_events P h code_ptr))
  /\ (vmap_table_offset_ h <> 0 ->
     In (EvFree DataSpace (code_ptr - vmap_table_offset_ h)) (FreeCode_events P h code_ptr))
  /\ (gc_map_offset_ h <> 0 ->
     In (EvFree DataSpace (code_ptr - gc_map_offset_ h)) (FreeCode_events P h code_ptr)).
Proof.
  unfold FreeCode_events. repeat split; intros Hne; apply Z.eqb_neq in Hne; rewrite Hne;
    rewrite ?in_app_iff; simpl; tauto.
Qed.

(** C1, as the code has it.  After a cycle that marks and sweeps: an entry
    of the catalog whose allocation is marked in the bitmap stays in the
    catalog, and its method enters through the native code of a marked entry
    it owns that is still in the catalog: the one with the greatest start
    address (the catalog being sorted), which is the entry itself when the
    method owns no other marked entry.  For an entry that is not marked, the
    counter of its method is zero, the entry is gone from the catalog, and
    the code allocation and each table with a non-zero offset (mapping table,
    vmap table, GC map) have been freed, each on its own. *)
Theorem sweep_keeps_marked_frees_unmarked (s : State) (stacks : list (list (option Z))) :
  idle s ->
  takes_growth_shortcut (cache s) = false ->
  exists s' evs,
    GarbageCollectCache P stacks s = Returns tt s'
    /\ calls s' = evs ++ calls s
    /\ forall code_ptr method,
         In (code_ptr, method) (method_code_map_ (cache s)) ->
         let bm := marked_bitmap P (cache s) stacks in
         let h := headers s !!! code_ptr in
         (entry_live P bm code_ptr = true ->
            In (code_ptr, method) (method_code_map_ (cache s'))
            /\ (exists c',
                  In (c', method) (method_code_map_ (cache s'))
                  /\ entry_live P bm c' = true
                  /\ entry_point_from_quick_compiled_code_ (methods s' !!! method)
                     = GetEntryPoint c'
                  /\ (catalog_sorted (method_code_map_ (cache s)) ->
                      forall c'', In (c'', method) (method_code_map_ (cache s)) ->
                                  entry_live P bm c'' = true -> c'' <= c'))
            /\ ((forall c', In (c', method) (method_code_map_ (cache s)) ->
                            entry_live P bm c' = true -> c' = code_ptr) ->
                entry_point_from_quick_compiled_code_ (methods s' !!! method)
                = GetEntryPoint code_ptr))
         /\ (entry_live P bm code_ptr = false ->
            hotness_count_ (methods s' !!! method) = 0
            /\ (forall m', ~ In (code_ptr, m') (method_code_map_ (cache s')))
            /\ In (EvFree CodeSpace (FromCodeToAllocation P code_ptr)) evs
            /\ (mapping_table_offset_ h <> 0 ->
                  In (EvFree DataSpace (code_ptr - mapping_table_offset_ h)) evs)
            /\ (vmap_table_offset_ h <> 0 ->
                  In (EvFree DataSpace (code_ptr - vmap_table_offset_ h)) evs)
            /\ (gc_map_offset_ h <> 0 ->
                  In (EvFree DataSpace (code_ptr - gc_map_offset_ h)) evs)).
Proof.
  intros Hidle Hg.
  destruct (GarbageCollectCache_collects P s stacks Hidle Hg) as (cms & dms & Hrun).
  set (bm := marked_bitmap P (cache s) stacks).
  exists (collected_state P s stacks cms dms).
  exists (rev (map (EvFree DataSpace) (profiling_infos_ (cache s)))
          ++ sweep_events P bm (headers s) (method_code_map_ (cache s)) [] ++ [EvCollect]).
  split; [exact Hrun|]. split.
  { unfold collected_state. simpl. fold bm. rewrite sweep_events_app.
    rewrite <- !app_assoc. reflexivity. }
  intros code_ptr method Hin bm' h. subst bm'. split.
  - intros Hlive. split; [|split].
    + unfold collected_state. simpl. apply sweep_whole_catalog_In. split; assumption.
    + destruct (sweep_methods_entry_last P bm (method_code_map_ (cache s))
                  (reset_methods P (method_code_map_ (cache s))
                     (profiling_infos_ (cache s)) (infos s) (methods s))
                  code_ptr method Hin Hlive)
        as (c' & Hin' & Hlive' & Hentry & Hmax).
      exists c'. split; [|split; [exact Hlive'|split; [exact Hentry | exact Hmax]]].
      unfold collected_state. simpl. apply sweep_whole_catalog_In. split; assumption.
    + intros Huniq. unfold collected_state. simpl.
      apply sweep_methods_entry; assumption.
  - intros Hdead.
    assert (Hev : forall ev, In ev (FreeCode_events P h code_ptr) ->
      In ev (rev (map (EvFree DataSpace) (profiling_infos_ (cache s)))
             ++ sweep_events P bm (headers s) (method_code_map_ (cache s)) [] ++ [EvCollect])).
    { intros ev Hev. rewrite !in_app_iff. right. left.
      apply (sweep_events_dead P bm (headers s) _ [] (code_ptr, method)); assumption. }
    destruct (FreeCode_events_tables h code_ptr) as (Hmt & Hvt & Hgt).
    repeat split.
    + unfold collected_state. simpl. eapply sweep_methods_counter; eassumption.
    + intros m' Hin'. unfold collected_state in Hin'. simpl in Hin'.
      apply sweep_whole_catalog_In in Hin' as (_ & Hlive). simpl in Hlive.
      fold bm in Hlive. congruence.
    + apply Hev, FreeCode_events_code.
    + intros Hne. apply Hev, Hmt, Hne.
    + intros Hne. apply Hev, Hvt, Hne.
    + intros Hne. apply Hev, Hgt, Hne.
Qed.

End Cycle.

Lemma sweep_keeps_marked_frees_unmarked_witness :
  idle Reference.two_methods
  /\ takes_growth_shortcut (cache Reference.two_methods) = false
  /\ (exists s' evs,
       GarbageCollectCache Reference.x86_64 Reference.second_running Reference.two_methods
       = Returns tt s'
       /\ calls s' = evs ++ calls Reference.two_methods
       /\ In (98480, 2) (method_code_map_ (cache s'))
       /\ entry_point_from_quick_compiled_code_ (methods s' !!! 2) = 98480
       /\ hotness_count_ (methods s' !!! 1) = 0
       /\ ~ In (98336, 1) (method_code_map_ (cache s'))
       /\ In (EvFree CodeSpace 98304) evs
       /\ In (EvFree DataSpace 65536) evs)
  /\ idle Reference.compiled_twice
  /\ takes_growth_shortcut (cache Reference.compiled_twice) = false
  /\ exists s',
       GarbageCollectCache Reference.x86_64 [[Some 98336; Some 98480]]
         Reference.compiled_twice = Returns tt s'
       /\ In (98336, 1) (method_code_map_ (cache s'))
       /\ In (98480, 1) (method_code_map_ (cache s'))
       /\ entry_point_from_quick_compiled_code_ (methods s' !!! 1) = 98480.
Proof.
  assert (Hidle : idle Reference.two_methods) by (vm_compute; reflexivity).
  assert (Hg : takes_growth_shortcut (cache Reference.two_methods) = false)
    by (vm_compute; reflexivity).
  assert (Hidle2 : idle Reference.compiled_twice) by (vm_compute; reflexivity).
  assert (Hg2 : takes_growth_shortcut (cache Reference.compiled_twice) = false)
    by (vm_compute; reflexivity).
  split; [exact Hidle|]. split; [exact Hg|]. split.
  - destruct (sweep_keeps_marked_frees_unmarked Reference.x86_64 Reference.two_methods
                Reference.second_running Hidle Hg) as (s' & evs & Hrun & Hcalls & Hall).
    exists s', evs. split; [exact Hrun|]. split; [exact Hcalls|].
    assert (Hin2 : In (98480, 2) (method_code_map_ (cache Reference.two_methods)))
      by (vm_compute; tauto).
    assert (Hin1 : In (98336, 1) (method_code_map_ (cache Reference.two_methods)))
      by (vm_compute; tauto).
    destruct (Hall 98480 2 Hin2) as (Hlive & _).
    destruct (Hall 98336 1 Hin1) as (_ & Hdead).
    destruct Hlive as (Hkept & _ & Hentry); [vm_compute; reflexivity|].
    destruct Hdead as (Hcount & Hgone & Hcode & _ & Hvmap & _); [vm_compute; reflexivity|].
    split; [exact Hkept|].
    split.
    { apply Hentry. intros c' Hin _. vm_compute in Hin.
      destruct Hin as [Hin | [Hin | []]]; congruence. }
    split; [exact Hcount|].
    split; [apply Hgone|].
    split; [exact Hcode|].
    apply Hvmap. vm_compute. discriminate.
  - split; [exact Hidle2|]. split; [exact Hg2|].
    destruct (sweep_keeps_marked_frees_unmarked Reference.x86_64 Reference.compiled_twice
                [[Some 98336; Some 98480]] Hidle2 Hg2) as (s' & evs & Hrun & _ & Hall).
    exists s'. split; [exact Hrun|].
    assert (Hlow : In (98336, 1) (method_code_map_ (cache Reference.compiled_twice)))
      by (vm_compute; tauto).
    assert (Hhigh : In (98480, 1) (method_code_map_ (cache Reference.compiled_twice)))
      by (vm_compute; tauto).
    destruct (Hall 98336 1 Hlow) as (Hlive & _).
    destruct Hlive as (Hkept & (c' & Hin' & _ & Hentry & Hmax) & _);
      [vm_compute; reflexivity|].
    destruct (Hall 98480 1 Hhigh) as (Hlive2 & _).
    destruct Hlive2 as (Hkept2 & _); [vm_compute; reflexivity|].
    split; [exact Hkept|]. split; [exact Hkept2|].
    assert (Hge : 98480 <= c').
    { apply Hmax; [|exact Hhigh | vm_compute; reflexivity].
      assert (Hcat : method_code_map_ (cache Reference.compiled_twice)
                     = [(98336, 1); (98480, 1)]) by (vm_compute; reflexivity).
      rewrite Hcat. simpl.
      split; [intros e [<- | []]; simpl; lia|]. split; [intros e []|exact I]. }
    assert (Hc' : c' = 98336 \/ c' = 98480).
    { assert (Hs' : method_code_map_ (cache s') = [(98336, 1); (98480, 1)]).
      { assert (Hc : exists s0,
          GarbageCollectCache Reference.x86_64 [[Some 98336; Some 98480]]
            Reference.compiled_twice = Returns tt s0
          /\ method_code_map_ (cache s0) = [(98336, 1); (98480, 1)])
          by (eexists; split; vm_compute; reflexivity).
        destruct Hc as (s0 & Hc & Hcat). rewrite Hc in Hrun.
        injection Hrun as <-. exact Hcat. }
      rewrite Hs' in Hin'. destruct Hin' as [E | [E | []]]; injection E as <-; auto. }
    rewrite Hentry. unfold GetEntryPoint. lia.
Defined.

Lemma reachable_compiled_twice : reachable Reference.x86_64 Reference.compiled_twice.
Proof.
  eapply reachable_step with (op := OpCommitCode [] (Reference.plain_code 1 100)).
  - eapply reachable_step with (op := OpCommitCode [] (Reference.plain_code 1 100)).
    + exact reachable_small_cache.
    + vm_compute. reflexivity.
  - vm_compute. reflexivity.
Qed.

(** C1 as stated fails: with a method compiled twice and both of its entries
    on a stack, the entry at 98336 is marked and still in the catalog after
    the cycle, and its method does not enter through it. *)
Lemma marked_entry_without_entry_point :
  let s := Reference.compiled_twice in
  let stacks := [[Some 98336; Some 98480]] in
  reachable Reference.x86_64 s
  /\ takes_growth_shortcut (cache s) = false
  /\ In (98336, 1) (method_code_map_ (cache s))
  /\ entry_live Reference.x86_64 (marked_bitmap Reference.x86_64 (cache s) stacks) 98336
     = true
  /\ exists s',
       GarbageCollectCache Reference.x86_64 stacks s = Returns tt s'
       /\ In (98336, 1) (method_code_map_ (cache s'))
       /\ entry_point_from_quick_compiled_code_ (methods s' !!! 1) <> GetEntryPoint 98336.
Proof.
  intros s stacks.
  split; [exact reachable_compiled_twice|].
  split; [vm_compute; reflexivity|].
  split; [vm_compute; tauto|].
  split; [vm_compute; reflexivity|].
  eexists. split; [vm_compute; reflexivity|].
  split; [vm_compute; tauto|].
  vm_compute. discriminate.
Qed.

(** When a method owns two marked entries, both stay and the entry point is
    that of the one the sweep visits last, the higher address. *)
Example two_marked_entries_one_method :
  exists s',
    GarbageCollectCache Reference.x86_64 [[Some 98336; Some 98480]] Reference.compiled_twice
    = Returns tt s'
    /\ method_code_map_ (cache s') = [(98336, 1); (98480, 1)]
    /\ entry_point_from_quick_compiled_code_ (methods s' !!! 1) = 98480.
Proof. eexists. split; [vm_compute; reflexivity|]. split; vm_compute; reflexivity. Qed.

Section Growth.
Context `{!Mspace} (P : Platform).

Lemma takes_growth_shortcut_true (c : JitCodeCache) :
  capacity_inv c ->
  (takes_growth_shortcut c = true <->
   has_done_one_collection_ c = true /\ current_capacity_ c < max_capacity_ c).
Proof.
  intros (Hc & _). unfold takes_growth_shortcut.
  rewrite andb_true_iff, negb_true_iff, Z.eqb_neq. intuition lia.
Qed.

Lemma GarbageCollectCache_capacity_inv (s s' : State) stacks :
  capacity_inv (cache s) ->
  GarbageCollectCache P stacks s = Returns tt s' ->
  capacity_inv (cache s').
Proof.
  intros Hinv Hrun.
  destruct (preserves_GarbageCollectCache P (current_capacity_ (cache s)) stacks s tt s')
    as (Hinv' & _); [split; [exact Hinv | lia] | exact Hrun | exact Hinv'].
Qed.

(** C8. A cycle that takes the growth shortcut (a collection has been done
    and the capacity is below the maximum) does not mark and does not sweep:
    the capacity doubles below 1 MB and grows by 1 MB from 1 MB on, never past
    the maximum, and each of the two regions gets half of it as footprint
    limit; the catalog, the methods, the profiling infos and the bitmap are
    untouched and nothing is freed.  A cycle that does not take the shortcut
    leaves the capacity as it is. *)
Theorem growth_cycle_skips_sweep (s : State) (stacks : list (list (option Z))) :
  idle s ->
  capacity_inv (cache s) ->
  exists s',
    GarbageCollectCache P stacks s = Returns tt s'
    /\ mspace_footprint_limit (code_mspace_ (cache s')) = current_capacity_ (cache s') / 2
    /\ mspace_footprint_limit (data_mspace_ (cache s')) = current_capacity_ (cache s') / 2
    /\ (has_done_one_collection_ (cache s) = true ->
        current_capacity_ (cache s) < max_capacity_ (cache s) ->
        current_capacity_ (cache s')
        = Z.min (max_capacity_ (cache s))
            (if current_capacity_ (cache s) <? MB
             then 2 * current_capacity_ (cache s)
             else current_capacity_ (cache s) + MB)
        /\ method_code_map_ (cache s') = method_code_map_ (cache s)
        /\ methods s' = methods s
        /\ profiling_infos_ (cache s') = profiling_infos_ (cache s)
        /\ live_bitmap_ (cache s') = live_bitmap_ (cache s)
        /\ calls s' = EvCollect :: calls s)
    /\ (has_done_one_collection_ (cache s) = false
        \/ current_capacity_ (cache s) = max_capacity_ (cache s) ->
        current_capacity_ (cache s') = current_capacity_ (cache s)
        /\ has_done_one_collection_ (cache s') = true).
Proof.
  intros Hidle Hinv.
  destruct (takes_growth_shortcut (cache s)) eqn:Hg.
  - pose proof (GarbageCollectCache_grows P s stacks Hidle Hg) as Hrun.
    exists (grown_state P s). split; [exact Hrun|].
    pose proof (GarbageCollectCache_capacity_inv _ _ _ Hinv Hrun)
      as (_ & _ & Hlc & Hld & _).
    apply (takes_growth_shortcut_true _ Hinv) in Hg as (Hdone & Hlt).
    split; [exact Hlc|]. split; [exact Hld|]. split.
    + intros _ _. destruct Hinv as (Hc & Hm & _).
      unfold grown_state. simpl.
      rewrite increased_capacity_spec by assumption. repeat split; reflexivity.
    + intros [Hnd | Heq]; [congruence | lia].
  - destruct (GarbageCollectCache_collects P s stacks Hidle Hg) as (cms & dms & Hrun).
    exists (collected_state P s stacks cms dms). split; [exact Hrun|].
    pose proof (GarbageCollectCache_capacity_inv _ _ _ Hinv Hrun)
      as (_ & _ & Hlc & Hld & _).
    split; [exact Hlc|]. split; [exact Hld|]. split.
    + intros Hdone Hlt.
      assert (takes_growth_shortcut (cache s) = true)
        by (apply (takes_growth_shortcut_true _ Hinv); split; assumption).
      congruence.
    + intros _. split; reflexivity.
Qed.

(** C2, as the code has it.  A cycle on a cache that has not collected since
    it was created or last grown marks and sweeps, and leaves the capacity as
    it is; the cycle after a sweep grows the capacity when it is below the
    maximum, and does not sweep; a cycle with no room left to grow sweeps. *)
Theorem collects_before_growing (s : State) (stacks : list (list (option Z))) :
  idle s ->
  capacity_inv (cache s) ->
  exists s',
    GarbageCollectCache P stacks s = Returns tt s'
    /\ (has_done_one_collection_ (cache s) = false
        \/ current_capacity_ (cache s) = max_capacity_ (cache s) ->
        current_capacity_ (cache s') = current_capacity_ (cache s)
        /\ has_done_one_collection_ (cache s') = true
        /\ forall e, In e (method_code_map_ (cache s')) <->
             In e (method_code_map_ (cache s))
             /\ entry_live P (marked_bitmap P (cache s) stacks) (fst e) = true)
    /\ (has_done_one_collection_ (cache s) = true ->
        current_capacity_ (cache s) < max_capacity_ (cache s) ->
        current_capacity_ (cache s')
        = Z.min (max_capacity_ (cache s))
            (if current_capacity_ (cache s) <? MB
             then 2 * current_capacity_ (cache s)
             else current_capacity_ (cache s) + MB)
        /\ (0 < current_capacity_ (cache s) ->
            current_capacity_ (cache s) < current_capacity_ (cache s'))
        /\ method_code_map_ (cache s') = method_code_map_ (cache s)
        /\ has_done_one_collection_ (cache s') = false).
Proof.
  intros Hidle Hinv.
  destruct (takes_growth_shortcut (cache s)) eqn:Hg.
  - pose proof (GarbageCollectCache_grows P s stacks Hidle Hg) as Hrun.
    exists (grown_state P s). split; [exact Hrun|].
    apply (takes_growth_shortcut_true _ Hinv) in Hg as (Hdone & Hlt).
    split; [intros [Hnd | Heq]; [congruence | lia]|].
    intros _ _. destruct Hinv as (Hc & Hm & _).
    unfold grown_state. simpl.
    rewrite increased_capacity_spec by assumption.
    assert (MB = 1048576) by reflexivity.
    repeat split; try reflexivity.
    intros Hpos. destruct (current_capacity_ (cache s) <? MB); lia.
  - destruct (GarbageCollectCache_collects P s stacks Hidle Hg) as (cms & dms & Hrun).
    exists (collected_state P s stacks cms dms). split; [exact Hrun|]. split.
    + intros _. split; [reflexivity|]. split; [reflexivity|].
      intros e. unfold collected_state. simpl. apply sweep_whole_catalog_In.
    + intros Hdone Hlt.
      assert (takes_growth_shortcut (cache s) = true)
        by (apply (takes_growth_shortcut_true _ Hinv); split; assumption).
      congruence.
Qed.

End Growth.

Lemma collected_once_capacity_inv : capacity_inv (cache Reference.collected_once).
Proof.
  unfold capacity_inv, CodeCacheSize, DataCacheSize.
  repeat split; vm_compute; congruence.
Defined.

Lemma two_methods_capacity_inv : capacity_inv (cache Reference.two_methods).
Proof.
  unfold capacity_inv, CodeCacheSize, DataCacheSize.
  repeat split; vm_compute; congruence.
Defined.

Lemma growth_cycle_skips_sweep_witness :
  idle Reference.collected_once
  /\ capacity_inv (cache Reference.collected_once)
  /\ exists s',
       GarbageCollectCache Reference.x86_64 [] Reference.collected_once = Returns tt s'
       /\ current_capacity_ (cache s') = 32768
       /\ mspace_footprint_limit (code_mspace_ (cache s')) = 16384
       /\ mspace_footprint_limit (data_mspace_ (cache s')) = 16384
       /\ method_code_map_ (cache s') = [(98480, 2)].
Proof.
  assert (Hidle : idle Reference.collected_once) by (vm_compute; reflexivity).
  split; [exact Hidle|]. split; [exact collected_once_capacity_inv|].
  destruct (growth_cycle_skips_sweep Reference.x86_64 Reference.collected_once [] Hidle
              collected_once_capacity_inv) as (s' & Hrun & Hlc & Hld & Hgrow & _).
  destruct Hgrow as (Hcur & Hcat & _); [vm_compute; reflexivity | vm_compute; reflexivity|].
  exists s'. split; [exact Hrun|].
  rewrite Hlc, Hld, Hcur, Hcat. repeat split; vm_compute; reflexivity.
Defined.

(** C2 as stated fails: in a fresh cache, below its maximum and under
    pressure (the code does not fit), the cycle [CommitCode] triggers sweeps
    the catalog and leaves the capacity where it was. *)
Lemma fresh_cache_sweeps_without_growing :
  has_done_one_collection_ (cache Reference.two_methods) = false
  /\ current_capacity_ (cache Reference.two_methods) = 16384
  /\ max_capacity_ (cache Reference.two_methods) = 65536
  /\ method_code_map_ (cache Reference.two_methods) = [(98336, 1); (98480, 2)]
  /\ exists s',
       CommitCode Reference.x86_64 [] (Reference.plain_code 3 10000) Reference.two_methods
       = Returns None s'
       /\ count_events is_collect (calls s')
          = S (count_events is_collect (calls Reference.two_methods))
       /\ current_capacity_ (cache s') = 16384
       /\ method_code_map_ (cache s') = [].
Proof.
  repeat split; try (vm_compute; reflexivity).
  eexists. split; [vm_compute; reflexivity|].
  repeat split; vm_compute; reflexivity.
Qed.

Lemma collects_before_growing_witness :
  idle Reference.two_methods
  /\ capacity_inv (cache Reference.two_methods)
  /\ exists s',
       GarbageCollectCache Reference.x86_64 Reference.second_running Reference.two_methods
       = Returns tt s'
       /\ current_capacity_ (cache s') = 16384
       /\ has_done_one_collection_ (cache s') = true.
Proof.
  assert (Hidle : idle Reference.two_methods) by (vm_compute; reflexivity).
  split; [exact Hidle|]. split; [exact two_methods_capacity_inv|].
  destruct (collects_before_growing Reference.x86_64 Reference.two_methods
              Reference.second_running Hidle two_methods_capacity_inv)
    as (s' & Hrun & Hcollect & _).
  destruct Hcollect as (Hcur & Hdone & _); [left; vm_compute; reflexivity|].
  exists s'. split; [exact Hrun|]. split; [rewrite Hcur; vm_compute; reflexivity | exact Hdone].
Defined.

Section Profiling.
Context `{!Mspace} (P : Platform).


End Profiling.


(** ** Allocation with one retry *)

Section Retry.
Context `{!Mspace} (P : Platform).

(** One attempt of [CommitCodeInternal] in an idle cache: one call of the
    allocator, and null exactly when that call fails. *)
Lemma CommitCodeInternal_run (a : CommitArgs) (s : State) :
  idle s ->
  exists res s',
    CommitCodeInternal P a s
    = Returns (option_map (fun p => header_address P (p + header_size P)) res) s'
    /\ calls s'
       = EvAlloc CodeSpace (size_t_wrap P (header_size P + arg_code_size a)) res :: calls s
    /\ idle s'
    /\ current_capacity_ (cache s') = current_capacity_ (cache s)
    /\ max_capacity_ (cache s') = max_capacity_ (cache s).
Proof.
  unfold idle. intros Hidle.
  unfold CommitCodeInternal, CommitCode_allocate, CommitCode_publish, mbind, M_bind.
  unfold bind at 1. unfold bind at 1.
  unfold WaitForPotentialCollectionToComplete. rewrite Hidle.
  unfold bind at 1. unfold memalign_code.
  destruct (mspace_memalign _ _ _) as [[p ms]|].
  - exists (Some p). unfold bind, modify, UpdateMethodsCode, modify, get, ret. simpl.
    rewrite Hidle. eexists. repeat split; try reflexivity. simpl. exact Hidle.
  - exists None. unfold ret. eexists. repeat split; try reflexivity. simpl. exact Hidle.
Qed.

(** A cycle started in an idle cache returns; it logs itself and frees. *)
Lemma GarbageCollectCache_run (stacks : list (list (option Z))) (s : State) :
  idle s ->
  exists s' frees,
    GarbageCollectCache P stacks s = Returns tt s'
    /\ calls s' = frees ++ EvCollect :: calls s
    /\ Forall is_free frees
    /\ idle s'
    /\ max_capacity_ (cache s') = max_capacity_ (cache s)
    /\ (current_capacity_ (cache s) = max_capacity_ (cache s) ->
        current_capacity_ (cache s') = current_capacity_ (cache s)).
Proof.
  intros Hidle. destruct (takes_growth_shortcut (cache s)) eqn:Hg.
  - exists (grown_state P s), []. split; [apply GarbageCollectCache_grows; assumption|].
    repeat split; try constructor.
    intros Heq. unfold takes_growth_shortcut in Hg.
    apply andb_true_iff in Hg as (_ & Hne). apply negb_true_iff, Z.eqb_neq in Hne. lia.
  - destruct (GarbageCollectCache_collects P s stacks Hidle Hg) as (cms & dms & Hrun).
    set (bm := marked_bitmap P (cache s) stacks).
    exists (collected_state P s stacks cms dms).
    exists (rev (map (EvFree DataSpace) (profiling_infos_ (cache s)))
            ++ sweep_events P bm (headers s) (method_code_map_ (cache s)) []).
    split; [exact Hrun|]. split.
    { unfold collected_state. simpl. fold bm. rewrite sweep_events_app.
      rewrite <- !app_assoc. reflexivity. }
    split.
    { apply List.Forall_forall. intros ev Hev. apply in_app_or in Hev as [Hev | Hev].
      - apply in_rev, in_map_iff in Hev as (p & <- & _). exists DataSpace, p. reflexivity.
      - eapply sweep_events_frees. exact Hev. }
    repeat split.
Qed.

Lemma count_events_frees (p : Event -> bool) (frees : list Event) :
  (forall sp q, p (EvFree sp q) = false) ->
  Forall is_free frees -> count_events p frees = 0%nat.
Proof.
  intros Hp Hfrees. unfold count_events.
  induction Hfrees as [|ev frees (sp & q & ->) _ IH]; simpl; [reflexivity|].
  rewrite Hp. exact IH.
Qed.

Lemma count_events_app (p : Event -> bool) (l1 l2 : list Event) :
  count_events p (l1 ++ l2) = (count_events p l1 + count_events p l2)%nat.
Proof. unfold count_events. rewrite List.filter_app, List.length_app. reflexivity. Qed.

Lemma retried_at_most_once_first sp n p (r : option Z) :
  r <> None -> retried_at_most_once sp [EvAlloc sp n (Some p)] r.
Proof.
  intros Hr. unfold retried_at_most_once, count_events. simpl.
  rewrite bool_decide_eq_true_2 by reflexivity. simpl.
  repeat split; [lia | lia |]. left. eauto.
Qed.

Lemma retried_at_most_once_second sp n res frees (r : option Z) :
  Forall is_free frees ->
  (r = None <-> res = None) ->
  retried_at_most_once sp (EvAlloc sp n res :: frees ++ [EvCollect; EvAlloc sp n None]) r.
Proof.
  intros Hfrees Hr. unfold retried_at_most_once.
  change (EvAlloc sp n res :: frees ++ [EvCollect; EvAlloc sp n None])
    with ([EvAlloc sp n res] ++ frees ++ [EvCollect; EvAlloc sp n None]).
  rewrite !count_events_app.
  rewrite !(count_events_frees _ frees) by (assumption || reflexivity).
  unfold count_events. simpl.
  rewrite bool_decide_eq_true_2 by reflexivity. simpl.
  repeat split; [lia | lia |]. right.
  exists n, res, frees. repeat split; try assumption; apply Hr.
Qed.

(** C3. [CommitCode] and [ReserveData] called on an idle cache return.  When
    the first allocation succeeds there is no collection and no retry; when it
    fails there is exactly one collection and exactly one retry, and the
    result is null exactly when the retry fails too.  A capacity that has
    reached the maximum stays there. *)
Theorem retry_terminates (s : State) (stacks : list (list (option Z)))
    (a : CommitArgs) (size : Z) :
  idle s ->
  (exists r s' evs,
     CommitCode P stacks a s = Returns r s'
     /\ calls s' = evs ++ calls s
     /\ retried_at_most_once CodeSpace evs r
     /\ (current_capacity_ (cache s) = max_capacity_ (cache s) ->
         current_capacity_ (cache s') = max_capacity_ (cache s')))
  /\ (exists r s' evs,
       ReserveData P stacks size s = Returns r s'
       /\ calls s' = evs ++ calls s
       /\ retried_at_most_once DataSpace evs r
       /\ (current_capacity_ (cache s) = max_capacity_ (cache s) ->
           current_capacity_ (cache s') = max_capacity_ (cache s'))).
Proof.
  intros Hidle. split.
  - unfold CommitCode, mbind, M_bind, bind.
    destruct (CommitCodeInternal_run a s Hidle)
      as (res1 & s1 & -> & Hc1 & Hidle1 & Hcur1 & Hmax1).
    destruct res1 as [p1|]; simpl.
    + eexists _, s1, [_]. split; [reflexivity|]. split; [exact Hc1|].
      split; [apply retried_at_most_once_first; discriminate | congruence].
    + destruct (GarbageCollectCache_run stacks s1 Hidle1)
        as (s2 & frees & -> & Hc2 & Hfrees & Hidle2 & Hmax2 & Hcur2).
      destruct (CommitCodeInternal_run a s2 Hidle2)
        as (res3 & s3 & -> & Hc3 & Hidle3 & Hcur3 & Hmax3).
      eexists _, s3, (_ :: frees ++ [EvCollect; _]). split; [reflexivity|]. split.
      { rewrite Hc3, Hc2, Hc1. simpl. rewrite <- app_assoc. reflexivity. }
      split.
      { apply retried_at_most_once_second; [exact Hfrees|].
        destruct res3; simpl; split; congruence. }
      intros Heq. rewrite Hcur3, Hmax3, Hmax2, Hcur2; congruence.
  - unfold ReserveData, mbind, M_bind. unfold bind at 1.
    unfold WaitForPotentialCollectionToComplete at 1. rewrite Hidle.
    unfold bind at 1. unfold malloc_data at 1.
    destruct (mspace_malloc _ _) as [[p1 ms1]|].
    + eexists _, _, [_]. split; [reflexivity|]. split; [reflexivity|].
      split; [apply retried_at_most_once_first; discriminate | intros Heq; exact Heq].
    + unfold bind at 1.
      match goal with |- context [GarbageCollectCache P stacks ?s1] =>
        destruct (GarbageCollectCache_run stacks s1 Hidle)
          as (s2 & frees & -> & Hc2 & Hfrees & Hidle2 & Hmax2 & Hcur2) end.
      simpl in Hc2, Hmax2, Hcur2.
      unfold bind at 1. unfold WaitForPotentialCollectionToComplete.
      unfold idle in Hidle2. rewrite Hidle2. unfold malloc_data.
      destruct (mspace_malloc (data_mspace_ (cache s2)) _) as [[p3 ms3]|].
      * eexists _, _, (_ :: frees ++ [EvCollect; _]). split; [reflexivity|]. split.
        { simpl. rewrite Hc2. simpl. rewrite <- app_assoc. reflexivity. }
        split.
        { apply retried_at_most_once_second; [exact Hfrees|]. split; discriminate. }
        simpl. intros Heq. rewrite Hmax2, (Hcur2 Heq). exact Heq.
      * eexists _, _, (_ :: frees ++ [EvCollect; _]). split; [reflexivity|]. split.
        { simpl. rewrite Hc2. simpl. rewrite <- app_assoc. reflexivity. }
        split.
        { apply retried_at_most_once_second; [exact Hfrees|]. split; reflexivity. }
        simpl. intros Heq. rewrite Hmax2, (Hcur2 Heq). exact Heq.
Qed.

End Retry.

Lemma retry_terminates_witness :
  idle (Reference.in_empty_memory Reference.full_cache)
  /\ (exists s',
        CommitCode Reference.x86_64 [] (Reference.plain_code 1 40000)
          (Reference.in_empty_memory Reference.full_cache) = Returns None s'
        /\ count_events is_collect (calls s') = 1%nat
        /\ count_events (is_alloc CodeSpace) (calls s') = 2%nat
        /\ current_capacity_ (cache s') = max_capacity_ (cache s'))
  /\ (exists s',
        ReserveData Reference.x86_64 [] 40000
          (Reference.in_empty_memory Reference.full_cache) = Returns None s'
        /\ count_events is_collect (calls s') = 1%nat
        /\ count_events (is_alloc DataSpace) (calls s') = 2%nat).
Proof.
  assert (Hidle : idle (Reference.in_empty_memory Reference.full_cache))
    by (vm_compute; reflexivity).
  split; [exact Hidle|].
  destruct (retry_terminates Reference.x86_64 _ [] (Reference.plain_code 1 40000) 40000 Hidle)
    as ((r1 & s1 & evs1 & Hrun1 & Hcalls1 & _ & Hcap1) & (r2 & s2 & evs2 & Hrun2 & _)).
  split.
  - exists s1.
    assert (Hr : r1 = None /\ count_events is_collect (calls s1) = 1%nat
                 /\ count_events (is_alloc CodeSpace) (calls s1) = 2%nat).
    { vm_compute in Hrun1. injection Hrun1 as <- <-. vm_compute. repeat split. }
    destruct Hr as (-> & Hn1 & Hn2).
    split; [exact Hrun1|]. split; [exact Hn1|]. split; [exact Hn2|].
    apply Hcap1. vm_compute. reflexivity.
  - exists s2.
    assert (Hr : r2 = None /\ count_events is_collect (calls s2) = 1%nat
                 /\ count_events (is_alloc DataSpace) (calls s2) = 2%nat).
    { vm_compute in Hrun2. injection Hrun2 as <- <-. vm_compute. repeat split. }
    destruct Hr as (-> & Hn1 & Hn2).
    split; [exact Hrun2|]. split; [exact Hn1 | exact Hn2].
Defined.

(** ** Profiling info is attached once *)

Section Attach.
Context `{!Mspace} (P : Platform).

Lemma AddProfilingInfoInternal_attached (s : State) (method : Z) (entries : list Z) info :
  idle s ->
  GetProfilingInfo (methods s !!! method) = Some info ->
  AddProfilingInfoInternal P method entries s = Returns (Some info) s.
Proof.
  unfold idle. intros Hidle Hinfo.
  unfold AddProfilingInfoInternal, mbind, M_bind, bind.
  unfold WaitForPotentialCollectionToComplete. rewrite Hidle.
  unfold get. rewrite Hinfo. reflexivity.
Qed.

(** An attempt that returns a record leaves it attached, in an idle cache;
    an attempt that returns null leaves the cache idle. *)
Lemma AddProfilingInfoInternal_returns (s s1 : State) (method : Z) (entries : list Z) r :
  idle s ->
  AddProfilingInfoInternal P method entries s = Returns r s1 ->
  idle s1 /\ (r <> None -> GetProfilingInfo (methods s1 !!! method) = r).
Proof.
  unfold idle. intros Hidle.
  unfold AddProfilingInfoInternal, mbind, M_bind, bind.
  unfold WaitForPotentialCollectionToComplete. rewrite Hidle.
  unfold get.
  destruct (GetProfilingInfo (methods s !!! method)) as [info|] eqn:Hinfo.
  - intros [= <- <-]. split; [exact Hidle | intros _; exact Hinfo].
  - unfold malloc_data.
    destruct (mspace_malloc _ _) as [[d ms]|].
    + unfold modify, method_SetProfilingInfo, modify, ret.
      intros [= <- <-]. split; [exact Hidle|]. intros _. simpl.
      rewrite lookup_total_insert_eq. reflexivity.
    + unfold ret. intros [= <- <-]. split; [exact Hidle | congruence].
Qed.

Lemma AddProfilingInfo_returns (s s1 : State) stacks (method : Z) (entries : list Z) retry info :
  idle s ->
  AddProfilingInfo P stacks method entries retry s = Returns (Some info) s1 ->
  idle s1 /\ GetProfilingInfo (methods s1 !!! method) = Some info.
Proof.
  intros Hidle. unfold AddProfilingInfo, mbind, M_bind. unfold bind at 1.
  destruct (AddProfilingInfoInternal P method entries s) as [r s0| |] eqn:Hfirst;
    try discriminate.
  destruct (AddProfilingInfoInternal_returns _ _ _ _ _ Hidle Hfirst) as (Hidle0 & Hr).
  destruct r as [info0|].
  - intros [= <- <-]. split; [exact Hidle0 | apply Hr; discriminate].
  - destruct retry; [|discriminate].
    unfold bind.
    destruct (GarbageCollectCache_run P stacks s0 Hidle0)
      as (s2 & frees & -> & _ & _ & Hidle2 & _).
    intros Hsecond.
    destruct (AddProfilingInfoInternal_returns _ _ _ _ _ Hidle2 Hsecond) as (Hidle1 & Hr1).
    split; [exact Hidle1 | apply Hr1; discriminate].
Qed.

(** The size [AddProfilingInfoInternal] asks the data region for. *)
Lemma AddProfilingInfoInternal_null (s s1 : State) (method : Z) (entries : list Z) :
  idle s ->
  AddProfilingInfoInternal P method entries s = Returns None s1 ->
  idle s1
  /\ GetProfilingInfo (methods s1 !!! method) = None
  /\ mspace_malloc (data_mspace_ (cache s1)) (profile_info_size P entries) = None.
Proof.
  unfold idle. intros Hidle.
  unfold AddProfilingInfoInternal, mbind, M_bind, bind.
  unfold WaitForPotentialCollectionToComplete. rewrite Hidle.
  unfold get.
  destruct (GetProfilingInfo (methods s !!! method)) as [info|] eqn:Hinfo; [discriminate|].
  unfold malloc_data. fold (profile_info_size P entries).
  destruct (mspace_malloc _ _) as [[d ms]|] eqn:Hmalloc; [discriminate|].
  unfold ret. intros [= <-]. simpl. repeat split; assumption.
Qed.

Lemma AddProfilingInfo_null (s s1 : State) stacks (method : Z) (entries : list Z) retry :
  idle s ->
  AddProfilingInfo P stacks method entries retry s = Returns None s1 ->
  idle s1
  /\ GetProfilingInfo (methods s1 !!! method) = None
  /\ mspace_malloc (data_mspace_ (cache s1)) (profile_info_size P entries) = None.
Proof.
  intros Hidle. unfold AddProfilingInfo, mbind, M_bind. unfold bind at 1.
  destruct (AddProfilingInfoInternal P method entries s) as [r s0| |] eqn:Hfirst;
    try discriminate.
  destruct r as [info0|]; [discriminate|].
  destruct (AddProfilingInfoInternal_null _ _ _ _ Hidle Hfirst) as (Hidle0 & Hnone & Hfail).
  destruct retry.
  - unfold bind.
    destruct (GarbageCollectCache_run P stacks s0 Hidle0)
      as (s2 & frees & -> & _ & _ & Hidle2 & _).
    intros Hsecond. eapply AddProfilingInfoInternal_null; eassumption.
  - intros [= <-]. repeat split; assumption.
Qed.

(** C7. [AddProfilingInfo] is idempotent for a method.  When the method has a
    profiling info attached, the call returns that info and leaves the state
    as it is: nothing is allocated, nothing collected.  So a call that
    returned an info, repeated at once, returns the same info; and a call that
    returned null, repeated at once for the same entries without a
    collection, returns null again. *)
Theorem attach_profiling_info_idempotent
    (s : State) (stacks : list (list (option Z))) (method : Z) (entries : list Z)
    (retry : bool) (info : Z) :
  idle s ->
  (GetProfilingInfo (methods s !!! method) = Some info ->
   AddProfilingInfo P stacks method entries retry s = Returns (Some info) s)
  /\ (forall s1 stacks' entries' retry',
        AddProfilingInfo P stacks method entries retry s = Returns (Some info) s1 ->
        AddProfilingInfo P stacks' method entries' retry' s1 = Returns (Some info) s1)
  /\ (forall s1 stacks',
        AddProfilingInfo P stacks method entries retry s = Returns None s1 ->
        exists s2,
          AddProfilingInfo P stacks' method entries false s1 = Returns None s2
          /\ cache s2 = cache s1 /\ methods s2 = methods s1).
Proof.
  intros Hidle.
  assert (Hattached : forall s0 stacks0 entries0 retry0,
    idle s0 -> GetProfilingInfo (methods s0 !!! method) = Some info ->
    AddProfilingInfo P stacks0 method entries0 retry0 s0 = Returns (Some info) s0).
  { intros s0 stacks0 entries0 retry0 Hidle0 Hinfo.
    unfold AddProfilingInfo, mbind, M_bind, bind.
    rewrite (AddProfilingInfoInternal_attached s0 method entries0 info) by assumption.
    reflexivity. }
  split; [|split].
  - apply Hattached. exact Hidle.
  - intros s1 stacks' entries' retry' Hfirst.
    destruct (AddProfilingInfo_returns _ _ _ _ _ _ _ Hidle Hfirst) as (Hidle1 & Hinfo1).
    apply Hattached; assumption.
  - intros s1 stacks' Hfirst.
    destruct (AddProfilingInfo_null _ _ _ _ _ _ Hidle Hfirst) as (Hidle1 & Hnone & Hfail).
    unfold AddProfilingInfo, AddProfilingInfoInternal, mbind, M_bind, bind.
    unfold WaitForPotentialCollectionToComplete. unfold idle in Hidle1. rewrite Hidle1.
    unfold get. rewrite Hnone. unfold malloc_data.
    fold (profile_info_size P entries). rewrite Hfail.
    eexists. split; [reflexivity|]. split; reflexivity.
Qed.

End Attach.

Lemma attach_profiling_info_idempotent_witness :
  idle Reference.two_methods
  /\ GetProfilingInfo (methods Reference.two_methods !!! 1) = Some 65576
  /\ AddProfilingInfo Reference.x86_64 [] 1 [9; 9] true Reference.two_methods
     = Returns (Some 65576) Reference.two_methods.
Proof.
  assert (Hidle : idle Reference.two_methods) by (vm_compute; reflexivity).
  assert (Hinfo : GetProfilingInfo (methods Reference.two_methods !!! 1) = Some 65576)
    by (vm_compute; reflexivity).
  split; [exact Hidle|]. split; [exact Hinfo|].
  exact (proj1 (attach_profiling_info_idempotent Reference.x86_64 Reference.two_methods
                  [] 1 [9; 9] true 65576 Hidle) Hinfo).
Defined.

(** ** Construction fails as a whole *)

Section Construction.
Context `{!Mspace} (P : Platform).
Context (MapAnonymous : string -> Z -> MemMap + string).
Context (RemapAtEnd : MemMap -> Z -> string -> (MemMap * MemMap) + string).
Context (PrettySize : Z -> string).

(** C9, as the code has it.  [Create] on a request with [initial_capacity]
    above [max_capacity] aborts at its [CHECK_GE], before any other test.  Otherwise a maximum
    above 1 GB yields no cache and the message that names the limit and the
    size asked for; a mapping that fails, be it the reserved region or its
    code half, yields no cache and the message that carries the error of the
    mapping and the size; no failure comes with an empty message, and none
    arises in another way; and a cache is only ever built when the maximum
    is within 1 GB and both mappings succeeded. *)
Theorem create_fails_without_cache (initial_capacity max_capacity : Z) :
  0 <= initial_capacity ->
  let result := Create P MapAnonymous RemapAtEnd PrettySize initial_capacity max_capacity in
  let divider data_map :=
    Begin data_map + RoundDown max_capacity (2 * kPageSize) / 2 in
  (max_capacity < initial_capacity -> result = CreateAborted)
  /\ (initial_capacity <= max_capacity -> GB < max_capacity ->
      result = CreateFailed ("Maxium code cache capacity is limited to 1 GB, "
                             +:+ PrettySize max_capacity +:+ " is too big"))
  /\ (forall error_str,
        initial_capacity <= max_capacity <= GB ->
        MapAnonymous "data-code-cache" max_capacity = inr error_str ->
        result = CreateFailed ("Failed to create read write execute cache: "
                               +:+ error_str +:+ " size=" +:+ pretty max_capacity))
  /\ (forall data_map error_str,
        initial_capacity <= max_capacity <= GB ->
        MapAnonymous "data-code-cache" max_capacity = inl data_map ->
        RemapAtEnd data_map (divider data_map) "jit-code-cache" = inr error_str ->
        result = CreateFailed
                   ("Failed to create read write execute cache: "
                    +:+ error_str +:+ " size="
                    +:+ pretty (RoundDown max_capacity (2 * kPageSize))))
  /\ (forall error_msg,
        result = CreateFailed error_msg ->
        error_msg <> ""
        /\ initial_capacity <= max_capacity
        /\ (GB < max_capacity
            \/ (exists error_str,
                  MapAnonymous "data-code-cache" max_capacity = inr error_str)
            \/ (exists data_map error_str,
                  MapAnonymous "data-code-cache" max_capacity = inl data_map
                  /\ RemapAtEnd data_map (divider data_map) "jit-code-cache"
                     = inr error_str)))
  /\ (forall c,
        result = Created c ->
        initial_capacity <= max_capacity <= GB
        /\ exists data_map code_map data_map',
             MapAnonymous "data-code-cache" max_capacity = inl data_map
             /\ RemapAtEnd data_map (divider data_map) "jit-code-cache"
                = inl (code_map, data_map')
             /\ code_map_ c = code_map /\ data_map_ c = data_map'
             /\ max_capacity_ c = RoundDown max_capacity (2 * kPageSize)
             /\ current_capacity_ c = RoundDown initial_capacity (2 * kPageSize)).
Proof.
  intros Hi result divider. subst result divider. unfold Create.
  change (1 * GB) with GB.
  split; [|split; [|split; [|split; [|split]]]].
  - intros Hlt. assert ((max_capacity <? initial_capacity) = true) as -> by lia.
    reflexivity.
  - intros Hle Hbig.
    assert ((max_capacity <? initial_capacity) = false) as -> by lia.
    assert ((max_capacity >? GB) = true) as -> by lia. reflexivity.
  - intros error_str Hle Hmap.
    assert ((max_capacity <? initial_capacity) = false) as -> by lia.
    assert ((max_capacity >? GB) = false) as -> by lia.
    rewrite Hmap. reflexivity.
  - intros data_map error_str Hle Hmap Hremap.
    assert ((max_capacity <? initial_capacity) = false) as -> by lia.
    assert ((max_capacity >? GB) = false) as -> by lia.
    rewrite Hmap, Hremap. reflexivity.
  - intros error_msg.
    destruct (max_capacity <? initial_capacity) eqn:Ecmp; [discriminate|].
    apply Z.ltb_ge in Ecmp.
    destruct (max_capacity >? GB) eqn:Egb.
    { intros [= <-]. split; [discriminate|]. split; [exact Ecmp|]. left. lia. }
    destruct (MapAnonymous _ _) as [data_map|error_str] eqn:Hmap.
    2: { intros [= <-]. split; [discriminate|]. split; [exact Ecmp|].
         right. left. exists error_str. reflexivity. }
    destruct (RemapAtEnd _ _ _) as [[code_map data_map']|error_str] eqn:Hremap.
    2: { intros [= <-]. split; [discriminate|]. split; [exact Ecmp|].
         right. right. exists data_map, error_str. split; [reflexivity | exact Hremap]. }
    destruct (JitCodeCache_new _ _ _ _ _ _); discriminate.
  - intros c.
    destruct (max_capacity <? initial_capacity) eqn:Ecmp; [discriminate|].
    apply Z.ltb_ge in Ecmp.
    destruct (max_capacity >? GB) eqn:Egb; [discriminate|].
    destruct (MapAnonymous _ _) as [data_map|]; [|discriminate].
    destruct (RemapAtEnd _ _ _) as [[code_map data_map']|] eqn:Hremap; [|discriminate].
    unfold JitCodeCache_new.
    destruct (create_mspace_with_base _ _) as [cms|]; [|discriminate].
    destruct (create_mspace_with_base (Begin data_map') _) as [dms|]; [|discriminate].
    intros [= <-]. split; [lia|]. exists data_map, code_map, data_map'.
    split; [reflexivity|]. split; [exact Hremap|]. simpl.
    split; [reflexivity|]. split; [reflexivity|]. split; [reflexivity|].
    pose proof (RoundDown_two_pages_bounds initial_capacity Hi) as Hri.
    set (i := RoundDown initial_capacity (2 * kPageSize)) in *.
    replace (i - i / 2 + i / 2) with i by lia.
    apply size_t_wrap_small.
    assert (GB = 1073741824) by reflexivity. lia.
Qed.

End Construction.

Lemma create_fails_without_cache_witness :
  0 <= 16384
  /\ @Create Reference.counting_mspace Reference.x86_64 Reference.map_anonymous
       Reference.remap_at_end Reference.pretty_size 16384 (2 * GB)
     = CreateFailed
         "Maxium code cache capacity is limited to 1 GB, 2147483648B is too big"
  /\ @Create Reference.counting_mspace Reference.x86_64 Reference.map_anonymous_fails
       Reference.remap_at_end Reference.pretty_size 16384 65536
     = CreateFailed "Failed to create read write execute cache: mmap failed size=65536".
Proof.
  assert (Hi : 0 <= 16384) by lia.
  split; [exact Hi|]. split.
  - apply (proj1 (proj2 (create_fails_without_cache Reference.x86_64
                           Reference.map_anonymous Reference.remap_at_end
                           Reference.pretty_size 16384 (2 * GB) Hi)));
      vm_compute; [discriminate | reflexivity].
  - apply (proj1 (proj2 (proj2 (create_fails_without_cache Reference.x86_64
                                  Reference.map_anonymous_fails Reference.remap_at_end
                                  Reference.pretty_size 16384 65536 Hi))) "mmap failed").
    + vm_compute. split; discriminate.
    + reflexivity.
Defined.

(** C9 as stated fails: on a request whose maximum is above 1 GB and below
    its initial capacity the [CHECK_GE] fires; no null and no message come
    back. *)
Lemma create_aborts_above_the_cap :
  GB < 2 * GB
  /\ @Create Reference.counting_mspace Reference.x86_64 Reference.map_anonymous
       Reference.remap_at_end Reference.pretty_size (3 * GB) (2 * GB)
     = CreateAborted
  /\ forall error_msg,
       @Create Reference.counting_mspace Reference.x86_64 Reference.map_anonymous
         Reference.remap_at_end Reference.pretty_size (3 * GB) (2 * GB)
       <> CreateFailed error_msg.
Proof.
  split; [reflexivity|]. split; [reflexivity|]. intros error_msg. discriminate.
Qed.

(** A reserved region that cannot be mapped. *)
Example create_map_fails :
  @Create Reference.counting_mspace Reference.x86_64 Reference.map_anonymous_fails
    Reference.remap_at_end Reference.pretty_size 16384 65536
  = CreateFailed "Failed to create read write execute cache: mmap failed size=65536".
Proof. vm_compute. reflexivity. Qed.

(** ** Lookup *)

Section Lookup.
Context `{!Mspace} (P : Platform).

(** In a sorted catalog, [lower_bound] followed by a decrement lands on the
    entry with the greatest start address strictly below the key; when no
    start address lies below the key there is nothing to decrement to. *)
Lemma lower_bound_spec (pc : Z) (cat : Catalog) :
  catalog_sorted cat ->
  match lower_bound pc cat with
  | O => forall e, In e cat -> pc <= fst e
  | S i =>
      exists code_ptr method,
        nth_error cat i = Some (code_ptr, method)
        /\ code_ptr < pc
        /\ forall e, In e cat -> fst e < pc -> fst e <= code_ptr
  end.
Proof.
  induction cat as [|[k v] t IH]; simpl; [intros _ e []|].
  intros (Hhead & Hsorted). specialize (IH Hsorted).
  destruct (k <? pc) eqn:Ek.
  - apply Z.ltb_lt in Ek. destruct (lower_bound pc t) as [|j].
    + exists k, v. split; [reflexivity|]. split; [exact Ek|].
      intros e [<- | Hin] Hlt; [simpl; lia|]. specialize (IH e Hin). lia.
    + destruct IH as (c & m & Hnth & Hlt & Hmax).
      exists c, m. split; [exact Hnth|]. split; [exact Hlt|].
      intros e [<- | Hin] He; [|auto].
      apply nth_error_In in Hnth. specialize (Hhead _ Hnth). simpl in *. lia.
  - apply Z.ltb_ge in Ek. intros e [<- | Hin]; [simpl; lia|].
    specialize (Hhead e Hin). lia.
Qed.

(** What [LookupMethodHeader] does in a sorted, non-empty catalog for a
    program counter of the code region: it resolves it with the entry of the
    greatest start address strictly below it, and has no defined result when
    there is none. *)
Lemma LookupMethodHeader_below (s : State) (pc : Z) :
  catalog_sorted (method_code_map_ (cache s)) ->
  method_code_map_ (cache s) <> [] ->
  ContainsPc (cache s) (lookup_pc P pc) = true ->
  (forall e, In e (method_code_map_ (cache s)) -> lookup_pc P pc <= fst e) /\
  LookupMethodHeader P pc s = Undefined
  \/ exists code_ptr method,
       In (code_ptr, method) (method_code_map_ (cache s))
       /\ code_ptr < lookup_pc P pc
       /\ (forall e, In e (method_code_map_ (cache s)) ->
             fst e < lookup_pc P pc -> fst e <= code_ptr)
       /\ LookupMethodHeader P pc s
          = Returns (if Contains (headers s !!! code_ptr) code_ptr (lookup_pc P pc)
                     then Some (header_address P code_ptr) else None) s.
Proof.
  intros Hsorted Hne Hin.
  unfold LookupMethodHeader, mbind, M_bind, bind, get, FromCodePointer.
  fold (lookup_pc P pc). rewrite Hin. change (negb true) with false. cbv iota.
  pose proof (lower_bound_spec (lookup_pc P pc) _ Hsorted) as Hlb.
  destruct (method_code_map_ (cache s)) as [|e0 cat] eqn:Hcat; [congruence|].
  destruct (lower_bound (lookup_pc P pc) (e0 :: cat)) as [|i].
  - left. split; [exact Hlb | reflexivity].
  - right. destruct Hlb as (c & m & Hnth & Hlt & Hmax).
    exists c, m. split; [eapply nth_error_In; exact Hnth|].
    split; [exact Hlt|]. split; [exact Hmax|].
    rewrite Hnth. cbv beta.
    destruct (Contains (headers s !!! c) c (lookup_pc P pc)); reflexivity.
Qed.

(** So a program counter that is the start address of an entry is never
    resolved to that entry. *)
Lemma LookupMethodHeader_at_start (s : State) (pc method : Z) :
  catalog_sorted (method_code_map_ (cache s)) ->
  ContainsPc (cache s) (lookup_pc P pc) = true ->
  In (lookup_pc P pc, method) (method_code_map_ (cache s)) ->
  LookupMethodHeader P pc s <> Returns (Some (header_address P (lookup_pc P pc))) s.
Proof.
  intros Hsorted Hin Hentry.
  destruct (LookupMethodHeader_below s pc Hsorted) as [(_ & ->) | Hfound];
    [intros E; rewrite E in Hentry; destruct Hentry | exact Hin | discriminate |].
  destruct Hfound as (c & m & _ & Hlt & _ & ->).
  destruct (Contains _ _ _); [|discriminate].
  intros [= E]. unfold header_address in E. lia.
Qed.

End Lookup.

(** C4 fails at the start address of an entry.  With entries at 98336 and
    98480, each 100 bytes long: a program counter inside the second entry is
    resolved to it, but its start address 98480 is looked up in the first
    entry and yields null, and the start address of the first entry
    decrements [begin()]. *)
Theorem lookup_misses_entry_start :
  method_code_map_ (cache Reference.two_methods) = [(98336, 1); (98480, 2)]
  /\ code_size_ (headers Reference.two_methods !!! 98480) = 100
  /\ ContainsPc (cache Reference.two_methods) 98480 = true
  /\ LookupMethodHeader Reference.x86_64 98481 Reference.two_methods
     = Returns (Some (header_address Reference.x86_64 98480)) Reference.two_methods
  /\ LookupMethodHeader Reference.x86_64 98480 Reference.two_methods
     = Returns None Reference.two_methods
  /\ LookupMethodHeader Reference.x86_64 98336 Reference.two_methods = Undefined.
Proof. repeat split; vm_compute; reflexivity. Qed.

(** ** Code committed while a collection is in progress *)

Section CommitDuringCollection.
Context `{!Mspace} (P : Platform).

Lemma AtomicTestAndSet_sets bm addr :
  0 < kJitCodeAlignment P -> cover_begin_ bm <= addr ->
  bitmap_Test P (snd (AtomicTestAndSet P bm addr)) addr = true.
Proof.
  intros Halign Hbegin. unfold AtomicTestAndSet, bitmap_Test, BitIndexFromAddr. simpl.
  set (i := (addr - cover_begin_ bm) / kJitCodeAlignment P).
  assert (Hi : 0 <= i) by (apply Z.div_pos; lia).
  rewrite Z.lor_spec, Z.shiftl_1_l, Z.pow2_bits_true by exact Hi.
  apply orb_true_r.
Qed.

Lemma AtomicTestAndSet_keeps bm addr addr' :
  bitmap_Test P bm addr = true ->
  bitmap_Test P (snd (AtomicTestAndSet P bm addr')) addr = true.
Proof.
  unfold AtomicTestAndSet, bitmap_Test, BitIndexFromAddr. simpl.
  intros Hset. rewrite Z.lor_spec, Hset. reflexivity.
Qed.

Lemma catalog_Put_keeps (k v : Z) (cat : Catalog) (e : Z * Z) :
  In e cat -> In e (catalog_Put k v cat).
Proof.
  induction cat as [|[k' v'] t IH]; simpl; [intros []|].
  intros Hin. destruct (k <? k'); [right; exact Hin|].
  destruct (k =? k'); [exact Hin|].
  destruct Hin as [<- | Hin]; [left; reflexivity | right; auto].
Qed.

Lemma catalog_Put_key (k v : Z) (cat : Catalog) :
  exists v', In (k, v') (catalog_Put k v cat).
Proof.
  induction cat as [|[k' v'] t IH]; simpl.
  - exists v. left. reflexivity.
  - destruct (k <? k'); [exists v; left; reflexivity|].
    destruct (k =? k') eqn:E.
    + apply Z.eqb_eq in E as ->. exists v'. left. reflexivity.
    + destruct IH as (v0 & Hin). exists v0. right. exact Hin.
Qed.

Lemma publish_keeps_marked_entry addr key method code_ptr (s s' : State) :
  marked_entry P addr key s ->
  CommitCode_publish P method code_ptr s = Returns tt s' ->
  marked_entry P addr key s'.
Proof.
  intros ((bm & Hbm & Hset) & (m & Hin)).
  unfold CommitCode_publish, mbind, M_bind, bind, modify, UpdateMethodsCode, modify, get.
  simpl. destruct (collection_in_progress_ (cache s)).
  - unfold live_bitmap_AtomicTestAndSet, mbind, M_bind, bind, GetLiveBitmap. simpl.
    rewrite Hbm. unfold modify. intros [= <-]. split; simpl.
    + eexists. split; [reflexivity|]. apply AtomicTestAndSet_keeps. exact Hset.
    + exists m. apply catalog_Put_keeps. exact Hin.
  - unfold ret. intros [= <-]. split; simpl.
    + exists bm. split; assumption.
    + exists m. apply catalog_Put_keeps. exact Hin.
Qed.

Lemma cycle_step_keeps_marked_entry addr key (s s' : State) :
  marked_entry P addr key s -> cycle_step P s s' -> marked_entry P addr key s'.
Proof.
  intros Hinv Hstep.
  destruct Hstep as [s s' Hrun | frame s s' Hrun | m c s s' Hrun | data s s' Hrun].
  - rewrite gc_reset_entry_points_run in Hrun. injection Hrun as <-. exact Hinv.
  - destruct Hinv as ((bm & Hbm & Hset) & Hin).
    rewrite (VisitFrame_run P s bm frame Hbm) in Hrun. injection Hrun as <-.
    split; [|exact Hin]. simpl. eexists. split; [reflexivity|].
    unfold mark_frame. destruct frame as [code|]; [|exact Hset].
    destruct (ContainsPc (cache s) code); [|exact Hset].
    apply AtomicTestAndSet_keeps. exact Hset.
  - eapply publish_keeps_marked_entry; eassumption.
  - unfold ClearData, free_data, mbind, M_bind, bind, modify, record, modify in Hrun.
    injection Hrun as <-. exact Hinv.
Qed.

Lemma cycle_steps_keep_marked_entry addr key (s s' : State) :
  cycle_steps P s s' -> marked_entry P addr key s -> marked_entry P addr key s'.
Proof.
  induction 1 as [|s s1 s2 Hstep _ IH]; intros Hinv; [exact Hinv|].
  apply IH. eapply cycle_step_keeps_marked_entry; eassumption.
Qed.

(** The sweep frees the code of unmarked entries only. *)
Lemma sweep_events_code bm hs (l : Catalog) (addr : Z) :
  In (EvFree CodeSpace addr) (sweep_events P bm hs l []) ->
  exists it, In it l /\ entry_live P bm (fst it) = false
             /\ addr = FromCodeToAllocation P (fst it).
Proof.
  assert (Hgen : forall evs,
    In (EvFree CodeSpace addr) (sweep_events P bm hs l evs) ->
    In (EvFree CodeSpace addr) evs
    \/ exists it, In it l /\ entry_live P bm (fst it) = false
                  /\ addr = FromCodeToAllocation P (fst it)).
  { unfold sweep_events. induction l as [|it l IH]; intros evs Hin; cbn [fold_left] in Hin.
    - left. exact Hin.
    - apply IH in Hin as [Hin | (it' & Hin' & Hdead & Heq)].
      + destruct (entry_live P bm (fst it)) eqn:Elive; [left; exact Hin|].
        rewrite in_app_iff in Hin. destruct Hin as [Hin | Hin]; [|left; exact Hin].
        right. exists it. split; [left; reflexivity|]. split; [exact Elive|].
        unfold FreeCode_events in Hin. rewrite !in_app_iff in Hin.
        destruct Hin as [Hin | [Hin | [Hin | Hin]]].
        * destruct Hin as [[= ->] | []]. reflexivity.
        * destruct (vmap_table_offset_ _ =? 0); [destruct Hin|].
          destruct Hin as [[=] | []].
        * destruct (mapping_table_offset_ _ =? 0); [destruct Hin|].
          destruct Hin as [[=] | []].
        * destruct (gc_map_offset_ _ =? 0); [destruct Hin|].
          destruct Hin as [[=] | []].
      + right. exists it'. split; [right; exact Hin' | split; assumption]. }
  intros Hin. apply Hgen in Hin as [[] | Hfound]. exact Hfound.
Qed.

(** Once the bitmap of the cycle is allocated: when [CommitCodeInternal]
    publishes an entry while the collection is in progress, the bit of the
    new allocation is set (the allocation lying in the range the bitmap
    covers); whatever the cycle still does before it sweeps, the sweep then
    keeps the entry in the catalog and does not free its code. *)
Theorem committed_during_collection_survives
    (s : State) (bm : CodeCacheBitmap) (method code_ptr : Z) :
  collection_in_progress_ (cache s) = true ->
  live_bitmap_ (cache s) = Some bm ->
  0 < kJitCodeAlignment P ->
  cover_begin_ bm <= FromCodeToAllocation P code_ptr ->
  exists s1,
    CommitCode_publish P method code_ptr s = Returns tt s1
    /\ (exists bm1, live_bitmap_ (cache s1) = Some bm1
                    /\ bitmap_Test P bm1 (FromCodeToAllocation P code_ptr) = true)
    /\ forall s2,
         cycle_steps P s1 s2 ->
         exists s3 evs,
           gc_sweep P s2 = Returns tt s3
           /\ calls s3 = evs ++ calls s2
           /\ (exists m, In (code_ptr, m) (method_code_map_ (cache s3)))
           /\ ~ In (EvFree CodeSpace (FromCodeToAllocation P code_ptr)) evs.
Proof.
  intros Hflag Hbm Halign Hbegin.
  assert (Hrun : CommitCode_publish P method code_ptr s
    = Returns tt
        (with_cache (set_live_bitmap_
           (Some (snd (AtomicTestAndSet P bm (FromCodeToAllocation P code_ptr)))))
           (with_methods (fun ms =>
              <[method := SetEntryPointFromQuickCompiledCode (GetEntryPoint code_ptr)
                            (ms !!! method)]> ms)
              (with_cache (fun c =>
                 set_method_code_map_ (catalog_Put code_ptr method (method_code_map_ c)) c)
                 s)))).
  { unfold CommitCode_publish, mbind, M_bind, bind, modify, UpdateMethodsCode, modify, get.
    simpl. rewrite Hflag.
    unfold live_bitmap_AtomicTestAndSet, mbind, M_bind, bind, GetLiveBitmap. simpl.
    rewrite Hbm. reflexivity. }
  eexists. split; [exact Hrun|].
  assert (Hmarked : marked_entry P (FromCodeToAllocation P code_ptr) code_ptr
    (with_cache (set_live_bitmap_
       (Some (snd (AtomicTestAndSet P bm (FromCodeToAllocation P code_ptr)))))
       (with_methods (fun ms =>
          <[method := SetEntryPointFromQuickCompiledCode (GetEntryPoint code_ptr)
                        (ms !!! method)]> ms)
          (with_cache (fun c =>
             set_method_code_map_ (catalog_Put code_ptr method (method_code_map_ c)) c)
             s)))).
  { split; simpl.
    - eexists. split; [reflexivity|]. apply AtomicTestAndSet_sets; assumption.
    - apply catalog_Put_key. }
  split; [exact (proj1 Hmarked)|].
  intros s2 Hsteps.
  destruct (cycle_steps_keep_marked_entry _ _ _ _ Hsteps Hmarked)
    as ((bm2 & Hbm2 & Hset) & (m & Hin)).
  destruct (gc_sweep_run P s2 bm2 Hbm2) as (cms & dms & Hsweep).
  eexists. exists (rev (map (EvFree DataSpace) (profiling_infos_ (cache s2)))
                   ++ sweep_events P bm2 (headers s2) (method_code_map_ (cache s2)) []).
  split; [exact Hsweep|]. split.
  { simpl. rewrite sweep_events_app, <- app_assoc. reflexivity. }
  split.
  - exists m. simpl. apply sweep_whole_catalog_In. split; [exact Hin | exact Hset].
  - rewrite in_app_iff. intros [Hfree | Hfree].
    + apply in_rev, in_map_iff in Hfree as (p & [=] & _).
    + apply sweep_events_code in Hfree as (it & _ & Hdead & Heq).
      unfold FromCodeToAllocation in Heq.
      assert (fst it = code_ptr) as E by lia. rewrite E in Hdead.
      unfold entry_live in Hdead. congruence.
Qed.

(** [GarbageCollectCache] is its first critical section followed by the
    others. *)
Lemma GarbageCollectCache_enter (stacks : list (list (option Z))) (s : State) :
  GarbageCollectCache P stacks s
  = (waited ← gc_enter;
     if (waited : bool) then ret tt
     else
       grown ← gc_grow_or_allocate_bitmap P;
       if (grown : bool) then ret tt
       else gc_reset_entry_points P;; RunCheckpoint P stacks;; gc_sweep P) s.
Proof.
  unfold GarbageCollectCache, gc_enter, mbind, M_bind, bind,
    WaitForPotentialCollectionToComplete.
  destruct (collection_in_progress_ (cache s)); reflexivity.
Qed.

(** The first critical section of a collection leaves the flag set and the
    bitmap as it was. *)
Lemma gc_enter_run (s : State) :
  idle s ->
  gc_enter s
  = Returns false
      (with_calls (cons EvCollect) (with_cache (set_collection_in_progress_ true) s)).
Proof.
  unfold idle. intros Hidle.
  unfold gc_enter, mbind, M_bind, bind, WaitForPotentialCollectionToComplete.
  rewrite Hidle. reflexivity.
Qed.

(** A publish that finds the flag set and no bitmap goes through the null
    [live_bitmap_]. *)
Lemma publish_without_bitmap (method code_ptr : Z) (s : State) :
  collection_in_progress_ (cache s) = true ->
  live_bitmap_ (cache s) = None ->
  CommitCode_publish P method code_ptr s = Undefined.
Proof.
  intros Hflag Hbm.
  unfold CommitCode_publish, mbind, M_bind, bind, modify, UpdateMethodsCode, modify, get.
  simpl. rewrite Hflag.
  unfold live_bitmap_AtomicTestAndSet, mbind, M_bind, bind, GetLiveBitmap. simpl.
  rewrite Hbm. reflexivity.
Qed.

(** The window between the first and the second critical section of a
    collection.  In a state with no collection in progress and no bitmap, as
    every state between two calls is: a commit that has allocated its code,
    overtaken by a collection that has only set the flag, dereferences null
    when it publishes. *)
Lemma publish_in_collection_window (a : CommitArgs) (code_ptr : Z) (s s1 : State) :
  idle s ->
  live_bitmap_ (cache s) = None ->
  CommitCode_allocate P a s = Returns (Some code_ptr) s1 ->
  exists s2,
    gc_enter s1 = Returns false s2
    /\ collection_in_progress_ (cache s2) = true
    /\ live_bitmap_ (cache s2) = None
    /\ CommitCode_publish P (arg_method a) code_ptr s2 = Undefined.
Proof.
  intros Hidle Hbm Halloc.
  assert (Hs1 : idle s1 /\ live_bitmap_ (cache s1) = None).
  { revert Halloc. unfold idle in *.
    unfold CommitCode_allocate, mbind, M_bind, bind, WaitForPotentialCollectionToComplete,
      memalign_code, modify, ret.
    rewrite Hidle.
    destruct (mspace_memalign _ _ _) as [[p ms]|]; [|discriminate].
    intros [= _ <-]. simpl. split; assumption. }
  destruct Hs1 as (Hidle1 & Hbm1).
  eexists. split; [apply gc_enter_run; exact Hidle1|].
  split; [reflexivity|]. split; [exact Hbm1|].
  apply publish_without_bitmap; [reflexivity | exact Hbm1].
Qed.

End CommitDuringCollection.

Lemma committed_during_collection_survives_witness :
  let s := scan_state Reference.x86_64 Reference.two_methods in
  collection_in_progress_ (cache s) = true
  /\ live_bitmap_ (cache s) = Some (bitmap_Create 98304 106496)
  /\ 0 < kJitCodeAlignment Reference.x86_64
  /\ cover_begin_ (bitmap_Create 98304 106496)
     <= FromCodeToAllocation Reference.x86_64 98624
  /\ exists s1 s3,
       CommitCode_publish Reference.x86_64 3 98624 s = Returns tt s1
       /\ gc_sweep Reference.x86_64 s1 = Returns tt s3
       /\ exists m, In (98624, m) (method_code_map_ (cache s3)).
Proof.
  intros s.
  assert (Hflag : collection_in_progress_ (cache s) = true) by (vm_compute; reflexivity).
  assert (Hbm : live_bitmap_ (cache s) = Some (bitmap_Create 98304 106496))
    by (vm_compute; reflexivity).
  assert (Halign : 0 < kJitCodeAlignment Reference.x86_64) by (vm_compute; reflexivity).
  assert (Hbegin : cover_begin_ (bitmap_Create 98304 106496)
                   <= FromCodeToAllocation Reference.x86_64 98624)
    by (vm_compute; congruence).
  repeat (split; [assumption|]).
  destruct (committed_during_collection_survives Reference.x86_64 s _ 3 98624
              Hflag Hbm Halign Hbegin) as (s1 & Hrun & _ & Hsurvives).
  destruct (Hsurvives s1 (cycle_done _ s1)) as (s3 & evs & Hsweep & _ & Hin & _).
  exists s1, s3. split; [exact Hrun|]. split; [exact Hsweep | exact Hin].
Defined.

(** Between the first critical section of [GarbageCollectCache], which sets
    the flag, and the second, which allocates the bitmap, a commit that
    publishes finds the flag set and no bitmap. *)
Example publish_before_bitmap :
  CommitCode_publish Reference.x86_64 3 98624
    (with_cache (set_collection_in_progress_ true) Reference.two_methods)
  = Undefined.
Proof. vm_compute. reflexivity. Qed.

Lemma reachable_two_methods : reachable Reference.x86_64 Reference.two_methods.
Proof.
  eapply reachable_step with (op := OpAddProfilingInfo [] 1 [7] false).
  - eapply reachable_step with (op := OpCommitCode [] (Reference.plain_code 2 100)).
    + eapply reachable_step
        with (op := OpCommitCode []
                      {| arg_method := 1; arg_mapping_table := None;
                         arg_vmap_table := Some 65536; arg_gc_map := None;
                         arg_frame_size_in_bytes := 64; arg_core_spill_mask := 0;
                         arg_fp_spill_mask := 0; arg_code_size := 100 |}).
      * eapply reachable_step with (op := OpReserveData [] 40).
        -- exact reachable_small_cache.
        -- vm_compute. reflexivity.
      * vm_compute. reflexivity.
    + vm_compute. reflexivity.
  - vm_compute. reflexivity.
Qed.

(** C10 fails between the first and the second critical section of a
    collection.  With two methods compiled and no collection running, one
    thread commits code for a third method and has allocated it, at 98624,
    when another thread starts a collection and sets the flag.  The commit
    then publishes: it finds [collection_in_progress_] set and
    [live_bitmap_] still null, and goes through the null pointer instead of
    setting the bit.  Had the collector already run its second critical
    section, which allocates the bitmap, the same publish would set the bit. *)
Theorem commit_between_flag_and_bitmap_dereferences_null :
  let s := Reference.two_methods in
  let s1 := Reference.after
              (CommitCode_allocate Reference.x86_64 (Reference.plain_code 3 100)) s in
  let s2 := Reference.after gc_enter s1 in
  let s3 := Reference.after (gc_grow_or_allocate_bitmap Reference.x86_64) s2 in
  reachable Reference.x86_64 s
  /\ CommitCode_allocate Reference.x86_64 (Reference.plain_code 3 100) s
     = Returns (Some 98624) s1
  /\ gc_enter s1 = Returns false s2
  /\ collection_in_progress_ (cache s2) = true
  /\ live_bitmap_ (cache s2) = None
  /\ CommitCode_publish Reference.x86_64 3 98624 s2 = Undefined
  /\ gc_grow_or_allocate_bitmap Reference.x86_64 s2 = Returns false s3
  /\ exists s4 bm,
       CommitCode_publish Reference.x86_64 3 98624 s3 = Returns tt s4
       /\ live_bitmap_ (cache s4) = Some bm
       /\ bitmap_Test Reference.x86_64 bm
            (FromCodeToAllocation Reference.x86_64 98624) = true.
Proof.
  intros s s1 s2 s3. split; [exact reachable_two_methods|].
  split; [vm_compute; reflexivity|]. split; [vm_compute; reflexivity|].
  split; [vm_compute; reflexivity|]. split; [vm_compute; reflexivity|].
  split.
  { apply publish_without_bitmap; vm_compute; reflexivity. }
  split; [vm_compute; reflexivity|].
  eexists _, _. split; [vm_compute; reflexivity|].
  split; vm_compute; reflexivity.
Qed.

(** ** The catalog stays sorted *)

Section CatalogInvariant.
Context `{!Mspace} (P : Platform).
Context (Q : Catalog -> Prop).
Context (Q_Put : forall k v cat, Q cat -> Q (catalog_Put k v cat)).
Context (Q_erase : forall k cat, Q cat -> Q (catalog_erase k cat)).

Let on_catalog (s : State) : Prop := Q (method_code_map_ (cache s)).

Lemma preserves_modify_catalog (f : State -> State) :
  (forall s, method_code_map_ (cache (f s)) = method_code_map_ (cache s)) ->
  preserves on_catalog (modify f).
Proof.
  intros Hf. apply preserves_modify. intros s. unfold on_catalog. rewrite Hf. auto.
Qed.

Lemma preserves_catalog_malloc_data n : preserves on_catalog (malloc_data n).
Proof.
  intros s a s' HI. unfold malloc_data.
  destruct (mspace_malloc _ _) as [[p ms]|]; intros [= _ <-]; exact HI.
Qed.

Lemma preserves_catalog_memalign_code a n : preserves on_catalog (memalign_code a n).
Proof.
  intros s r s' HI. unfold memalign_code.
  destruct (mspace_memalign _ _ _) as [[p ms]|]; intros [= _ <-]; exact HI.
Qed.

Lemma preserves_catalog_GetLiveBitmap : preserves on_catalog GetLiveBitmap.
Proof.
  intros s a s' HI. unfold GetLiveBitmap.
  destruct (live_bitmap_ (cache s)); [|discriminate]. intros [= _ <-]. exact HI.
Qed.

Lemma preserves_catalog_IncreaseCodeCacheCapacity :
  preserves on_catalog (IncreaseCodeCacheCapacity P).
Proof.
  intros s b s' HI. rewrite IncreaseCodeCacheCapacity_run.
  destruct (_ =? _); intros [= _ <-]; exact HI.
Qed.

Lemma preserves_catalog_Put k v :
  preserves on_catalog
    (modify (with_cache (fun c =>
       set_method_code_map_ (catalog_Put k v (method_code_map_ c)) c))).
Proof. apply preserves_modify. intros s. unfold on_catalog. simpl. apply Q_Put. Qed.

Lemma preserves_catalog_erase k :
  preserves on_catalog
    (modify (with_cache (fun c =>
       set_method_code_map_ (catalog_erase k (method_code_map_ c)) c))).
Proof. apply preserves_modify. intros s. unfold on_catalog. simpl. apply Q_erase. Qed.

Ltac pres_cat :=
  repeat first
    [ pres_step
    | apply preserves_catalog_Put
    | apply preserves_catalog_erase
    | apply preserves_catalog_malloc_data
    | apply preserves_catalog_memalign_code
    | apply preserves_catalog_GetLiveBitmap
    | apply preserves_catalog_IncreaseCodeCacheCapacity
    | (apply preserves_modify_catalog; reflexivity) ].

Lemma preserves_catalog_GarbageCollectCache stacks :
  preserves on_catalog (GarbageCollectCache P stacks).
Proof.
  unfold GarbageCollectCache, gc_grow_or_allocate_bitmap, allocate_live_bitmap,
    gc_reset_entry_points, RunCheckpoint, gc_sweep, NotifyCollectionDone, record,
    UpdateMethodsCode, method_SetProfilingInfo, free_data, record.
  pres_cat.
  - unfold VisitFrame, live_bitmap_AtomicTestAndSet. pres_cat.
  - unfold sweep_entry, FreeCode, free_data_if_present, free_data, free_code, record,
      UpdateMethodsCode, method_ClearCounter.
    pres_cat.
Qed.

Lemma preserves_catalog_run_op op : preserves on_catalog (run_op P op).
Proof.
  destruct op; unfold run_op, discard.
  - unfold CommitCode, CommitCodeInternal, CommitCode_allocate, CommitCode_publish,
      UpdateMethodsCode, live_bitmap_AtomicTestAndSet.
    pres_cat; apply preserves_catalog_GarbageCollectCache.
  - unfold ReserveData. pres_cat; apply preserves_catalog_GarbageCollectCache.
  - unfold ClearData, free_data, record. pres_cat.
  - apply preserves_catalog_GarbageCollectCache.
  - unfold LookupMethodHeader. pres_cat.
  - unfold AddProfilingInfo, AddProfilingInfoInternal, method_SetProfilingInfo.
    pres_cat; apply preserves_catalog_GarbageCollectCache.
  - unfold RemoveMethodsIn, FreeCode, free_data_if_present, free_data, free_code, record,
      method_SetProfilingInfo.
    pres_cat.
  - pres_cat.
Qed.

End CatalogInvariant.

Section CatalogSorted.
Context `{!Mspace} (P : Platform).

Lemma catalog_Put_In (k v : Z) (cat : Catalog) (e : Z * Z) :
  In e (catalog_Put k v cat) -> e = (k, v) \/ In e cat.
Proof.
  induction cat as [|[k' v'] t IH]; simpl.
  - intros [<- | []]. left. reflexivity.
  - destruct (k <? k'); [intros [<- | Hin]; [left; reflexivity | right; exact Hin]|].
    destruct (k =? k'); [intros Hin; right; exact Hin|].
    intros [<- | Hin]; [right; left; reflexivity|].
    destruct (IH Hin) as [-> | Hin']; [left; reflexivity | right; right; exact Hin'].
Qed.

Lemma catalog_Put_sorted (k v : Z) (cat : Catalog) :
  catalog_sorted cat -> catalog_sorted (catalog_Put k v cat).
Proof.
  induction cat as [|[k' v'] t IH]; simpl.
  - intros _. split; [intros e [] | exact I].
  - intros (Hhead & Hsorted). destruct (k <? k') eqn:Elt.
    + apply Z.ltb_lt in Elt. simpl. split; [|split; assumption].
      intros e [<- | Hin]; [exact Elt|]. specialize (Hhead e Hin). lia.
    + destruct (k =? k') eqn:Eeq; [simpl; split; assumption|].
      apply Z.ltb_ge in Elt. apply Z.eqb_neq in Eeq. simpl. split; [|auto].
      intros e Hin. apply catalog_Put_In in Hin as [-> | Hin]; [simpl; lia | auto].
Qed.

Lemma catalog_erase_sorted (k : Z) (cat : Catalog) :
  catalog_sorted cat -> catalog_sorted (catalog_erase k cat).
Proof.
  induction cat as [|[k' v'] t IH]; simpl; [auto|].
  intros (Hhead & Hsorted). destruct (negb (k' =? k)); simpl; [|auto].
  split; [|auto]. intros e Hin. apply catalog_erase_In in Hin as (Hin & _). auto.
Qed.

(** In a reachable state the catalog is sorted by start address, so no two
    entries claim the same start address. *)
Lemma reachable_catalog_sorted (s : State) :
  reachable P s -> catalog_sorted (method_code_map_ (cache s)).
Proof.
  induction 1 as [? ? ? ? ? c ms hs objs Hi Hc | s op s' Hr IH Hstep].
  - simpl. revert Hc. unfold Create.
    destruct (_ <? _); [discriminate|]. destruct (_ >? _); [discriminate|].
    destruct (MapAnonymous _ _); [|discriminate].
    destruct (RemapAtEnd _ _ _) as [[? ?]|]; [|discriminate].
    unfold JitCodeCache_new.
    destruct (create_mspace_with_base _ _); [|discriminate].
    destruct (create_mspace_with_base _ _); [|discriminate].
    intros [= <-]. exact I.
  - eapply (preserves_catalog_run_op P catalog_sorted catalog_Put_sorted catalog_erase_sorted);
      eassumption.
Qed.

Lemma catalog_sorted_unique (cat : Catalog) (k v v' : Z) :
  catalog_sorted cat -> In (k, v) cat -> In (k, v') cat -> v = v'.
Proof.
  induction cat as [|[k0 v0] t IH]; simpl; [intros _ []|].
  intros (Hhead & Hsorted) [E1 | H1] [E2 | H2].
  - congruence.
  - injection E1 as -> ->. specialize (Hhead _ H2). simpl in Hhead. lia.
  - injection E2 as -> ->. specialize (Hhead _ H1). simpl in Hhead. lia.
  - auto.
Qed.

End CatalogSorted.

(** ** Between two calls the cache is idle *)

Section Idle.
Context `{!Mspace} (P : Platform).

Lemma preserves_modify_idle (f : State -> State) :
  (forall s, collection_in_progress_ (cache (f s)) = collection_in_progress_ (cache s)) ->
  preserves idle (modify f).
Proof.
  intros Hf. apply preserves_modify. intros s. unfold idle. rewrite Hf. auto.
Qed.

Lemma preserves_idle_malloc_data n : preserves idle (malloc_data n).
Proof.
  intros s a s' HI. unfold malloc_data.
  destruct (mspace_malloc _ _) as [[p ms]|]; intros [= _ <-]; exact HI.
Qed.

Lemma preserves_idle_memalign_code a n : preserves idle (memalign_code a n).
Proof.
  intros s r s' HI. unfold memalign_code.
  destruct (mspace_memalign _ _ _) as [[p ms]|]; intros [= _ <-]; exact HI.
Qed.

Lemma preserves_idle_GetLiveBitmap : preserves idle GetLiveBitmap.
Proof.
  intros s a s' HI. unfold GetLiveBitmap.
  destruct (live_bitmap_ (cache s)); [|discriminate]. intros [= _ <-]. exact HI.
Qed.

Lemma preserves_idle_GarbageCollectCache stacks :
  preserves idle (GarbageCollectCache P stacks).
Proof.
  intros s a s' HI Hrun.
  destruct (GarbageCollectCache_run P stacks s HI) as (s1 & frees & Hrun1 & _ & _ & HI1 & _).
  congruence.
Qed.

Ltac pres_idle :=
  repeat first
    [ pres_step
    | apply preserves_idle_GarbageCollectCache
    | apply preserves_idle_malloc_data
    | apply preserves_idle_memalign_code
    | apply preserves_idle_GetLiveBitmap
    | (apply preserves_modify_idle; reflexivity) ].

Lemma preserves_idle_run_op op : preserves idle (run_op P op).
Proof.
  destruct op; unfold run_op, discard.
  - unfold CommitCode, CommitCodeInternal, CommitCode_allocate, CommitCode_publish,
      UpdateMethodsCode, live_bitmap_AtomicTestAndSet.
    pres_idle.
  - unfold ReserveData. pres_idle.
  - unfold ClearData, free_data, record. pres_idle.
  - pres_idle.
  - unfold LookupMethodHeader. pres_idle.
  - unfold AddProfilingInfo, AddProfilingInfoInternal, method_SetProfilingInfo.
    pres_idle.
  - unfold RemoveMethodsIn, FreeCode, free_data_if_present, free_data, free_code, record,
      method_SetProfilingInfo.
    pres_idle.
  - pres_idle.
Qed.

(** Every reachable state is idle: the hypotheses [idle] and [capacity_inv] of
    the theorems on the collector hold in all of them. *)
Lemma reachable_idle (s : State) : reachable P s -> idle s.
Proof.
  induction 1 as [? ? ? ? ? c ms hs objs Hi Hc | s op s' Hr IH Hstep].
  - unfold idle. simpl. revert Hc. unfold Create.
    destruct (_ <? _); [discriminate|]. destruct (_ >? _); [discriminate|].
    destruct (MapAnonymous _ _); [|discriminate].
    destruct (RemapAtEnd _ _ _) as [[? ?]|]; [|discriminate].
    unfold JitCodeCache_new.
    destruct (create_mspace_with_base _ _); [|discriminate].
    destruct (create_mspace_with_base _ _); [|discriminate].
    intros [= <-]. reflexivity.
  - eapply preserves_idle_run_op; eassumption.
Qed.

End Idle.

(** ** Unloading *)

Section UnloadingRun.
Context `{!Mspace} (P : Platform) (alloc : Z -> bool).

Lemma unload_entry_run (s : State) (it : Z * Z) :
  exists cms dms,
    (if alloc (snd it) then
       FreeCode P (fst it);;
       modify (with_cache (fun c =>
         set_method_code_map_ (catalog_erase (fst it) (method_code_map_ c)) c))
     else ret tt) s
    = Returns tt
        (rebuild s cms dms
           (if alloc (snd it) then catalog_erase (fst it) (method_code_map_ (cache s))
            else method_code_map_ (cache s))
           (methods s)
           (if alloc (snd it)
            then FreeCode_events P (headers s !!! fst it) (fst it) ++ calls s
            else calls s)).
Proof.
  destruct (alloc (snd it)).
  - unfold mbind, M_bind. unfold bind at 1.
    destruct (FreeCode_run P s (fst it)) as (cms & dms & ->).
    eexists cms, dms. reflexivity.
  - destruct s as [c ms hs objs evs]. destruct c. eexists _, _. reflexivity.
Qed.

Lemma unload_code_loop_run (l : Catalog) (s : State) :
  exists cms dms,
    for_each (fun it =>
      if alloc (snd it) then
        FreeCode P (fst it);;
        modify (with_cache (fun c =>
          set_method_code_map_ (catalog_erase (fst it) (method_code_map_ c)) c))
      else ret tt) l s
    = Returns tt
        (rebuild s cms dms
           (unload_catalog alloc l (method_code_map_ (cache s)))
           (methods s)
           (unload_events P alloc (headers s) l (calls s))).
Proof.
  match goal with |- context [for_each ?f _ _] => set (body := f) end.
  revert s. induction l as [|it l IH]; intros s.
  - destruct s as [c ms hs objs evs]. destruct c. eexists _, _. reflexivity.
  - simpl for_each. unfold mbind at 1. unfold M_bind at 1. unfold bind at 1.
    unfold body at 1.
    destruct (unload_entry_run s it) as (cms1 & dms1 & ->).
    match goal with |- context [for_each body l ?s1] =>
      destruct (IH s1) as (cms & dms & ->) end.
    eexists cms, dms. reflexivity.
Qed.

Lemma unload_info_loop_run (l : list Z) (s : State) :
  exists dms,
    for_each (fun info =>
      method ← get (fun s => method_ (infos s !!! info));
      if alloc method then
        method_SetProfilingInfo method None;;
        free_data info;;
        modify (with_cache (fun c =>
          set_profiling_infos_
            (List.filter (fun i => negb (i =? info)) (profiling_infos_ c)) c))
      else ret tt) l s
    = Returns tt
        {| cache :=
             set_profiling_infos_
               (unload_info_list alloc (infos s) l (profiling_infos_ (cache s)))
               (set_data_mspace_ dms (cache s));
           methods := unload_info_methods alloc (infos s) l (methods s);
           headers := headers s;
           infos := infos s;
           calls := unload_info_events alloc (infos s) l (calls s) |}.
Proof.
  match goal with |- context [for_each ?f _ _] => set (body := f) end.
  revert s. induction l as [|info l IH]; intros s.
  - destruct s as [c ms hs objs evs]. destruct c. eexists _. reflexivity.
  - simpl for_each. unfold mbind at 1. unfold M_bind at 1. unfold bind at 1.
    unfold body at 1. unfold mbind at 1. unfold M_bind at 1. unfold bind at 1.
    unfold get at 1.
    destruct (alloc (method_ (infos s !!! info))) eqn:Ea.
    + unfold mbind at 1. unfold M_bind at 1. unfold bind at 1.
      unfold method_SetProfilingInfo, modify at 1.
      unfold mbind at 1. unfold M_bind at 1. unfold bind at 1.
      unfold free_data at 1.
      unfold mbind at 1. unfold M_bind at 1. unfold bind at 1.
      unfold modify at 1. unfold record, modify at 1. unfold modify at 1.
      match goal with |- context [for_each body l ?s1] =>
        destruct (IH s1) as (dms & ->) end.
      eexists dms.
      unfold unload_info_list, unload_info_methods, unload_info_events, unloaded_info.
      cbn [fold_left]. rewrite Ea. reflexivity.
    + unfold ret at 1.
      destruct (IH s) as (dms & ->).
      eexists dms.
      unfold unload_info_list, unload_info_methods, unload_info_events, unloaded_info.
      cbn [fold_left]. rewrite Ea. reflexivity.
Qed.

(** [RemoveMethodsIn] in one equation.  It returns in every state: it does
    not wait for a collection and does not look at the bitmap. *)
Lemma RemoveMethodsIn_run (s : State) :
  exists cms dms,
    RemoveMethodsIn P alloc s = Returns tt (unloaded_state P alloc s cms dms).
Proof.
  unfold RemoveMethodsIn, mbind, M_bind. unfold bind at 1. unfold get at 1.
  unfold bind at 1.
  destruct (unload_code_loop_run (method_code_map_ (cache s)) s) as (cms & dms1 & E).
  unfold mbind, M_bind in E. rewrite E. clear E.
  unfold bind at 1. unfold get at 1.
  match goal with |- context [for_each _ ?l ?s1] =>
    destruct (unload_info_loop_run l s1) as (dms & E) end.
  unfold mbind, M_bind in E. rewrite E. clear E.
  eexists cms, dms. destruct s as [c ms hs objs evs]. destruct c. reflexivity.
Qed.

End UnloadingRun.

Section FreeCodeEvents.
Context `{!Mspace} (P : Platform).

Lemma FreeCode_events_In h code_ptr (ev : Event) :
  In ev (FreeCode_events P h code_ptr) <->
  ev = EvFree CodeSpace (FromCodeToAllocation P code_ptr)
  \/ (vmap_table_offset_ h <> 0 /\ ev = EvFree DataSpace (code_ptr - vmap_table_offset_ h))
  \/ (mapping_table_offset_ h <> 0
      /\ ev = EvFree DataSpace (code_ptr - mapping_table_offset_ h))
  \/ (gc_map_offset_ h <> 0 /\ ev = EvFree DataSpace (code_ptr - gc_map_offset_ h)).
Proof.
  unfold FreeCode_events. rewrite !in_app_iff.
  destruct (Z.eqb_spec (vmap_table_offset_ h) 0) as [-> | Hv];
    destruct (Z.eqb_spec (mapping_table_offset_ h) 0) as [-> | Hm];
    destruct (Z.eqb_spec (gc_map_offset_ h) 0) as [-> | Hg];
    simpl; intuition congruence.
Qed.

Lemma FreeCode_events_free h code_ptr : Forall is_free (FreeCode_events P h code_ptr).
Proof.
  apply List.Forall_forall. intros ev Hin. apply FreeCode_events_In in Hin.
  unfold is_free. destruct Hin as [-> | [(_ & ->) | [(_ & ->) | (_ & ->)]]]; eauto.
Qed.

End FreeCodeEvents.

Section UnloadingFolds.
Context `{!Mspace} (P : Platform) (alloc : Z -> bool).

Lemma unload_catalog_In (l cat : Catalog) (e : Z * Z) :
  In e (unload_catalog alloc l cat) <->
  In e cat /\ forall it, In it l -> fst it = fst e -> alloc (snd it) = false.
Proof.
  unfold unload_catalog. revert cat.
  induction l as [|it l IH]; intros cat; simpl.
  - split; [intros H0; split; [exact H0 | intros ? []] | tauto].
  - rewrite IH. destruct (alloc (snd it)) eqn:Ea.
    + rewrite catalog_erase_In. split.
      * intros ((Hin & Hne) & Hall). split; [exact Hin|].
        intros it' [<- | Hin'] Heq; [congruence | auto].
      * intros (Hin & Hall). repeat split; [exact Hin | | auto].
        intros Heq. specialize (Hall it (or_introl eq_refl) (eq_sym Heq)). congruence.
    + split.
      * intros (Hin & Hall). split; [exact Hin|].
        intros it' [<- | Hin'] Heq; [exact Ea | auto].
      * intros (Hin & Hall). split; [exact Hin | auto].
Qed.

(** From a catalog without duplicate start addresses, unloading removes
    exactly the entries of the unloaded methods. *)
Lemma unload_whole_catalog_In (cat : Catalog) (e : Z * Z) :
  catalog_sorted cat ->
  (In e (unload_catalog alloc cat cat) <-> In e cat /\ alloc (snd e) = false).
Proof.
  intros Hsorted. rewrite unload_catalog_In. split.
  - intros (Hin & Hall). split; [exact Hin | exact (Hall e Hin eq_refl)].
  - intros (Hin & Ha). split; [exact Hin|]. intros [k v] Hin' Heq.
    destruct e as [k' v']. simpl in *. subst k'.
    rewrite (catalog_sorted_unique cat k v v' Hsorted Hin' Hin). exact Ha.
Qed.

Lemma unload_events_In hs (l : Catalog) (evs : list Event) (ev : Event) :
  In ev (unload_events P alloc hs l evs) <->
  In ev evs
  \/ exists it, In it l /\ alloc (snd it) = true
                /\ In ev (FreeCode_events P (hs !!! fst it) (fst it)).
Proof.
  unfold unload_events. revert evs.
  induction l as [|it l IH]; intros evs; cbn [fold_left].
  - split; [auto | intros [Hin | (it & [] & _)]; exact Hin].
  - rewrite IH. destruct (alloc (snd it)) eqn:Ea.
    + rewrite in_app_iff. split.
      * intros [[Hev | Hin] | (it' & Hin' & Ha & Hev)].
        -- right. exists it. split; [left; reflexivity | split; assumption].
        -- left. exact Hin.
        -- right. exists it'. split; [right; exact Hin' | split; assumption].
      * intros [Hin | (it' & [<- | Hin'] & Ha & Hev)].
        -- left. right. exact Hin.
        -- left. left. exact Hev.
        -- right. exists it'. split; [exact Hin' | split; assumption].
    + split.
      * intros [Hin | (it' & Hin' & Ha & Hev)]; [left; exact Hin|].
        right. exists it'. split; [right; exact Hin' | split; assumption].
      * intros [Hin | (it' & [<- | Hin'] & Ha & Hev)]; [left; exact Hin | congruence |].
        right. exists it'. split; [exact Hin' | split; assumption].
Qed.

Lemma unload_events_app hs (l : Catalog) (evs : list Event) :
  unload_events P alloc hs l evs = unload_events P alloc hs l [] ++ evs.
Proof.
  unfold unload_events. revert evs. induction l as [|it l IH]; intros evs; cbn [fold_left].
  - reflexivity.
  - destruct (alloc (snd it)).
    + rewrite IH. rewrite (IH (_ ++ [])).
      rewrite app_nil_r, <- app_assoc. reflexivity.
    + apply IH.
Qed.

Lemma unload_events_free hs (l : Catalog) (evs : list Event) :
  Forall is_free evs -> Forall is_free (unload_events P alloc hs l evs).
Proof.
  unfold unload_events. revert evs. induction l as [|it l IH]; intros evs Hevs; cbn [fold_left].
  - exact Hevs.
  - apply IH. destruct (alloc (snd it)); [|exact Hevs].
    apply Forall_app. split; [apply FreeCode_events_free | exact Hevs].
Qed.

Lemma unload_info_list_In objs (l pis : list Z) (i : Z) :
  In i (unload_info_list alloc objs l pis) <->
  In i pis /\ forall info, In info l -> info = i -> unloaded_info alloc objs info = false.
Proof.
  unfold unload_info_list. revert pis.
  induction l as [|info l IH]; intros pis; cbn [fold_left].
  - split; [intros H0; split; [exact H0 | intros ? []] | tauto].
  - rewrite IH. destruct (unloaded_info alloc objs info) eqn:Eu.
    + rewrite filter_In, negb_true_iff, Z.eqb_neq. split.
      * intros ((Hin & Hne) & Hall). split; [exact Hin|].
        intros info' [<- | Hin'] Heq; [congruence | auto].
      * intros (Hin & Hall). split; [split; [exact Hin|] |].
        -- intros Heq. specialize (Hall info (or_introl eq_refl) (eq_sym Heq)). congruence.
        -- intros info' Hin' Heq. apply (Hall info'); [right; exact Hin' | exact Heq].
    + split.
      * intros (Hin & Hall). split; [exact Hin|].
        intros info' [<- | Hin'] Heq; [exact Eu | auto].
      * intros (Hin & Hall). split; [exact Hin|].
        intros info' Hin' Heq. apply (Hall info'); [right; exact Hin' | exact Heq].
Qed.

Lemma unload_whole_info_list_In objs (pis : list Z) (i : Z) :
  In i (unload_info_list alloc objs pis pis) <->
  In i pis /\ unloaded_info alloc objs i = false.
Proof.
  rewrite unload_info_list_In. split.
  - intros (Hin & Hall). split; [exact Hin | exact (Hall i Hin eq_refl)].
  - intros (Hin & Hu). split; [exact Hin|]. intros info _ ->. exact Hu.
Qed.

Lemma unload_info_events_In objs (l : list Z) (evs : list Event) (ev : Event) :
  In ev (unload_info_events alloc objs l evs) <->
  In ev evs
  \/ exists info, In info l /\ unloaded_info alloc objs info = true
                  /\ ev = EvFree DataSpace info.
Proof.
  unfold unload_info_events. revert evs.
  induction l as [|info l IH]; intros evs; cbn [fold_left].
  - split; [auto | intros [Hin | (info & [] & _)]; exact Hin].
  - rewrite IH. destruct (unloaded_info alloc objs info) eqn:Eu.
    + simpl. split.
      * intros [[Hev | Hin] | (info' & Hin' & Hu & Hev)].
        -- right. exists info. split; [left; reflexivity | split; [exact Eu | auto]].
        -- left. exact Hin.
        -- right. exists info'. split; [right; exact Hin' | split; assumption].
      * intros [Hin | (info' & [<- | Hin'] & Hu & Hev)].
        -- left. right. exact Hin.
        -- left. left. auto.
        -- right. exists info'. split; [exact Hin' | split; assumption].
    + split.
      * intros [Hin | (info' & Hin' & Hu & Hev)]; [left; exact Hin|].
        right. exists info'. split; [right; exact Hin' | split; assumption].
      * intros [Hin | (info' & [<- | Hin'] & Hu & Hev)]; [left; exact Hin | congruence |].
        right. exists info'. split; [exact Hin' | split; assumption].
Qed.

Lemma unload_info_events_app objs (l : list Z) (evs : list Event) :
  unload_info_events alloc objs l evs = unload_info_events alloc objs l [] ++ evs.
Proof.
  unfold unload_info_events. revert evs.
  induction l as [|info l IH]; intros evs; cbn [fold_left].
  - reflexivity.
  - destruct (unloaded_info alloc objs info).
    + rewrite IH. rewrite (IH [_]). rewrite <- app_assoc. reflexivity.
    + apply IH.
Qed.

Lemma unload_info_events_free objs (l : list Z) (evs : list Event) :
  Forall is_free evs -> Forall is_free (unload_info_events alloc objs l evs).
Proof.
  unfold unload_info_events. revert evs.
  induction l as [|info l IH]; intros evs Hevs; cbn [fold_left].
  - exact Hevs.
  - apply IH. destruct (unloaded_info alloc objs info); [|exact Hevs].
    constructor; [|exact Hevs]. unfold is_free. eauto.
Qed.

(** Detaching touches the profiling-info slot of the method only. *)
Lemma detach_info_counter objs (ms : gmap Z ArtMethod) (info m : Z) :
  hotness_count_ (detach_info objs ms info !!! m) = hotness_count_ (ms !!! m).
Proof.
  unfold detach_info.
  destruct (decide (method_ (objs !!! info) = m)) as [-> | Hne].
  - rewrite lookup_total_insert_eq. reflexivity.
  - rewrite lookup_total_insert_ne by exact Hne. reflexivity.
Qed.

Lemma unload_info_methods_entry objs (l : list Z) (ms : gmap Z ArtMethod) (m : Z) :
  entry_point_from_quick_compiled_code_ (unload_info_methods alloc objs l ms !!! m)
  = entry_point_from_quick_compiled_code_ (ms !!! m)
  /\ hotness_count_ (unload_info_methods alloc objs l ms !!! m) = hotness_count_ (ms !!! m).
Proof.
  unfold unload_info_methods. revert ms.
  induction l as [|info l IH]; intros ms; cbn [fold_left]; [split; reflexivity|].
  destruct (IH (if unloaded_info alloc objs info then detach_info objs ms info else ms))
    as (-> & ->).
  destruct (unloaded_info alloc objs info); [|split; reflexivity].
  split; [apply detach_info_entry | apply detach_info_counter].
Qed.

Lemma unload_info_methods_other objs (l : list Z) (ms : gmap Z ArtMethod) (m : Z) :
  alloc m = false -> unload_info_methods alloc objs l ms !!! m = ms !!! m.
Proof.
  intros Ha. unfold unload_info_methods. revert ms.
  induction l as [|info l IH]; intros ms; cbn [fold_left]; [reflexivity|].
  rewrite IH. unfold unloaded_info.
  destruct (alloc (method_ (objs !!! info))) eqn:Ea; [|reflexivity].
  unfold detach_info. rewrite lookup_total_insert_ne by congruence. reflexivity.
Qed.

Lemma unload_info_methods_stays objs (l : list Z) (ms : gmap Z ArtMethod) (m : Z) :
  GetProfilingInfo (ms !!! m) = None ->
  GetProfilingInfo (unload_info_methods alloc objs l ms !!! m) = None.
Proof.
  unfold unload_info_methods. revert ms.
  induction l as [|info l IH]; intros ms Hnone; cbn [fold_left]; [exact Hnone|].
  apply IH. destruct (unloaded_info alloc objs info); [|exact Hnone].
  unfold detach_info.
  destruct (decide (method_ (objs !!! info) = m)) as [-> | Hne].
  - rewrite lookup_total_insert_eq. reflexivity.
  - rewrite lookup_total_insert_ne by exact Hne. exact Hnone.
Qed.

Lemma unload_info_methods_detached objs (l : list Z) (ms : gmap Z ArtMethod) (info : Z) :
  In info l -> unloaded_info alloc objs info = true ->
  GetProfilingInfo (unload_info_methods alloc objs l ms !!! method_ (objs !!! info)) = None.
Proof.
  revert ms. induction l as [|info' l IH]; intros ms [] Hu.
  - subst info'. unfold unload_info_methods. cbn [fold_left]. rewrite Hu.
    apply unload_info_methods_stays. unfold detach_info.
    rewrite lookup_total_insert_eq. reflexivity.
  - unfold unload_info_methods. cbn [fold_left]. apply IH; assumption.
Qed.

Lemma ContainsMethod_loop_spec (method : Z) (l : Catalog) :
  ContainsMethod_loop method l = true <-> exists code_ptr, In (code_ptr, method) l.
Proof.
  induction l as [|[k v] l IH]; simpl.
  - split; [discriminate | intros (? & [])].
  - destruct (Z.eqb_spec v method) as [-> | Hne].
    + split; [intros _; exists k; left; reflexivity | reflexivity].
    + rewrite IH. split.
      * intros (c & Hin). exists c. right. exact Hin.
      * intros (c & [[= _ E] | Hin]); [congruence | exists c; exact Hin].
Qed.

End UnloadingFolds.

Section Unload.
Context `{!Mspace} (P : Platform) (alloc : Z -> bool).

(** X1. [RemoveMethodsIn] on a catalog without duplicate start addresses:
    exactly the entries of the methods in the unloaded allocator leave the
    catalog, so that [ContainsMethod] is false for each of these methods
    afterwards; the code of each removed entry and each of its tables with a
    non-zero offset is freed; the only calls made are frees, and code is
    freed for removed entries only. *)
Theorem unloading_removes_compiled_code (s : State) :
  catalog_sorted (method_code_map_ (cache s)) ->
  exists s' evs,
    RemoveMethodsIn P alloc s = Returns tt s'
    /\ calls s' = evs ++ calls s
    /\ Forall is_free evs
    /\ (forall e, In e (method_code_map_ (cache s')) <->
                  In e (method_code_map_ (cache s)) /\ alloc (snd e) = false)
    /\ (forall method, alloc method = true ->
          ContainsMethod method s' = Returns false s')
    /\ (forall code_ptr method,
          In (code_ptr, method) (method_code_map_ (cache s)) ->
          alloc method = true ->
          forall ev, In ev (FreeCode_events P (headers s !!! code_ptr) code_ptr) ->
                     In ev evs)
    /\ (forall addr,
          In (EvFree CodeSpace addr) evs ->
          exists code_ptr method,
            In (code_ptr, method) (method_code_map_ (cache s))
            /\ alloc method = true /\ addr = FromCodeToAllocation P code_ptr).
Proof.
  intros Hsorted.
  destruct (RemoveMethodsIn_run P alloc s) as (cms & dms & Hrun).
  exists (unloaded_state P alloc s cms dms),
    (unload_info_events alloc (infos s) (profiling_infos_ (cache s))
       (unload_events P alloc (headers s) (method_code_map_ (cache s)) [])).
  split; [exact Hrun|].
  assert (Hcat : forall e,
    In e (method_code_map_ (cache (unloaded_state P alloc s cms dms))) <->
    In e (method_code_map_ (cache s)) /\ alloc (snd e) = false).
  { intros e. simpl. apply unload_whole_catalog_In. exact Hsorted. }
  split; [|split; [|split; [|split; [|split]]]].
  - simpl. rewrite (unload_events_app P alloc _ _ (calls s)).
    rewrite (unload_info_events_app alloc _ _ (_ ++ calls s)).
    rewrite (unload_info_events_app alloc _ _ (unload_events _ _ _ _ [])).
    rewrite app_assoc. reflexivity.
  - apply unload_info_events_free. apply unload_events_free. constructor.
  - exact Hcat.
  - intros method Ha. unfold ContainsMethod, mbind, M_bind, bind, get, ret.
    destruct (ContainsMethod_loop method _) eqn:E; [|reflexivity].
    apply ContainsMethod_loop_spec in E as (code_ptr & Hin).
    apply Hcat in Hin as (_ & Hna). simpl in Hna. congruence.
  - intros code_ptr method Hin Ha ev Hev.
    apply unload_info_events_In. left. apply unload_events_In. right.
    exists (code_ptr, method). auto.
  - intros addr Hin.
    apply unload_info_events_In in Hin as [Hin | (info & _ & _ & [=])].
    apply unload_events_In in Hin as [[] | ([k v] & Hin & Ha & Hev)].
    apply FreeCode_events_In in Hev as [Hev | [(_ & [=]) | [(_ & [=]) | (_ & [=])]]].
    injection Hev as ->. exists k, v. auto.
Qed.

(** X2. [RemoveMethodsIn] and the profiling infos: exactly the infos of the
    methods in the unloaded allocator leave [profiling_infos_]; each of them
    is freed and its method no longer points to it; a method outside the
    allocator is left as it was. *)
Theorem unloading_removes_profiling_info (s : State) :
  exists s' evs,
    RemoveMethodsIn P alloc s = Returns tt s'
    /\ calls s' = evs ++ calls s
    /\ (forall info,
          In info (profiling_infos_ (cache s')) <->
          In info (profiling_infos_ (cache s))
          /\ alloc (method_ (infos s !!! info)) = false)
    /\ (forall info,
          In info (profiling_infos_ (cache s)) ->
          alloc (method_ (infos s !!! info)) = true ->
          In (EvFree DataSpace info) evs
          /\ GetProfilingInfo (methods s' !!! method_ (infos s !!! info)) = None)
    /\ (forall method, alloc method = false -> methods s' !!! method = methods s !!! method).
Proof.
  destruct (RemoveMethodsIn_run P alloc s) as (cms & dms & Hrun).
  exists (unloaded_state P alloc s cms dms),
    (unload_info_events alloc (infos s) (profiling_infos_ (cache s))
       (unload_events P alloc (headers s) (method_code_map_ (cache s)) [])).
  split; [exact Hrun|].
  split; [|split; [|split]].
  - simpl. rewrite (unload_events_app P alloc _ _ (calls s)).
    rewrite (unload_info_events_app alloc _ _ (_ ++ calls s)).
    rewrite (unload_info_events_app alloc _ _ (unload_events _ _ _ _ [])).
    rewrite app_assoc. reflexivity.
  - intros info. simpl. apply unload_whole_info_list_In.
  - intros info Hin Ha. split.
    + apply unload_info_events_In. right. exists info. auto.
    + simpl. apply unload_info_methods_detached; assumption.
  - intros method Ha. simpl. apply unload_info_methods_other. exact Ha.
Qed.

(** X3. What [RemoveMethodsIn] leaves alone.  It returns in every state,
    also while a collection is in progress (it does not wait for it), and it
    touches neither the flag, the live bitmap nor the capacities; and it
    resets no entry point and no counter: a method whose code it frees keeps
    the entry point it had. *)
Theorem unloading_leaves_collection_and_entry_points (s : State) :
  exists s',
    RemoveMethodsIn P alloc s = Returns tt s'
    /\ collection_in_progress_ (cache s') = collection_in_progress_ (cache s)
    /\ live_bitmap_ (cache s') = live_bitmap_ (cache s)
    /\ has_done_one_collection_ (cache s') = has_done_one_collection_ (cache s)
    /\ current_capacity_ (cache s') = current_capacity_ (cache s)
    /\ max_capacity_ (cache s') = max_capacity_ (cache s)
    /\ forall method,
         entry_point_from_quick_compiled_code_ (methods s' !!! method)
         = entry_point_from_quick_compiled_code_ (methods s !!! method)
         /\ hotness_count_ (methods s' !!! method) = hotness_count_ (methods s !!! method).
Proof.
  destruct (RemoveMethodsIn_run P alloc s) as (cms & dms & Hrun).
  exists (unloaded_state P alloc s cms dms).
  split; [exact Hrun|]. repeat (split; [reflexivity|]).
  intros method. simpl. apply unload_info_methods_entry.
Qed.

(** X4. Unloading while a collection is in progress, before its sweep: the
    sweep that follows does not free the code of a removed entry a second
    time, and the entry stays out of the catalog. *)
Theorem sweep_after_unloading_frees_once (s : State) (bm : CodeCacheBitmap) :
  live_bitmap_ (cache s) = Some bm ->
  catalog_sorted (method_code_map_ (cache s)) ->
  exists s1 s2 evs,
    RemoveMethodsIn P alloc s = Returns tt s1
    /\ gc_sweep P s1 = Returns tt s2
    /\ calls s2 = evs ++ calls s1
    /\ forall code_ptr method,
         In (code_ptr, method) (method_code_map_ (cache s)) ->
         alloc method = true ->
         ~ In (EvFree CodeSpace (FromCodeToAllocation P code_ptr)) evs
         /\ forall method', ~ In (code_ptr, method') (method_code_map_ (cache s2)).
Proof.
  intros Hbm Hsorted.
  destruct (RemoveMethodsIn_run P alloc s) as (cms & dms & Hrun).
  set (s1 := unloaded_state P alloc s cms dms) in *.
  assert (Hbm1 : live_bitmap_ (cache s1) = Some bm) by exact Hbm.
  destruct (gc_sweep_run P s1 bm Hbm1) as (cms2 & dms2 & Hsweep).
  eexists s1, _, _. split; [exact Hrun|]. split; [exact Hsweep|].
  split.
  - cbn [calls]. rewrite (sweep_events_app P bm _ _ (calls s1)).
    rewrite app_assoc. reflexivity.
  - intros code_ptr method Hin Ha.
    assert (Hgone : forall e, In e (method_code_map_ (cache s1)) -> fst e <> code_ptr).
    { intros [k v] Hin1 Heq. simpl in Heq. subst k.
      apply (unload_whole_catalog_In alloc _ _ Hsorted) in Hin1 as (Hin1 & Hna).
      simpl in Hna.
      rewrite (catalog_sorted_unique _ code_ptr v method Hsorted Hin1 Hin) in Hna.
      congruence. }
    split.
    + intros Hfreed. rewrite in_app_iff in Hfreed. destruct Hfreed as [Hfreed | Hfreed].
      * apply in_rev in Hfreed. apply in_map_iff in Hfreed as (? & [=] & _).
      * apply sweep_events_code in Hfreed as (it & Hin1 & _ & Heq).
        apply (Hgone it Hin1). unfold FromCodeToAllocation in Heq. lia.
    + intros method' Hin2. cbn [cache method_code_map_] in Hin2.
      apply sweep_whole_catalog_In in Hin2 as (Hin2 & _).
      exact (Hgone _ Hin2 eq_refl).
Qed.

End Unload.

Lemma two_methods_sorted : catalog_sorted (method_code_map_ (cache Reference.two_methods)).
Proof.
  change (catalog_sorted [(98336, 1); (98480, 2)]). simpl.
  split; [|split; [|exact I]]; intros e Hin.
  - destruct Hin as [<- | []]. simpl. lia.
  - destruct Hin.
Qed.

Lemma unloading_removes_compiled_code_witness :
  catalog_sorted (method_code_map_ (cache Reference.two_methods))
  /\ exists s' evs,
       RemoveMethodsIn Reference.x86_64 Scenario.loader_of_first Reference.two_methods
       = Returns tt s'
       /\ calls s' = evs ++ calls Reference.two_methods
       /\ In (98480, 2) (method_code_map_ (cache s'))
       /\ ~ In (98336, 1) (method_code_map_ (cache s'))
       /\ ContainsMethod 1 s' = Returns false s'
       /\ In (EvFree CodeSpace 98304) evs
       /\ In (EvFree DataSpace 65536) evs.
Proof.
  split; [exact two_methods_sorted|].
  destruct (unloading_removes_compiled_code Reference.x86_64 Scenario.loader_of_first
              Reference.two_methods two_methods_sorted)
    as (s' & evs & Hrun & Hcalls & _ & Hcat & Hcontains & Hfreed & _).
  exists s', evs. split; [exact Hrun|]. split; [exact Hcalls|].
  assert (Hin1 : In (98336, 1) (method_code_map_ (cache Reference.two_methods)))
    by (vm_compute; tauto).
  split; [apply Hcat; split; [vm_compute; tauto | reflexivity]|].
  split; [intros Hin; apply Hcat in Hin as (_ & Hna); discriminate Hna|].
  split; [apply Hcontains; reflexivity|].
  split; apply (Hfreed 98336 1 Hin1 eq_refl); vm_compute; tauto.
Defined.

Lemma sweep_after_unloading_frees_once_witness :
  let s := scan_state Reference.x86_64 Reference.two_methods in
  live_bitmap_ (cache s) = Some (bitmap_Create 98304 106496)
  /\ catalog_sorted (method_code_map_ (cache s))
  /\ exists s1 s2 evs,
       RemoveMethodsIn Reference.x86_64 Scenario.loader_of_first s = Returns tt s1
       /\ gc_sweep Reference.x86_64 s1 = Returns tt s2
       /\ calls s2 = evs ++ calls s1
       /\ ~ In (EvFree CodeSpace 98304) evs.
Proof.
  intros s.
  assert (Hbm : live_bitmap_ (cache s) = Some (bitmap_Create 98304 106496))
    by (vm_compute; reflexivity).
  assert (Hsorted : catalog_sorted (method_code_map_ (cache s)))
    by exact two_methods_sorted.
  split; [exact Hbm|]. split; [exact Hsorted|].
  destruct (sweep_after_unloading_frees_once Reference.x86_64 Scenario.loader_of_first
              s _ Hbm Hsorted) as (s1 & s2 & evs & Hrun & Hsweep & Hcalls & Hall).
  exists s1, s2, evs. split; [exact Hrun|]. split; [exact Hsweep|].
  split; [exact Hcalls|].
  apply (Hall 98336 1); [vm_compute; tauto | reflexivity].
Defined.

(** ** What a lookup returns *)

Section LookupSound.
Context `{!Mspace} (P : Platform).

Lemma lower_bound_nth (pc : Z) (cat : Catalog) (i : nat) :
  lower_bound pc cat = S i ->
  exists code_ptr method, nth_error cat i = Some (code_ptr, method) /\ code_ptr < pc.
Proof.
  revert i. induction cat as [|[k v] t IH]; simpl; [discriminate|].
  intros i. destruct (k <? pc) eqn:Ek; [|discriminate].
  apply Z.ltb_lt in Ek. intros [= E].
  destruct (lower_bound pc t) as [|j] eqn:Elb.
  - subst i. exists k, v. split; [reflexivity | exact Ek].
  - subst i. destruct (IH j eq_refl) as (c & m & Hnth & Hlt).
    exists c, m. split; [exact Hnth | exact Hlt].
Qed.

(** X5. [LookupMethodHeader] only reads: when it returns, the state is the
    one it was called in.  A header it returns is the header of an entry of
    the catalog whose code contains the program counter searched with, and
    that program counter lies in the code region; outside the code region,
    and in an empty catalog, the result is null. *)
Theorem lookup_returns_header_of_containing_entry (s : State) (pc : Z) :
  (forall r s',
     LookupMethodHeader P pc s = Returns r s' ->
     s' = s
     /\ forall h, r = Some h ->
          ContainsPc (cache s) (lookup_pc P pc) = true
          /\ exists code_ptr method,
               In (code_ptr, method) (method_code_map_ (cache s))
               /\ h = header_address P code_ptr
               /\ code_ptr < lookup_pc P pc
                  < code_ptr + code_size_ (headers s !!! code_ptr))
  /\ (ContainsPc (cache s) (lookup_pc P pc) = false \/ method_code_map_ (cache s) = [] ->
      LookupMethodHeader P pc s = Returns None s).
Proof.
  unfold LookupMethodHeader, mbind, M_bind, bind, get, ret, undefined, FromCodePointer.
  fold (lookup_pc P pc).
  destruct (ContainsPc (cache s) (lookup_pc P pc)) eqn:Hin; cbn [negb].
  - split.
    + intros r s'.
      destruct (method_code_map_ (cache s)) as [|e0 cat] eqn:Hcat.
      { intros [= <- <-]. split; [reflexivity | discriminate]. }
      destruct (lower_bound (lookup_pc P pc) (e0 :: cat)) as [|i] eqn:Hlb; [discriminate|].
      apply lower_bound_nth in Hlb as (c & m & Hnth & Hlt). rewrite Hnth.
      destruct (Contains (headers s !!! c) c (lookup_pc P pc)) eqn:Hc; cbn [negb].
      * intros [= <- <-]. split; [reflexivity|]. intros h [= <-].
        split; [reflexivity|]. exists c, m.
        split; [eapply nth_error_In; exact Hnth|]. split; [reflexivity|].
        unfold Contains in Hc. apply andb_true_iff in Hc as (_ & Hhi).
        apply Z.ltb_lt in Hhi. lia.
      * intros [= <- <-]. split; [reflexivity | discriminate].
    + intros [Hno | ->]; [discriminate | reflexivity].
  - split.
    + intros r s' [= <- <-]. split; [reflexivity | discriminate].
    + intros _. reflexivity.
Qed.

End LookupSound.

Lemma lookup_returns_header_of_containing_entry_witness :
  LookupMethodHeader Reference.x86_64 98500 Reference.two_methods
  = Returns (Some (header_address Reference.x86_64 98480)) Reference.two_methods
  /\ exists code_ptr method,
       In (code_ptr, method) (method_code_map_ (cache Reference.two_methods))
       /\ header_address Reference.x86_64 98480 = header_address Reference.x86_64 code_ptr
       /\ code_ptr < 98500 < code_ptr + code_size_ (headers Reference.two_methods !!! code_ptr).
Proof.
  assert (Hrun : LookupMethodHeader Reference.x86_64 98500 Reference.two_methods
                 = Returns (Some (header_address Reference.x86_64 98480))
                     Reference.two_methods) by (vm_compute; reflexivity).
  split; [exact Hrun|].
  destruct (lookup_returns_header_of_containing_entry Reference.x86_64
              Reference.two_methods 98500) as (Hsound & _).
  destruct (Hsound _ _ Hrun) as (_ & Hfound).
  destruct (Hfound _ eq_refl) as (_ & Hentry). exact Hentry.
Defined.

(** ** A commit, step by step *)

Section CommitRun.
Context `{!Mspace} (P : Platform).

Lemma CommitCodeInternal_cases (a : CommitArgs) (s : State) :
  idle s ->
  match mspace_memalign (code_mspace_ (cache s)) (kInstructionSetAlignment P)
          (size_t_wrap P (header_size P + arg_code_size a)) with
  | Some (p, cms) =>
      CommitCodeInternal P a s
      = Returns (Some (header_address P (p + header_size P))) (committed_state P a s p cms)
  | None =>
      CommitCodeInternal P a s
      = Returns None
          (with_calls
             (cons (EvAlloc CodeSpace (size_t_wrap P (header_size P + arg_code_size a)) None))
             s)
  end.
Proof.
  unfold idle. intros Hidle.
  destruct (mspace_memalign _ _ _) as [[p ms]|] eqn:E;
    unfold CommitCodeInternal, CommitCode_allocate, CommitCode_publish, mbind, M_bind,
      bind, WaitForPotentialCollectionToComplete, memalign_code, modify,
      UpdateMethodsCode, modify, get, ret;
    rewrite Hidle, E; simpl; [rewrite Hidle|]; [|reflexivity].
  destruct s as [c ms0 hs objs evs]. destruct c. reflexivity.
Qed.

(** A [CommitCode] that returns a header made it in its last attempt, which
    started in an idle state whose catalog is part of the one [CommitCode]
    started with. *)
Lemma CommitCode_last_attempt (stacks : list (list (option Z))) (a : CommitArgs)
    (s s' : State) (r : Z) :
  idle s ->
  CommitCode P stacks a s = Returns (Some r) s' ->
  exists s0 p cms,
    idle s0
    /\ (forall e, In e (method_code_map_ (cache s0)) -> In e (method_code_map_ (cache s)))
    /\ (catalog_sorted (method_code_map_ (cache s)) ->
        catalog_sorted (method_code_map_ (cache s0)))
    /\ r = header_address P (p + header_size P)
    /\ s' = committed_state P a s0 p cms.
Proof.
  intros Hidle. unfold CommitCode, mbind, M_bind. unfold bind at 1.
  pose proof (CommitCodeInternal_cases a s Hidle) as H1.
  destruct (mspace_memalign _ _ _) as [[p cms]|].
  - rewrite H1. intros [= <- <-]. exists s, p, cms. auto.
  - rewrite H1. unfold bind at 1.
    set (s1 := with_calls _ s).
    assert (Hidle1 : idle s1) by exact Hidle.
    destruct (GarbageCollectCache_run P stacks s1 Hidle1)
      as (s2 & frees & Hgc & _ & _ & Hidle2 & _).
    rewrite Hgc.
    pose proof (CommitCodeInternal_cases a s2 Hidle2) as H2.
    destruct (mspace_memalign _ _ _) as [[p cms]|]; rewrite H2; [|discriminate].
    intros [= <- <-]. exists s2, p, cms.
    split; [exact Hidle2|]. split; [|split; [|auto]].
    + intros e Hin.
      destruct (takes_growth_shortcut (cache s1)) eqn:Hg.
      * rewrite (GarbageCollectCache_grows P s1 stacks Hidle1 Hg) in Hgc.
        injection Hgc as <-. exact Hin.
      * destruct (GarbageCollectCache_collects P s1 stacks Hidle1 Hg) as (c1 & d1 & Hc).
        rewrite Hc in Hgc. injection Hgc as <-. simpl in Hin.
        apply sweep_whole_catalog_In in Hin as (Hin & _). exact Hin.
    + intros Hsorted.
      apply (preserves_catalog_GarbageCollectCache P catalog_sorted
               catalog_erase_sorted stacks s1 tt s2); [exact Hsorted | exact Hgc].
Qed.

End CommitRun.

Section CommitRoundTrip.
Context `{!Mspace} (P : Platform).

(** X6. Commit, then look up.  When [CommitCode] returns a header, the code
    pointer behind it is a start address of the catalog, the method enters
    through it, the header records the code size, and the catalog is still
    sorted; when no entry started there before, the entry belongs to the
    method and [ContainsMethod] answers true.  [LookupMethodHeader] then
    returns that header for every program counter of the code region that
    lies strictly inside the code, provided no other entry starts between the
    code pointer and the program counter. *)
Theorem committed_code_is_found (stacks : list (list (option Z))) (a : CommitArgs)
    (s s' : State) (r : Z) :
  idle s ->
  catalog_sorted (method_code_map_ (cache s)) ->
  CommitCode P stacks a s = Returns (Some r) s' ->
  let code_ptr := r + sizeof_OatQuickMethodHeader P in
  (exists method, In (code_ptr, method) (method_code_map_ (cache s')))
  /\ entry_point_from_quick_compiled_code_ (methods s' !!! arg_method a) = code_ptr
  /\ code_size_ (headers s' !!! code_ptr) = uint32_wrap (arg_code_size a)
  /\ catalog_sorted (method_code_map_ (cache s'))
  /\ ((forall method, ~ In (code_ptr, method) (method_code_map_ (cache s))) ->
      In (code_ptr, arg_method a) (method_code_map_ (cache s'))
      /\ ContainsMethod (arg_method a) s' = Returns true s')
  /\ forall pc,
       ContainsPc (cache s') (lookup_pc P pc) = true ->
       code_ptr < lookup_pc P pc < code_ptr + uint32_wrap (arg_code_size a) ->
       (forall e, In e (method_code_map_ (cache s')) ->
                  ~ (code_ptr < fst e < lookup_pc P pc)) ->
       LookupMethodHeader P pc s' = Returns (Some r) s'.
Proof.
  intros Hidle Hsorted Hrun code_ptr.
  destruct (CommitCode_last_attempt P stacks a s s' r Hidle Hrun)
    as (s0 & p & cms & Hidle0 & Hsub & Hsorted0 & Hr & Hs').
  specialize (Hsorted0 Hsorted).
  assert (Hcode : code_ptr = p + header_size P).
  { unfold code_ptr. rewrite Hr. unfold header_address. lia. }
  clearbody code_ptr. subst code_ptr s'.
  assert (Hkey : exists method,
    In (p + header_size P, method)
       (catalog_Put (p + header_size P) (arg_method a) (method_code_map_ (cache s0))))
    by apply catalog_Put_key.
  assert (Hsorted' : catalog_sorted
    (catalog_Put (p + header_size P) (arg_method a) (method_code_map_ (cache s0))))
    by (apply catalog_Put_sorted; exact Hsorted0).
  assert (Hsize : code_size_ (headers (committed_state P a s0 p cms) !!! (p + header_size P))
                  = uint32_wrap (arg_code_size a)).
  { simpl. rewrite lookup_total_insert_eq. reflexivity. }
  split; [exact Hkey|].
  split; [simpl; rewrite lookup_total_insert_eq; reflexivity|].
  split; [exact Hsize|].
  split; [exact Hsorted'|].
  split.
  - intros Hfresh.
    assert (Hin : In (p + header_size P, arg_method a)
      (catalog_Put (p + header_size P) (arg_method a) (method_code_map_ (cache s0)))).
    { destruct Hkey as (m & Hin).
      destruct (catalog_Put_In _ _ _ _ Hin) as [[= ->] | Hold]; [exact Hin|].
      exfalso. exact (Hfresh m (Hsub _ Hold)). }
    split; [exact Hin|].
    unfold ContainsMethod, mbind, M_bind, bind, get, ret.
    destruct (ContainsMethod_loop (arg_method a) _) eqn:E; [reflexivity|].
    assert (Htrue : ContainsMethod_loop (arg_method a)
              (method_code_map_ (cache (committed_state P a s0 p cms))) = true)
      by (apply ContainsMethod_loop_spec; eexists; exact Hin).
    congruence.
  - intros pc Hpc Hinside Hnone.
    destruct (LookupMethodHeader_below P (committed_state P a s0 p cms) pc Hsorted')
      as [(Hall & _) | (c & m & Hin & Hlt & Hmax & ->)].
    + destruct Hkey as (m & Hin). simpl. intros E. rewrite E in Hin. destruct Hin.
    + exact Hpc.
    + destruct Hkey as (m & Hin). specialize (Hall _ Hin). simpl in Hall. lia.
    + assert (c = p + header_size P).
      { destruct Hkey as (m' & Hin'). specialize (Hmax _ Hin'). simpl in Hmax.
        specialize (Hnone _ Hin). simpl in Hnone. lia. }
      subst c. unfold Contains. rewrite Hsize.
      destruct (Z.leb_spec (p + header_size P) (lookup_pc P pc)); [|lia].
      destruct (Z.ltb_spec (lookup_pc P pc)
                  (p + header_size P + uint32_wrap (arg_code_size a))); [|lia].
      rewrite Hr. reflexivity.
Qed.

End CommitRoundTrip.

Lemma committed_code_is_found_witness :
  let s := Reference.in_empty_memory Reference.small_cache in
  let s' := Reference.after (CommitCode Reference.x86_64 [] (Reference.plain_code 1 100)) s in
  idle s
  /\ catalog_sorted (method_code_map_ (cache s))
  /\ CommitCode Reference.x86_64 [] (Reference.plain_code 1 100) s = Returns (Some 98308) s'
  /\ In (98336, 1) (method_code_map_ (cache s'))
  /\ ContainsMethod 1 s' = Returns true s'
  /\ LookupMethodHeader Reference.x86_64 98400 s' = Returns (Some 98308) s'.
Proof.
  intros s s'.
  assert (Hidle : idle s) by reflexivity.
  assert (Hsorted : catalog_sorted (method_code_map_ (cache s))) by exact I.
  assert (Hrun : CommitCode Reference.x86_64 [] (Reference.plain_code 1 100) s
                 = Returns (Some 98308) s') by (vm_compute; reflexivity).
  split; [exact Hidle|]. split; [exact Hsorted|]. split; [exact Hrun|].
  destruct (committed_code_is_found Reference.x86_64 [] (Reference.plain_code 1 100)
              s s' 98308 Hidle Hsorted Hrun) as (_ & _ & _ & _ & Hfresh & Hfound).
  destruct Hfresh as (Hin & Hcontains); [intros method []|].
  split; [exact Hin|]. split; [exact Hcontains|].
  apply Hfound.
  - vm_compute. reflexivity.
  - vm_compute. split; reflexivity.
  - intros e He. vm_compute in He. destruct He as [<- | []]. simpl.
    change (lookup_pc Reference.x86_64 98400) with 98400.
    change (sizeof_OatQuickMethodHeader Reference.x86_64) with 28. lia.
Defined.

Section CommitThenFree.
Context `{!Mspace} (P : Platform).

Lemma table_freed_iff (code_ptr : Z) (table : option Z) (ev : Event) :
  (forall t, table = Some t -> 0 < code_ptr - t < 2 ^ 32) ->
  (table_offset code_ptr table <> 0
   /\ ev = EvFree DataSpace (code_ptr - table_offset code_ptr table))
  <-> exists t, table = Some t /\ ev = EvFree DataSpace t.
Proof.
  destruct table as [t|]; simpl.
  - intros Hrange. specialize (Hrange t eq_refl).
    unfold uint32_wrap. rewrite Z.mod_small by lia.
    replace (code_ptr - (code_ptr - t)) with t by lia. split.
    + intros (_ & ->). exists t. split; reflexivity.
    + intros (t' & [= <-] & ->). split; [lia | reflexivity].
  - intros _. split; [intros (Hne & _); congruence | intros (t & [=] & _)].
Qed.

(** X7. Commit, then free.  The header [CommitCode] writes leads [FreeCode]
    back to exactly what the commit was given: given tables that lie below the
    code, less than 4 GB away (the header keeps 32-bit offsets), [FreeCode] on
    the committed code pointer frees the block the commit just obtained from
    the code region and each table passed to the commit, and nothing else. *)
Theorem freeing_committed_code_releases_its_allocations
    (stacks : list (list (option Z))) (a : CommitArgs) (s s' : State) (r : Z) :
  idle s ->
  CommitCode P stacks a s = Returns (Some r) s' ->
  let code_ptr := r + sizeof_OatQuickMethodHeader P in
  (forall t, In (Some t) [arg_mapping_table a; arg_vmap_table a; arg_gc_map a] ->
             0 < code_ptr - t < 2 ^ 32) ->
  exists p n evs0 s'' evs,
    calls s' = EvAlloc CodeSpace n (Some p) :: evs0
    /\ code_ptr = p + header_size P
    /\ FreeCode P code_ptr s' = Returns tt s''
    /\ calls s'' = evs ++ calls s'
    /\ forall ev,
         In ev evs <->
         ev = EvFree CodeSpace p
         \/ exists t, In (Some t) [arg_mapping_table a; arg_vmap_table a; arg_gc_map a]
                      /\ ev = EvFree DataSpace t.
Proof.
  intros Hidle Hrun code_ptr Hrange.
  destruct (CommitCode_last_attempt P stacks a s s' r Hidle Hrun)
    as (s0 & p & cms & _ & _ & _ & Hr & Hs').
  assert (Hcode : code_ptr = p + header_size P).
  { unfold code_ptr. rewrite Hr. unfold header_address. lia. }
  clearbody code_ptr. subst code_ptr s'.
  destruct (FreeCode_run P (committed_state P a s0 p cms) (p + header_size P))
    as (cms' & dms' & Hfree).
  eexists p, _, (calls s0), _, _.
  split; [reflexivity|]. split; [reflexivity|]. split; [exact Hfree|].
  split; [reflexivity|].
  intros ev. rewrite FreeCode_events_In.
  cbn [headers committed_state]. rewrite lookup_total_insert_eq.
  unfold new_method_header.
  cbn [vmap_table_offset_ mapping_table_offset_ gc_map_offset_].
  assert (Hp : FromCodeToAllocation P (p + header_size P) = p)
    by (unfold FromCodeToAllocation; lia).
  rewrite Hp.
  rewrite (table_freed_iff _ (arg_vmap_table a))
    by (intros t E; apply Hrange; rewrite <- E; simpl; tauto).
  rewrite (table_freed_iff _ (arg_mapping_table a))
    by (intros t E; apply Hrange; rewrite <- E; simpl; tauto).
  rewrite (table_freed_iff _ (arg_gc_map a))
    by (intros t E; apply Hrange; rewrite <- E; simpl; tauto).
  simpl. split.
  - intros [-> | [(t & E & ->) | [(t & E & ->) | (t & E & ->)]]]; [left; reflexivity| | |];
      right; exists t; rewrite E; tauto.
  - intros [-> | (t & [E | [E | [E | []]]] & ->)]; [left; reflexivity| | |]; right.
    + right. left. exists t. split; [exact E | reflexivity].
    + left. exists t. split; [exact E | reflexivity].
    + right. right. exists t. split; [exact E | reflexivity].
Qed.

End CommitThenFree.

Lemma freeing_committed_code_releases_its_allocations_witness :
  let s' := Reference.after
              (CommitCode Reference.x86_64 [] Scenario.code_with_stack_maps)
              Scenario.reserved in
  idle Scenario.reserved
  /\ CommitCode Reference.x86_64 [] Scenario.code_with_stack_maps Scenario.reserved
     = Returns (Some 98308) s'
  /\ exists s'' evs,
       FreeCode Reference.x86_64 98336 s' = Returns tt s''
       /\ calls s'' = evs ++ calls s'
       /\ In (EvFree CodeSpace 98304) evs
       /\ In (EvFree DataSpace 65536) evs.
Proof.
  intros s'.
  assert (Hidle : idle Scenario.reserved) by reflexivity.
  assert (Hrun : CommitCode Reference.x86_64 [] Scenario.code_with_stack_maps
                   Scenario.reserved = Returns (Some 98308) s')
    by (vm_compute; reflexivity).
  split; [exact Hidle|]. split; [exact Hrun|].
  destruct (freeing_committed_code_releases_its_allocations Reference.x86_64 []
              Scenario.code_with_stack_maps Scenario.reserved s' 98308 Hidle Hrun)
    as (p & n & evs0 & s'' & evs & Hcalls & Hcode & Hfree & Hcalls' & Hevs).
  { intros t Hin. simpl in Hin. destruct Hin as [[=] | [[= <-] | [[=] | []]]].
    change (sizeof_OatQuickMethodHeader Reference.x86_64) with 28. lia. }
  exists s'', evs. split; [exact Hfree|]. split; [exact Hcalls'|].
  assert (Hp : p = 98304).
  { change (header_size Reference.x86_64) with 32 in Hcode.
    change (sizeof_OatQuickMethodHeader Reference.x86_64) with 28 in Hcode. lia. }
  subst p. split; apply Hevs.
  - left. reflexivity.
  - right. exists 65536. split; [simpl; tauto | reflexivity].
Defined.

(** ** The compiler's use of the cache *)

Section AttemptLog.
Context `{!Mspace} (P : Platform).

Lemma attempt_log_obtained sp evs res :
  attempt_log sp evs res ->
  count_events obtained evs = match res with Some _ => 1%nat | None => 0%nat end
  /\ (count_events is_collect evs <= 1)%nat
  /\ (forall sp' n p, In (EvAlloc sp' n (Some p)) evs -> sp' = sp /\ res = Some p)
  /\ (forall p, res = Some p -> exists n evs0, evs = EvAlloc sp n (Some p) :: evs0).
Proof.
  intros [(n & p & -> & ->) | (n & frees & Hfrees & ->)].
  - split; [reflexivity|]. split; [unfold count_events; simpl; lia|]. split.
    + intros sp' n' p' [[= <- <- <-] | []]. split; reflexivity.
    + intros p' [= <-]. exists n, []. reflexivity.
  - assert (Hf0 : forall q, (forall sp' r, q (EvFree sp' r) = false) ->
                            count_events q frees = 0%nat)
      by (intros q Hq; apply count_events_frees; assumption).
    change (EvAlloc sp n res :: frees ++ [EvCollect; EvAlloc sp n None])
      with ([EvAlloc sp n res] ++ frees ++ [EvCollect; EvAlloc sp n None]).
    rewrite !count_events_app, !Hf0 by reflexivity.
    split; [destruct res; reflexivity|].
    split; [unfold count_events; destruct res; simpl; lia|]. split.
    + intros sp' n' p' Hin. rewrite !in_app_iff in Hin.
      destruct Hin as [[E | []] | [Hin | [[=] | [[=] | []]]]].
      * injection E as <- <- <-. split; reflexivity.
      * rewrite List.Forall_forall in Hfrees. destruct (Hfrees _ Hin) as (? & ? & [=]).
    + intros p ->. exists n, (frees ++ [EvCollect; EvAlloc sp n None]). reflexivity.
Qed.

Lemma ReserveData_run (stacks : list (list (option Z))) (size : Z) (s : State) :
  idle s ->
  exists res s' evs,
    ReserveData P stacks size s = Returns res s'
    /\ calls s' = evs ++ calls s
    /\ idle s'
    /\ attempt_log DataSpace evs res.
Proof.
  intros Hidle. unfold ReserveData, mbind, M_bind. unfold bind at 1.
  unfold WaitForPotentialCollectionToComplete at 1. rewrite Hidle.
  unfold bind at 1. unfold malloc_data at 1.
  set (n := size_t_wrap P (RoundUp size (kPointerSize (kRuntimeISA P)))).
  destruct (mspace_malloc (data_mspace_ (cache s)) n) as [[p dms]|].
  - eexists (Some p), _, [_]. split; [reflexivity|]. split; [reflexivity|].
    split; [exact Hidle|]. left. exists n, p. auto.
  - unfold bind at 1.
    set (s1 := with_calls _ s).
    assert (Hidle1 : idle s1) by exact Hidle.
    destruct (GarbageCollectCache_run P stacks s1 Hidle1)
      as (s2 & frees & -> & Hcalls2 & Hfrees & Hidle2 & _).
    unfold bind at 1. unfold WaitForPotentialCollectionToComplete. rewrite Hidle2.
    unfold malloc_data.
    destruct (mspace_malloc (data_mspace_ (cache s2)) n) as [[p dms]|].
    + eexists (Some p), _, (_ :: frees ++ [EvCollect; _]).
      split; [reflexivity|]. split.
      { simpl. rewrite Hcalls2. simpl. rewrite <- app_assoc. reflexivity. }
      split; [exact Hidle2|]. right. exists n, frees. auto.
    + eexists None, _, (_ :: frees ++ [EvCollect; _]).
      split; [reflexivity|]. split.
      { simpl. rewrite Hcalls2. simpl. rewrite <- app_assoc. reflexivity. }
      split; [exact Hidle2|]. right. exists n, frees. auto.
Qed.

Lemma CommitCode_run (stacks : list (list (option Z))) (a : CommitArgs) (s : State) :
  idle s ->
  exists res s' evs,
    CommitCode P stacks a s
    = Returns (option_map (fun p => header_address P (p + header_size P)) res) s'
    /\ calls s' = evs ++ calls s
    /\ idle s'
    /\ attempt_log CodeSpace evs res
    /\ forall p, res = Some p -> exists s0 cms, s' = committed_state P a s0 p cms.
Proof.
  intros Hidle. unfold CommitCode, mbind, M_bind. unfold bind at 1.
  pose proof (CommitCodeInternal_cases P a s Hidle) as H1.
  set (n := size_t_wrap P (header_size P + arg_code_size a)) in *.
  destruct (mspace_memalign (code_mspace_ (cache s)) _ n) as [[p cms]|].
  - rewrite H1. eexists (Some p), _, [_]. split; [reflexivity|].
    split; [reflexivity|]. split; [exact Hidle|].
    split; [left; exists n, p; auto|].
    intros p' [= <-]. exists s, cms. reflexivity.
  - rewrite H1. unfold bind at 1.
    set (s1 := with_calls _ s).
    assert (Hidle1 : idle s1) by exact Hidle.
    destruct (GarbageCollectCache_run P stacks s1 Hidle1)
      as (s2 & frees & -> & Hcalls2 & Hfrees & Hidle2 & _).
    pose proof (CommitCodeInternal_cases P a s2 Hidle2) as H2. fold n in H2.
    destruct (mspace_memalign (code_mspace_ (cache s2)) _ n) as [[p cms]|]; rewrite H2.
    + eexists (Some p), _, (_ :: frees ++ [EvCollect; _]).
      split; [reflexivity|]. split.
      { simpl. rewrite Hcalls2. simpl. rewrite <- app_assoc. reflexivity. }
      split; [exact Hidle2|]. split; [right; exists n, frees; auto|].
      intros p' [= <-]. exists s2, cms. reflexivity.
    + eexists None, _, (_ :: frees ++ [EvCollect; _]).
      split; [reflexivity|]. split.
      { simpl. rewrite Hcalls2. simpl. rewrite <- app_assoc. reflexivity. }
      split; [exact Hidle2|]. split; [right; exists n, frees; auto|].
      discriminate.
Qed.

End AttemptLog.

Section JitCompile.
Context `{!Mspace} (P : Platform).

(** What [JitCompile] does in an idle cache, case by case. *)
Lemma JitCompile_run (stacks_data stacks_code : list (list (option Z)))
    (method : Z) (codegen : option CodeGenerator) (s : State) :
  idle s ->
  (codegen = None /\ JitCompile P stacks_data stacks_code method codegen s = Returns false s)
  \/ exists cg s1 evs_d,
       codegen = Some cg
       /\ calls s1 = evs_d ++ calls s
       /\ idle s1
       /\ ((attempt_log DataSpace evs_d None
            /\ JitCompile P stacks_data stacks_code method codegen s = Returns false s1)
           \/ exists d s2 evs_c,
                attempt_log DataSpace evs_d (Some d)
                /\ calls s2 = evs_c ++ calls s1
                /\ idle s2
                /\ ((attempt_log CodeSpace evs_c None
                     /\ exists s3,
                          JitCompile P stacks_data stacks_code method codegen s
                          = Returns false s3
                          /\ idle s3
                          /\ calls s3 = EvFree DataSpace d :: calls s2)
                    \/ exists p s0 cms,
                         attempt_log CodeSpace evs_c (Some p)
                         /\ s2 = committed_state P (JitCompile_args method cg d) s0 p cms
                         /\ JitCompile P stacks_data stacks_code method codegen s
                            = Returns true s2)).
Proof.
  intros Hidle. destruct codegen as [cg|]; [right | left; split; reflexivity].
  destruct (ReserveData_run P stacks_data (ComputeStackMapsSize cg) s Hidle)
    as (res & s1 & evs_d & Hres & Hcalls1 & Hidle1 & Hlog1).
  exists cg, s1, evs_d. split; [reflexivity|]. split; [exact Hcalls1|].
  split; [exact Hidle1|].
  destruct res as [d|].
  2: { left. split; [exact Hlog1|].
       unfold JitCompile, mbind, M_bind, bind. rewrite Hres. reflexivity. }
  right.
  destruct (CommitCode_run P stacks_code (JitCompile_args method cg d) s1 Hidle1)
    as (res & s2 & evs_c & Hcommit & Hcalls2 & Hidle2 & Hlog2 & Hstate).
  exists d, s2, evs_c. split; [exact Hlog1|]. split; [exact Hcalls2|].
  split; [exact Hidle2|].
  destruct res as [p|]; simpl in Hcommit.
  - right. destruct (Hstate p eq_refl) as (s0 & cms & Hs2).
    exists p, s0, cms. split; [exact Hlog2|]. split; [exact Hs2|].
    unfold JitCompile, mbind, M_bind, bind. rewrite Hres, Hcommit. reflexivity.
  - left. split; [exact Hlog2|]. eexists. split; [|split].
    + unfold JitCompile, mbind, M_bind, bind. rewrite Hres, Hcommit. reflexivity.
    + exact Hidle2.
    + reflexivity.
Qed.

(** X8. [JitCompile] called on an idle cache returns, after at most two
    collections.  When it returns false it keeps nothing: either it obtained
    no block at all, or the only block it obtained is the one for the stack
    maps and its last call on the allocator gave that block back. *)
Theorem failed_jit_compile_keeps_nothing
    (stacks_data stacks_code : list (list (option Z)))
    (method : Z) (codegen : option CodeGenerator) (s : State) :
  idle s ->
  exists b s' evs,
    JitCompile P stacks_data stacks_code method codegen s = Returns b s'
    /\ idle s'
    /\ calls s' = evs ++ calls s
    /\ (count_events is_collect evs <= 2)%nat
    /\ (b = false ->
        count_events obtained evs = 0%nat
        \/ exists d n evs1,
             evs = EvFree DataSpace d :: evs1
             /\ count_events obtained evs1 = 1%nat
             /\ In (EvAlloc DataSpace n (Some d)) evs1).
Proof.
  intros Hidle.
  destruct (JitCompile_run stacks_data stacks_code method codegen s Hidle)
    as [(_ & Hrun) | (cg & s1 & evs_d & _ & Hcalls1 & Hidle1 & Hrest)].
  { exists false, s, []. split; [exact Hrun|]. split; [exact Hidle|].
    split; [reflexivity|]. split; [unfold count_events; simpl; lia|].
    intros _. left. reflexivity. }
  destruct Hrest as [(Hlog1 & Hrun) | (d & s2 & evs_c & Hlog1 & Hcalls2 & Hidle2 & Hrest)].
  { destruct (attempt_log_obtained _ _ _ Hlog1) as (Hob & Hcol & _).
    exists false, s1, evs_d. split; [exact Hrun|]. split; [exact Hidle1|].
    split; [exact Hcalls1|]. split; [lia|]. intros _. left. exact Hob. }
  destruct (attempt_log_obtained _ _ _ Hlog1) as (Hob1 & Hcol1 & _ & Hhead1).
  destruct (Hhead1 d eq_refl) as (n & evs0 & Hevs_d).
  destruct Hrest as [(Hlog2 & s3 & Hrun & Hidle3 & Hcalls3) | (p & s0 & cms & Hlog2 & _ & Hrun)].
  - destruct (attempt_log_obtained _ _ _ Hlog2) as (Hob2 & Hcol2 & _).
    exists false, s3, (EvFree DataSpace d :: evs_c ++ evs_d).
    split; [exact Hrun|]. split; [exact Hidle3|].
    split; [rewrite Hcalls3, Hcalls2, Hcalls1; simpl; rewrite app_assoc; reflexivity|].
    split.
    { change (EvFree DataSpace d :: evs_c ++ evs_d)
        with ([EvFree DataSpace d] ++ evs_c ++ evs_d).
      rewrite !count_events_app. unfold count_events at 1. simpl. lia. }
    intros _. right. exists d, n, (evs_c ++ evs_d).
    split; [reflexivity|]. split.
    + rewrite count_events_app. lia.
    + rewrite in_app_iff. right. rewrite Hevs_d. left. reflexivity.
  - destruct (attempt_log_obtained _ _ _ Hlog2) as (_ & Hcol2 & _).
    exists true, s2, (evs_c ++ evs_d).
    split; [exact Hrun|]. split; [exact Hidle2|].
    split; [rewrite Hcalls2, Hcalls1, app_assoc; reflexivity|].
    split; [rewrite count_events_app; lia | discriminate].
Qed.

(** X9. When [JitCompile] returns true, the method enters through the code
    it committed, the catalog has an entry at that code, and the header of
    the code records the frame size (zero for an empty frame), no mapping
    table, no GC map, and the reserved stack maps as vmap table: they are the
    newest block obtained from the data region, the code the newest from the
    code region.  With the stack maps below the code, less than 4 GB away,
    the offset in the header leads back to them. *)
Theorem jit_compile_publishes_code_with_stack_maps
    (stacks_data stacks_code : list (list (option Z)))
    (method : Z) (codegen : option CodeGenerator) (s s' : State) :
  idle s ->
  JitCompile P stacks_data stacks_code method codegen s = Returns true s' ->
  exists cg d p nd nc evs1 evs2,
    codegen = Some cg
    /\ calls s' = EvAlloc CodeSpace nc (Some p) :: evs1
                  ++ EvAlloc DataSpace nd (Some d) :: evs2
    /\ count_events obtained (EvAlloc CodeSpace nc (Some p) :: evs1) = 1%nat
    /\ let code_ptr := p + header_size P in
       let h := headers s' !!! code_ptr in
       entry_point_from_quick_compiled_code_ (methods s' !!! method) = code_ptr
       /\ (exists m, In (code_ptr, m) (method_code_map_ (cache s')))
       /\ mapping_table_offset_ h = 0
       /\ gc_map_offset_ h = 0
       /\ vmap_table_offset_ h = uint32_wrap (code_ptr - d)
       /\ frame_size_in_bytes_ h
          = (if HasEmptyFrame cg then 0 else uint32_wrap (GetFrameSize cg))
       /\ code_size_ h = uint32_wrap (code_allocator_GetSize cg)
       /\ (0 < code_ptr - d < 2 ^ 32 -> code_ptr - vmap_table_offset_ h = d).
Proof.
  intros Hidle Hrun.
  destruct (JitCompile_run stacks_data stacks_code method codegen s Hidle)
    as [(_ & Hrun') | (cg & s1 & evs_d & Hcg & Hcalls1 & Hidle1 & Hrest)];
    [congruence|].
  destruct Hrest as [(_ & Hrun') | (d & s2 & evs_c & Hlog1 & Hcalls2 & Hidle2 & Hrest)];
    [congruence|].
  destruct Hrest as [(_ & s3 & Hrun' & _) | (p & s0 & cms & Hlog2 & Hs2 & Hrun')];
    [congruence|].
  rewrite Hrun in Hrun'. injection Hrun' as ->.
  destruct (attempt_log_obtained _ _ _ Hlog1) as (_ & _ & _ & Hhead1).
  destruct (Hhead1 d eq_refl) as (nd & evs2 & Hevs_d).
  destruct (attempt_log_obtained _ _ _ Hlog2) as (Hob2 & _ & _ & Hhead2).
  destruct (Hhead2 p eq_refl) as (nc & evs1 & Hevs_c).
  exists cg, d, p, nd, nc, evs1, (evs2 ++ calls s).
  split; [exact Hcg|].
  split; [rewrite Hcalls2, Hcalls1, Hevs_c, Hevs_d; reflexivity|].
  split; [rewrite <- Hevs_c; exact Hob2|].
  rewrite Hs2. cbn zeta. cbn [headers methods cache committed_state].
  rewrite !lookup_total_insert_eq.
  split; [reflexivity|].
  split; [apply catalog_Put_key|].
  split; [reflexivity|]. split; [reflexivity|]. split; [reflexivity|].
  split; [simpl; destruct (HasEmptyFrame cg); reflexivity|].
  split; [reflexivity|].
  intros Hrange. simpl. unfold uint32_wrap. rewrite Z.mod_small by lia. lia.
Qed.

End JitCompile.

Lemma failed_jit_compile_keeps_nothing_witness :
  let s := Reference.in_empty_memory Reference.full_cache in
  idle s
  /\ exists s' evs,
       JitCompile Reference.x86_64 [] [] 1 (Some Scenario.big_method) s = Returns false s'
       /\ calls s' = evs ++ calls s
       /\ exists n evs1,
            evs = EvFree DataSpace 65536 :: evs1
            /\ In (EvAlloc DataSpace n (Some 65536)) evs1.
Proof.
  intros s.
  assert (Hidle : idle s) by reflexivity.
  split; [exact Hidle|].
  destruct (failed_jit_compile_keeps_nothing Reference.x86_64 [] [] 1
              (Some Scenario.big_method) s Hidle)
    as (b & s' & evs & Hrun & _ & Hcalls & _ & Hfalse).
  assert (Hb : b = false).
  { assert (Hc : exists s0, JitCompile Reference.x86_64 [] [] 1
                              (Some Scenario.big_method) s = Returns false s0)
      by (eexists; vm_compute; reflexivity).
    destruct Hc as (s0 & Hc). rewrite Hc in Hrun. injection Hrun as <- _. reflexivity. }
  subst b. exists s', evs. split; [exact Hrun|]. split; [exact Hcalls|].
  destruct (Hfalse eq_refl) as [Hnone | (d & n & evs1 & Hevs & _ & Hin)].
  - exfalso.
    assert (Hc : exists s0, JitCompile Reference.x86_64 [] [] 1
                              (Some Scenario.big_method) s = Returns false s0
                            /\ count_events obtained (calls s0) = 1%nat)
      by (eexists; split; vm_compute; reflexivity).
    destruct Hc as (s0 & Hc & Hcount). rewrite Hc in Hrun. injection Hrun as <-.
    rewrite Hcalls, app_nil_r in Hcount. congruence.
  - assert (Hc : exists s0 evs0, JitCompile Reference.x86_64 [] [] 1
                              (Some Scenario.big_method) s = Returns false s0
                            /\ calls s0 = EvFree DataSpace 65536 :: evs0)
      by (eexists _, _; split; vm_compute; reflexivity).
    destruct Hc as (s0 & evs0 & Hc & Hhead). rewrite Hc in Hrun. injection Hrun as <-.
    rewrite Hcalls, Hevs, app_nil_r in Hhead. injection Hhead as -> _.
    exists n, evs1. split; [exact Hevs | exact Hin].
Defined.

Lemma jit_compile_publishes_code_with_stack_maps_witness :
  let s := Reference.in_empty_memory Reference.small_cache in
  let s' := Reference.after
              (JitCompile Reference.x86_64 [] [] 1 (Some Scenario.small_method)) s in
  idle s
  /\ JitCompile Reference.x86_64 [] [] 1 (Some Scenario.small_method) s = Returns true s'
  /\ exists d p,
       entry_point_from_quick_compiled_code_ (methods s' !!! 1) = p + 32
       /\ vmap_table_offset_ (headers s' !!! (p + 32)) = uint32_wrap (p + 32 - d).
Proof.
  intros s s'.
  assert (Hidle : idle s) by reflexivity.
  assert (Hrun : JitCompile Reference.x86_64 [] [] 1 (Some Scenario.small_method) s
                 = Returns true s') by (vm_compute; reflexivity).
  split; [exact Hidle|]. split; [exact Hrun|].
  destruct (jit_compile_publishes_code_with_stack_maps Reference.x86_64 [] [] 1
              (Some Scenario.small_method) s s' Hidle Hrun)
    as (cg & d & p & nd & nc & evs1 & evs2 & _ & _ & _ & Hentry & _ & _ & _ & Hvmap & _).
  exists d, p. split; [exact Hentry | exact Hvmap].
Defined.

(** ** The footprint stays page-aligned *)

Section Alignment.
Context `{!Mspace} (P : Platform).

Lemma size_t_wrap_aligned (z : Z) :
  size_t_wrap P z mod (2 * kPageSize) = z mod (2 * kPageSize).
Proof.
  unfold size_t_wrap, kBitsPerSizeT, kPointerSize.
  apply Z.mod_mod_divide.
  destruct (Is64BitInstructionSet _).
  - exists (2 ^ 51). reflexivity.
  - exists (2 ^ 19). reflexivity.
Qed.

Lemma increased_capacity_aligned (current max_capacity : Z) :
  current mod (2 * kPageSize) = 0 -> max_capacity mod (2 * kPageSize) = 0 ->
  increased_capacity P current max_capacity mod (2 * kPageSize) = 0.
Proof.
  intros Hc Hm. unfold increased_capacity.
  assert (H2 : size_t_wrap P (current * 2) mod (2 * kPageSize) = 0).
  { rewrite size_t_wrap_aligned. rewrite Z.mul_mod, Hc by (unfold kPageSize; lia).
    reflexivity. }
  assert (H1 : size_t_wrap P (current + 1 * MB) mod (2 * kPageSize) = 0).
  { rewrite size_t_wrap_aligned. rewrite Z.add_mod, Hc by (unfold kPageSize; lia).
    reflexivity. }
  destruct (current <? 1 * MB); destruct (_ >? max_capacity); assumption.
Qed.

Lemma aligned_splits_evenly (z : Z) :
  z mod (2 * kPageSize) = 0 -> footprint_splits_evenly z.
Proof.
  unfold footprint_splits_evenly, kPageSize. intros Hz.
  apply Z.mod_divide in Hz; [|lia]. destruct Hz as (k & ->).
  replace (k * (2 * 4096)) with (k * 4096 * 2) by lia.
  rewrite Z.div_mul by lia.
  split; [apply Z.mod_mul; lia | lia].
Qed.

Lemma preserves_modify_aligned (f : State -> State) :
  (forall s, current_capacity_ (cache (f s)) = current_capacity_ (cache s)) ->
  (forall s, max_capacity_ (cache (f s)) = max_capacity_ (cache s)) ->
  preserves capacity_aligned (modify f).
Proof.
  intros Hc Hm. apply preserves_modify. intros s. unfold capacity_aligned.
  rewrite Hc, Hm. auto.
Qed.

Lemma preserves_aligned_malloc_data n : preserves capacity_aligned (malloc_data n).
Proof.
  intros s a s' HI. unfold malloc_data.
  destruct (mspace_malloc _ _) as [[p ms]|]; intros [= _ <-]; exact HI.
Qed.

Lemma preserves_aligned_memalign_code a n : preserves capacity_aligned (memalign_code a n).
Proof.
  intros s r s' HI. unfold memalign_code.
  destruct (mspace_memalign _ _ _) as [[p ms]|]; intros [= _ <-]; exact HI.
Qed.

Lemma preserves_aligned_GetLiveBitmap : preserves capacity_aligned GetLiveBitmap.
Proof.
  intros s a s' HI. unfold GetLiveBitmap.
  destruct (live_bitmap_ (cache s)); [|discriminate]. intros [= _ <-]. exact HI.
Qed.

Lemma preserves_aligned_IncreaseCodeCacheCapacity :
  preserves capacity_aligned (IncreaseCodeCacheCapacity P).
Proof.
  intros s b s' (Hc & Hm). rewrite IncreaseCodeCacheCapacity_run.
  destruct (_ =? _); intros [= _ <-]; [split; assumption|].
  split; [|exact Hm]. simpl. apply increased_capacity_aligned; assumption.
Qed.

Ltac pres_aligned :=
  repeat first
    [ pres_step
    | apply preserves_aligned_malloc_data
    | apply preserves_aligned_memalign_code
    | apply preserves_aligned_GetLiveBitmap
    | apply preserves_aligned_IncreaseCodeCacheCapacity
    | (apply preserves_modify_aligned; reflexivity) ].

Lemma preserves_aligned_GarbageCollectCache stacks :
  preserves capacity_aligned (GarbageCollectCache P stacks).
Proof.
  unfold GarbageCollectCache, gc_grow_or_allocate_bitmap, allocate_live_bitmap,
    gc_reset_entry_points, RunCheckpoint, gc_sweep, NotifyCollectionDone, record,
    UpdateMethodsCode, method_SetProfilingInfo, free_data, record.
  pres_aligned.
  - unfold VisitFrame, live_bitmap_AtomicTestAndSet. pres_aligned.
  - unfold sweep_entry, FreeCode, free_data_if_present, free_data, free_code, record,
      UpdateMethodsCode, method_ClearCounter.
    pres_aligned.
Qed.

Lemma preserves_aligned_run_op op : preserves capacity_aligned (run_op P op).
Proof.
  destruct op; unfold run_op, discard.
  - unfold CommitCode, CommitCodeInternal, CommitCode_allocate, CommitCode_publish,
      UpdateMethodsCode, live_bitmap_AtomicTestAndSet.
    pres_aligned; apply preserves_aligned_GarbageCollectCache.
  - unfold ReserveData. pres_aligned; apply preserves_aligned_GarbageCollectCache.
  - unfold ClearData, free_data, record. pres_aligned.
  - apply preserves_aligned_GarbageCollectCache.
  - unfold LookupMethodHeader. pres_aligned.
  - unfold AddProfilingInfo, AddProfilingInfoInternal, method_SetProfilingInfo.
    pres_aligned; apply preserves_aligned_GarbageCollectCache.
  - unfold RemoveMethodsIn, FreeCode, free_data_if_present, free_data, free_code, record,
      method_SetProfilingInfo.
    pres_aligned.
  - pres_aligned.
Qed.

Lemma RoundDown_two_pages_aligned (x : Z) : RoundDown x (2 * kPageSize) mod (2 * kPageSize) = 0.
Proof.
  rewrite RoundDown_two_pages. unfold kPageSize.
  rewrite Z.mul_comm. apply Z.mod_mul. lia.
Qed.

Lemma reachable_capacity_aligned (s : State) : reachable P s -> capacity_aligned s.
Proof.
  induction 1 as [? ? ? ? ? c ms hs objs Hi Hc | s op s' Hr IH Hstep].
  - unfold capacity_aligned. simpl. revert Hc. unfold Create.
    destruct (_ <? _); [discriminate|]. destruct (_ >? _); [discriminate|].
    destruct (MapAnonymous _ _); [|discriminate].
    destruct (RemapAtEnd _ _ _) as [[? ?]|]; [|discriminate].
    unfold JitCodeCache_new.
    destruct (create_mspace_with_base _ _); [|discriminate].
    destruct (create_mspace_with_base _ _); [|discriminate].
    intros [= <-]. simpl. split; [|apply RoundDown_two_pages_aligned].
    rewrite size_t_wrap_aligned.
    match goal with |- (?a - ?b + ?b) mod _ = 0 => replace (a - b + b) with a by lia end.
    apply RoundDown_two_pages_aligned.
  - eapply preserves_aligned_run_op; eassumption.
Qed.

(** X10. In every reachable state both capacities are multiples of two
    pages.  So the footprint [SetFootprintLimit] is given, always the
    current capacity, splits evenly: each region gets a whole number of
    pages and the two halves add up to the capacity, as its [DCHECK]s ask;
    and this holds again for the capacity [IncreaseCodeCacheCapacity] moves
    to. *)
Theorem footprint_always_splits_evenly (s : State) :
  reachable P s ->
  current_capacity_ (cache s) mod (2 * kPageSize) = 0
  /\ max_capacity_ (cache s) mod (2 * kPageSize) = 0
  /\ footprint_splits_evenly (current_capacity_ (cache s))
  /\ forall grown s',
       IncreaseCodeCacheCapacity P s = Returns grown s' ->
       footprint_splits_evenly (current_capacity_ (cache s'))
       /\ mspace_footprint_limit (code_mspace_ (cache s')) * 2 = current_capacity_ (cache s')
       /\ mspace_footprint_limit (data_mspace_ (cache s')) * 2 = current_capacity_ (cache s').
Proof.
  intros Hr. pose proof (reachable_capacity_aligned s Hr) as Hal.
  destruct Hal as (Hc & Hm).
  split; [exact Hc|]. split; [exact Hm|].
  split; [apply aligned_splits_evenly; exact Hc|].
  intros grown s' Hrun.
  assert (Hal' : capacity_aligned s')
    by (eapply preserves_aligned_IncreaseCodeCacheCapacity; [split|]; eassumption).
  destruct (aligned_splits_evenly _ (proj1 Hal')) as (Hpage & Hsum).
  split; [split; assumption|].
  pose proof (reachable_capacity_inv P s Hr) as Hinv.
  assert (Hinv' : capacity_ok 0 s').
  { eapply (preserves_IncreaseCodeCacheCapacity P 0); [|exact Hrun].
    split; [exact Hinv|]. destruct Hinv as ((H0 & _) & _). exact H0. }
  destruct Hinv' as ((_ & _ & Hcl & Hdl & _) & _). cbv zeta in Hsum.
  rewrite Hcl, Hdl. split; exact Hsum.
Qed.

End Alignment.

Lemma footprint_always_splits_evenly_witness :
  let s := Reference.in_empty_memory Reference.small_cache in
  reachable Reference.x86_64 s
  /\ footprint_splits_evenly (current_capacity_ (cache s))
  /\ exists s',
       IncreaseCodeCacheCapacity Reference.x86_64 s = Returns true s'
       /\ current_capacity_ (cache s') = 32768
       /\ footprint_splits_evenly (current_capacity_ (cache s')).
Proof.
  intros s.
  split; [exact reachable_small_cache|].
  destruct (footprint_always_splits_evenly Reference.x86_64 s reachable_small_cache)
    as (_ & _ & Hnow & Hgrown).
  split; [exact Hnow|].
  eexists. split; [vm_compute; reflexivity|]. split; [reflexivity|].
  refine (proj1 (Hgrown true _ _)). vm_compute. reflexivity.
Defined.

(** ** The live bitmap exists only during a collection *)

Section AtRest.
Context `{!Mspace} (P : Platform).

Lemma preserves_modify_at_rest (f : State -> State) :
  (forall s, collection_in_progress_ (cache (f s)) = collection_in_progress_ (cache s)) ->
  (forall s, live_bitmap_ (cache (f s)) = live_bitmap_ (cache s)) ->
  preserves at_rest (modify f).
Proof.
  intros Hf Hb. apply preserves_modify. intros s. unfold at_rest, idle.
  rewrite Hf, Hb. auto.
Qed.

Lemma preserves_at_rest_malloc_data n : preserves at_rest (malloc_data n).
Proof.
  intros s a s' HI. unfold malloc_data.
  destruct (mspace_malloc _ _) as [[p ms]|]; intros [= _ <-]; exact HI.
Qed.

Lemma preserves_at_rest_memalign_code a n : preserves at_rest (memalign_code a n).
Proof.
  intros s r s' HI. unfold memalign_code.
  destruct (mspace_memalign _ _ _) as [[p ms]|]; intros [= _ <-]; exact HI.
Qed.

(** At rest there is no bitmap to set a bit in. *)
Lemma preserves_at_rest_AtomicTestAndSet addr :
  preserves at_rest (live_bitmap_AtomicTestAndSet P addr).
Proof.
  intros s a s' (_ & Hb).
  unfold live_bitmap_AtomicTestAndSet, mbind, M_bind, bind, GetLiveBitmap.
  rewrite Hb. discriminate.
Qed.

Lemma preserves_at_rest_GarbageCollectCache stacks :
  preserves at_rest (GarbageCollectCache P stacks).
Proof.
  intros s [] s' (Hidle & Hb) Hrun.
  destruct (takes_growth_shortcut (cache s)) eqn:Hg.
  - rewrite (GarbageCollectCache_grows P s stacks Hidle Hg) in Hrun.
    injection Hrun as Hs. rewrite <- Hs. split; [reflexivity | exact Hb].
  - destruct (GarbageCollectCache_collects P s stacks Hidle Hg) as (cms & dms & Hc).
    rewrite Hc in Hrun. injection Hrun as Hs. rewrite <- Hs. split; reflexivity.
Qed.

Ltac pres_at_rest :=
  repeat first
    [ pres_step
    | apply preserves_at_rest_GarbageCollectCache
    | apply preserves_at_rest_AtomicTestAndSet
    | apply preserves_at_rest_malloc_data
    | apply preserves_at_rest_memalign_code
    | (apply preserves_modify_at_rest; reflexivity) ].

Lemma preserves_at_rest_run_op op : preserves at_rest (run_op P op).
Proof.
  destruct op; unfold run_op, discard.
  - unfold CommitCode, CommitCodeInternal, CommitCode_allocate, CommitCode_publish,
      UpdateMethodsCode.
    pres_at_rest.
  - unfold ReserveData. pres_at_rest.
  - unfold ClearData, free_data, record. pres_at_rest.
  - pres_at_rest.
  - unfold LookupMethodHeader. pres_at_rest.
  - unfold AddProfilingInfo, AddProfilingInfoInternal, method_SetProfilingInfo.
    pres_at_rest.
  - unfold RemoveMethodsIn, FreeCode, free_data_if_present, free_data, free_code, record,
      method_SetProfilingInfo.
    pres_at_rest.
  - pres_at_rest.
Qed.

(** X11. Between two calls there is no live bitmap: in every reachable state
    no collection is in progress and [live_bitmap_] is null.  A collection
    that returns has dropped the bitmap it allocated. *)
Theorem live_bitmap_exists_only_during_collection (s : State) :
  reachable P s ->
  collection_in_progress_ (cache s) = false
  /\ live_bitmap_ (cache s) = None
  /\ forall stacks s',
       GarbageCollectCache P stacks s = Returns tt s' ->
       live_bitmap_ (cache s') = None.
Proof.
  intros Hr.
  assert (Hrest : at_rest s).
  { induction Hr as [? ? ? ? ? c ms hs objs Hi Hc | s op s' Hr IH Hstep].
    - unfold at_rest, idle. simpl. revert Hc. unfold Create.
      destruct (_ <? _); [discriminate|]. destruct (_ >? _); [discriminate|].
      destruct (MapAnonymous _ _); [|discriminate].
      destruct (RemapAtEnd _ _ _) as [[? ?]|]; [|discriminate].
      unfold JitCodeCache_new.
      destruct (create_mspace_with_base _ _); [|discriminate].
      destruct (create_mspace_with_base _ _); [|discriminate].
      intros [= <-]. split; reflexivity.
    - eapply preserves_at_rest_run_op; eassumption. }
  destruct Hrest as (Hidle & Hb).
  split; [exact Hidle|]. split; [exact Hb|].
  intros stacks s' Hrun.
  apply (preserves_at_rest_GarbageCollectCache stacks s tt s'); [split; assumption | exact Hrun].
Qed.

End AtRest.

Lemma live_bitmap_exists_only_during_collection_witness :
  let s := Reference.after (CommitCode Reference.x86_64 [] (Reference.plain_code 1 100))
             (Reference.in_empty_memory Reference.small_cache) in
  reachable Reference.x86_64 s
  /\ live_bitmap_ (cache s) = None
  /\ live_bitmap_ (cache (Reference.after (GarbageCollectCache Reference.x86_64 []) s)) = None.
Proof.
  intros s.
  split; [exact reachable_after_commit|].
  destruct (live_bitmap_exists_only_during_collection Reference.x86_64 s
              reachable_after_commit) as (_ & Hb & Hgc).
  split; [exact Hb|]. apply (Hgc []). vm_compute. reflexivity.
Defined.

(** ** Queries *)

Section QueryProperties.
Context `{!Mspace} (P : Platform) (GetOatFile : Z -> option Z).

Lemma GetCompiledArtMethods_loop_spec (oat_file : Z) (l : Catalog) (methods : gset Z) :
  (forall it, In it l -> GetOatFile (snd it) <> None) ->
  exists r,
    GetCompiledArtMethods_loop GetOatFile oat_file l methods = Some r
    /\ forall m, m ∈ r <->
         m ∈ methods
         \/ ((exists code_ptr, In (code_ptr, m) l) /\ GetOatFile m = Some oat_file).
Proof.
  revert methods. induction l as [|[k v] l IH]; intros methods Hall; simpl.
  - exists methods. split; [reflexivity|]. intros m. split; [auto|].
    intros [Hin | ((? & []) & _)]. exact Hin.
  - destruct (GetOatFile v) as [f|] eqn:Ef.
    2: { exfalso. apply (Hall (k, v)); [left; reflexivity | exact Ef]. }
    destruct (IH (if f =? oat_file then {[v]} ∪ methods else methods)) as (r & -> & Hr).
    { intros it Hin. apply Hall. right. exact Hin. }
    exists r. split; [reflexivity|]. intros m. rewrite Hr. clear Hr. split.
    + intros [Hin | ((c & Hin) & Hf)].
      * destruct (Z.eqb_spec f oat_file) as [-> | Hne]; [|left; exact Hin].
        apply elem_of_union in Hin as [Hin | Hin]; [|left; exact Hin].
        apply elem_of_singleton in Hin as ->. right.
        split; [exists k; left; reflexivity | exact Ef].
      * right. split; [exists c; right; exact Hin | exact Hf].
    + intros [Hin | ((c & [[= <- <-] | Hin]) & Hf)].
      * left. destruct (f =? oat_file); [apply elem_of_union; right|]; exact Hin.
      * left. rewrite Hf in Ef. injection Ef as <-. rewrite Z.eqb_refl.
        apply elem_of_union. left. apply elem_of_singleton. reflexivity.
      * right. split; [exists c; exact Hin | exact Hf].
Qed.

Lemma GetCompiledArtMethods_loop_null (oat_file : Z) (l : Catalog) (methods : gset Z) :
  (exists it, In it l /\ GetOatFile (snd it) = None) ->
  GetCompiledArtMethods_loop GetOatFile oat_file l methods = None.
Proof.
  revert methods. induction l as [|[k v] l IH]; intros methods (it & Hin & Hnone).
  - destruct Hin.
  - simpl. destruct Hin as [<- | Hin].
    + simpl in Hnone. rewrite Hnone. reflexivity.
    + destruct (GetOatFile v); [|reflexivity]. apply IH. exists it. auto.
Qed.

(** X12. The two queries by method.  [ContainsMethod] answers true exactly
    for the methods that own an entry of the catalog.  When every method of
    the catalog has an oat file, [GetCompiledArtMethods] adds to the set it
    is given exactly the methods for which [ContainsMethod] is true and whose
    oat file is the one asked for, each once however many entries it owns;
    the methods already in the set stay.  It goes through a null pointer when
    a method of the catalog has no oat file.  Neither changes the state. *)
Theorem compiled_methods_of_an_oat_file (s : State) (oat_file : Z) (methods : gset Z) :
  (forall method,
     exists b, ContainsMethod method s = Returns b s
               /\ (b = true <-> exists code_ptr,
                                  In (code_ptr, method) (method_code_map_ (cache s))))
  /\ ((forall it, In it (method_code_map_ (cache s)) -> GetOatFile (snd it) <> None) ->
      exists r,
        GetCompiledArtMethods GetOatFile oat_file methods s = Returns r s
        /\ forall method,
             method ∈ r <->
             method ∈ methods
             \/ (ContainsMethod method s = Returns true s
                 /\ GetOatFile method = Some oat_file))
  /\ ((exists it, In it (method_code_map_ (cache s)) /\ GetOatFile (snd it) = None) ->
      GetCompiledArtMethods GetOatFile oat_file methods s = Undefined).
Proof.
  assert (Hcontains : forall method,
    ContainsMethod method s = Returns true s
    <-> exists code_ptr, In (code_ptr, method) (method_code_map_ (cache s))).
  { intros method. rewrite <- ContainsMethod_loop_spec.
    unfold ContainsMethod, mbind, M_bind, bind, get, ret.
    destruct (ContainsMethod_loop method _); split; congruence. }
  split; [|split].
  - intros method. exists (ContainsMethod_loop method (method_code_map_ (cache s))).
    split; [reflexivity | apply ContainsMethod_loop_spec].
  - intros Hall.
    destruct (GetCompiledArtMethods_loop_spec oat_file _ methods Hall) as (r & Hloop & Hr).
    exists r. split.
    + unfold GetCompiledArtMethods, mbind, M_bind, bind, get. rewrite Hloop. reflexivity.
    + intros method. rewrite Hr, Hcontains. reflexivity.
  - intros Hnull. unfold GetCompiledArtMethods, mbind, M_bind, bind, get.
    rewrite (GetCompiledArtMethods_loop_null oat_file _ methods Hnull). reflexivity.
Qed.

End QueryProperties.

Lemma compiled_methods_of_an_oat_file_witness :
  exists r,
    GetCompiledArtMethods Scenario.oat_file_of 7 ∅ Reference.compiled_twice
    = Returns r Reference.compiled_twice
    /\ (1 ∈ r) /\ ~ (2 ∈ r)
    /\ ContainsMethod 1 Reference.compiled_twice = Returns true Reference.compiled_twice.
Proof.
  destruct (compiled_methods_of_an_oat_file Scenario.oat_file_of
              Reference.compiled_twice 7 ∅) as (Hcontains & Hget & _).
  destruct Hget as (r & Hrun & Hr).
  { intros it Hin. unfold Scenario.oat_file_of. discriminate. }
  assert (H1 : ContainsMethod 1 Reference.compiled_twice
               = Returns true Reference.compiled_twice) by (vm_compute; reflexivity).
  exists r. split; [exact Hrun|]. split; [|split; [|exact H1]].
  - apply Hr. right. split; [exact H1 | reflexivity].
  - intros Hin. apply Hr in Hin as [Hin | (Hc & _)].
    + apply elem_of_empty in Hin. exact Hin.
    + vm_compute in Hc. discriminate Hc.
Defined.

(** ** Creating the JIT *)

Section JitCreate.
Context `{!Mspace} (P : Platform).
Context (MapAnonymous : string -> Z -> MemMap + string).
Context (RemapAtEnd : MemMap -> Z -> string -> (MemMap * MemMap) + string).
Context (PrettySize : Z -> string).
Context (kIsDebugBuild : bool) (L : Loader).

(** The calls of a complete load. *)
Lemma LoadCompiler_loads (j : Jit) (handle compiler_handle : Z) :
  loads kIsDebugBuild L handle compiler_handle ->
  exists j',
    LoadCompiler kIsDebugBuild L j
    = Build_Loaded j' true None
        [DlOpen (library_name kIsDebugBuild); DlSym handle "jit_load";
         DlSym handle "jit_unload"; DlSym handle "jit_compile_method"; JitLoad]
    /\ jit_library_handle_ j' = Some handle
    /\ jit_compiler_handle_ j' = Some compiler_handle
    /\ jit_load_ j' <> None /\ jit_unload_ j' <> None /\ jit_compile_method_ j' <> None
    /\ compiler_callbacks_ j' <> None
    /\ dump_info_on_shutdown_ j' = dump_info_on_shutdown_ j
    /\ code_cache_ j' = code_cache_ j
    /\ offline_profile_info_ j' = offline_profile_info_ j.
Proof.
  intros (Hopen & Hload & Hunload & Hcompile & Hhandle & Hcallbacks).
  unfold LoadCompiler. cbn. rewrite Hopen. cbn.
  destruct (dlsym L handle "jit_load") eqn:E1; [|congruence]. cbn.
  destruct (dlsym L handle "jit_unload") eqn:E2; [|congruence]. cbn.
  destruct (dlsym L handle "jit_compile_method") eqn:E3; [|congruence]. cbn.
  rewrite Hhandle. cbn.
  destruct (snd (jit_load L)) eqn:E4; [|congruence].
  eexists. split; [reflexivity|]. cbn.
  repeat split; congruence.
Qed.

(** The calls of a load that finds the library but not all it needs: the
    library is closed. *)
Lemma LoadCompiler_lacks (j : Jit) (handle : Z) :
  lacks kIsDebugBuild L handle ->
  jit_compiler_handle_ j = None ->
  exists j' msg looked_up,
    LoadCompiler kIsDebugBuild L j
    = Build_Loaded j' false (Some msg) (looked_up ++ [DlClose handle])
    /\ jit_library_handle_ j' = Some handle
    /\ jit_compiler_handle_ j' = None
    /\ dump_info_on_shutdown_ j' = dump_info_on_shutdown_ j
    /\ code_cache_ j' = code_cache_ j
    /\ count_occ LoaderCall_eq_dec looked_up (DlClose handle) = 0%nat
    /\ (forall h, count_occ LoaderCall_eq_dec looked_up (JitUnload h) = 0%nat).
Proof.
  intros (Hopen & Hlack) Hnone.
  unfold LoadCompiler. cbn. rewrite Hopen. cbn.
  destruct (dlsym L handle "jit_load") eqn:E1; cbn.
  2: { eexists _, _, [_; _]. split; [reflexivity|]. repeat split; assumption. }
  destruct (dlsym L handle "jit_unload") eqn:E2; cbn.
  2: { eexists _, _, [_; _; _]. split; [reflexivity|]. repeat split; assumption. }
  destruct (dlsym L handle "jit_compile_method") eqn:E3; cbn.
  2: { eexists _, _, [_; _; _; _]. split; [reflexivity|]. repeat split; assumption. }
  destruct (fst (jit_load L)) eqn:E4; cbn.
  2: { eexists _, _, [_; _; _; _; _]. split; [reflexivity|]. repeat split. }
  destruct (snd (jit_load L)) eqn:E5; cbn.
  { exfalso. destruct Hlack as [? | [? | [? | [? | ?]]]]; congruence. }
  eexists _, _, [_; _; _; _; _]. split; [reflexivity|]. repeat split.
Qed.


(** [Jit::Create] after its call of [LoadCompiler]. *)
Lemma Jit_Create_load_failed (options : JitOptions) j' msg calls :
  LoadCompiler kIsDebugBuild L
    (set_dump_info_on_shutdown_ (options_dump_info_on_shutdown_ options) Jit_new)
  = Build_Loaded j' false msg calls ->
  Jit_Create P MapAnonymous RemapAtEnd PrettySize kIsDebugBuild L options
  = Jit_Create_fail j' msg calls.
Proof. intros E. unfold Jit_Create. rewrite E. reflexivity. Qed.

Lemma Jit_Create_loaded (options : JitOptions) j' msg calls :
  LoadCompiler kIsDebugBuild L
    (set_dump_info_on_shutdown_ (options_dump_info_on_shutdown_ options) Jit_new)
  = Build_Loaded j' true msg calls ->
  Jit_Create P MapAnonymous RemapAtEnd PrettySize kIsDebugBuild L options
  = match Create P MapAnonymous RemapAtEnd PrettySize
            (code_cache_initial_capacity_ options) (code_cache_max_capacity_ options) with
    | CreateAborted => (JitAborted, calls)
    | CreateFailed error_msg => Jit_Create_fail j' (Some error_msg) calls
    | Created c =>
        (JitCreated
           (set_offline_profile_info_ (save_profiling_info_ options)
              (set_code_cache_ (Some c) j')),
         calls)
    end.
Proof. intros E. unfold Jit_Create. rewrite E. reflexivity. Qed.

Lemma LoadCompiler_no_library (j : Jit) :
  dlopen L (library_name kIsDebugBuild) = None ->
  LoadCompiler kIsDebugBuild L j
  = Build_Loaded (set_jit_library_handle_ None j) false
      (Some ("JIT could not load libart-compiler.so: " +:+ dlerror L))
      [DlOpen (library_name kIsDebugBuild)].
Proof. intros Hopen. unfold LoadCompiler. cbn. rewrite Hopen. reflexivity. Qed.

(** Once the library is open it either lacks something or loads. *)
Lemma classic_loader (handle : Z) :
  dlopen L (library_name kIsDebugBuild) = Some handle ->
  lacks kIsDebugBuild L handle
  \/ exists compiler_handle, loads kIsDebugBuild L handle compiler_handle.
Proof.
  intros Hopen. unfold lacks, loads.
  destruct (dlsym L handle "jit_load"); [|left; tauto].
  destruct (dlsym L handle "jit_unload"); [|left; tauto].
  destruct (dlsym L handle "jit_compile_method"); [|left; tauto].
  destruct (fst (jit_load L)) as [ch|]; [|left; tauto].
  destruct (snd (jit_load L)); [|left; tauto].
  right. exists ch. repeat split; congruence.
Qed.

(** X13. A [Jit] that [Create] returns is complete: the library is open, the
    three entry points, the compiler handle and the callbacks are set (so
    that [CompileMethod] may call [jit_compile_method_] without a check), and
    it owns the code cache that [JitCodeCache::Create] built for the
    capacities of the options; nothing was closed or unloaded on the way. *)
Theorem created_jit_is_complete (options : JitOptions) (j : Jit) (calls : list LoaderCall) :
  Jit_Create P MapAnonymous RemapAtEnd PrettySize kIsDebugBuild L options
  = (JitCreated j, calls) ->
  (exists handle compiler_handle,
     loads kIsDebugBuild L handle compiler_handle
     /\ jit_library_handle_ j = Some handle
     /\ jit_compiler_handle_ j = Some compiler_handle
     /\ calls = [DlOpen (library_name kIsDebugBuild); DlSym handle "jit_load";
                 DlSym handle "jit_unload"; DlSym handle "jit_compile_method"; JitLoad])
  /\ jit_load_ j <> None /\ jit_unload_ j <> None /\ jit_compile_method_ j <> None
  /\ compiler_callbacks_ j <> None
  /\ dump_info_on_shutdown_ j = options_dump_info_on_shutdown_ options
  /\ offline_profile_info_ j = save_profiling_info_ options
  /\ exists c,
       code_cache_ j = Some c
       /\ Create P MapAnonymous RemapAtEnd PrettySize
            (code_cache_initial_capacity_ options) (code_cache_max_capacity_ options)
          = Created c.
Proof.
  set (j0 := set_dump_info_on_shutdown_ (options_dump_info_on_shutdown_ options) Jit_new).
  assert (Hfail : forall j' msg calls',
    Jit_Create_fail j' msg calls' <> (JitCreated j, calls)).
  { intros j' msg calls'. unfold Jit_Create_fail. destruct (Jit_delete j'); discriminate. }
  destruct (dlopen L (library_name kIsDebugBuild)) as [handle|] eqn:Hopen.
  2: { rewrite (Jit_Create_load_failed options _ _ _ (LoadCompiler_no_library j0 Hopen)).
       intros E. destruct (Hfail _ _ _ E). }
  destruct (classic_loader handle Hopen) as [Hlacks | (compiler_handle & Hloads)].
  { destruct (LoadCompiler_lacks j0 handle Hlacks eq_refl) as (j' & msg & looked & E & _).
    rewrite (Jit_Create_load_failed options _ _ _ E).
    intros E'. destruct (Hfail _ _ _ E'). }
  destruct (LoadCompiler_loads j0 handle compiler_handle Hloads)
    as (j' & E & Hlib & Hch & Hl & Hu & Hc & Hcb & Hdump & Hcache & Hoff).
  rewrite (Jit_Create_loaded options _ _ _ E).
  destruct (Create _ _ _ _ _ _) as [| msg | c] eqn:Hcreate.
  - discriminate.
  - intros E'. destruct (Hfail _ _ _ E').
  - intros [= <- <-]. cbn.
    split; [exists handle, compiler_handle; auto|].
    repeat (split; [assumption|]).
    split; [reflexivity|]. exists c. split; reflexivity.
Qed.

Lemma count_occ_app_last (l : list LoaderCall) (x y : LoaderCall) :
  count_occ LoaderCall_eq_dec (l ++ [y]) x
  = (count_occ LoaderCall_eq_dec l x + (if decide (y = x) then 1 else 0))%nat.
Proof.
  rewrite count_occ_app. simpl. destruct (LoaderCall_eq_dec y x); destruct (decide (y = x));
    try reflexivity; contradiction.
Qed.

(** X14. How a failed [Jit::Create] cleans up when it does not dump on
    shutdown.  When the library cannot be opened, the error names it and
    nothing is closed.  When the library is open but lacks an entry point, a
    compiler handle or the callbacks, [LoadCompiler] closes it and the
    destructor, which finds the handle still set, closes it a second time;
    the compiler is not unloaded.  When the code cache cannot be created, the
    error is the one of [JitCodeCache::Create], the compiler is unloaded once
    and the library closed once. *)
Theorem failed_jit_create_closes_library (options : JitOptions) :
  options_dump_info_on_shutdown_ options = false ->
  let created := Jit_Create P MapAnonymous RemapAtEnd PrettySize kIsDebugBuild L options in
  (dlopen L (library_name kIsDebugBuild) = None ->
   created
   = (JitFailed (Some ("JIT could not load libart-compiler.so: " +:+ dlerror L)),
      [DlOpen (library_name kIsDebugBuild)]))
  /\ (forall handle,
        lacks kIsDebugBuild L handle ->
        exists msg,
          fst created = JitFailed (Some msg)
          /\ count_occ LoaderCall_eq_dec (snd created) (DlClose handle) = 2%nat
          /\ forall h, count_occ LoaderCall_eq_dec (snd created) (JitUnload h) = 0%nat)
  /\ (forall handle compiler_handle msg,
        loads kIsDebugBuild L handle compiler_handle ->
        Create P MapAnonymous RemapAtEnd PrettySize
          (code_cache_initial_capacity_ options) (code_cache_max_capacity_ options)
        = CreateFailed msg ->
        fst created = JitFailed (Some msg)
        /\ count_occ LoaderCall_eq_dec (snd created) (DlClose handle) = 1%nat
        /\ count_occ LoaderCall_eq_dec (snd created) (JitUnload compiler_handle) = 1%nat).
Proof.
  intros Hdump created. subst created.
  set (j0 := set_dump_info_on_shutdown_ (options_dump_info_on_shutdown_ options) Jit_new).
  assert (Hd0 : dump_info_on_shutdown_ j0 = false) by exact Hdump.
  split; [|split].
  - intros Hopen.
    rewrite (Jit_Create_load_failed options _ _ _ (LoadCompiler_no_library j0 Hopen)).
    unfold Jit_Create_fail, Jit_delete. cbn. rewrite Hdump. reflexivity.
  - intros handle Hlacks.
    destruct (LoadCompiler_lacks j0 handle Hlacks eq_refl)
      as (j' & msg & looked & E & Hlib & Hch & Hd & _ & Hclose & Hunload).
    rewrite (Jit_Create_load_failed options _ _ _ E).
    unfold Jit_Create_fail, Jit_delete. rewrite Hd, Hd0, Hlib, Hch.
    cbn [fst snd app].
    exists msg. split; [reflexivity|]. split.
    + rewrite !count_occ_app_last, Hclose.
      destruct (decide (DlClose handle = DlClose handle)); [reflexivity | contradiction].
    + intros h. rewrite !count_occ_app_last, Hunload.
      destruct (decide (DlClose handle = JitUnload h)); [discriminate | reflexivity].
  - intros handle compiler_handle msg Hloads Hcreate.
    destruct (LoadCompiler_loads j0 handle compiler_handle Hloads)
      as (j' & E & Hlib & Hch & _ & _ & _ & _ & Hd & _).
    rewrite (Jit_Create_loaded options _ _ _ E), Hcreate.
    unfold Jit_Create_fail, Jit_delete. rewrite Hd, Hd0, Hlib, Hch.
    cbn [fst snd app].
    split; [reflexivity|].
    rewrite !count_occ_cons_neq by discriminate.
    rewrite count_occ_cons_eq by reflexivity.
    split; [reflexivity|].
    rewrite !count_occ_cons_neq by discriminate.
    rewrite count_occ_cons_eq by reflexivity.
    rewrite !count_occ_cons_neq by discriminate. reflexivity.
Qed.

(** X15. With the dump on shutdown switched on, a [Jit::Create] that fails
    does not come back with its error: the destructor of the half-built
    object calls [DumpInfo], which goes through the null [code_cache_].  This
    is so whether the library cannot be opened, lacks something, or the code
    cache cannot be created. *)
Theorem failed_jit_create_with_dump_dereferences_null (options : JitOptions) :
  options_dump_info_on_shutdown_ options = true ->
  let created := Jit_Create P MapAnonymous RemapAtEnd PrettySize kIsDebugBuild L options in
  (forall msg, fst created <> JitFailed msg)
  /\ (dlopen L (library_name kIsDebugBuild) = None -> fst created = JitCrashed)
  /\ (forall handle, lacks kIsDebugBuild L handle -> fst created = JitCrashed)
  /\ (forall handle compiler_handle msg,
        loads kIsDebugBuild L handle compiler_handle ->
        Create P MapAnonymous RemapAtEnd PrettySize
          (code_cache_initial_capacity_ options) (code_cache_max_capacity_ options)
        = CreateFailed msg ->
        fst created = JitCrashed).
Proof.
  intros Hdump created. subst created.
  set (j0 := set_dump_info_on_shutdown_ (options_dump_info_on_shutdown_ options) Jit_new).
  assert (Hcrash : forall j' (msg : option string) calls,
    dump_info_on_shutdown_ j' = dump_info_on_shutdown_ j0 ->
    code_cache_ j' = code_cache_ j0 ->
    Jit_Create_fail j' msg calls = (JitCrashed, calls)).
  { intros j' msg calls Hd Hc. unfold Jit_Create_fail, Jit_delete.
    rewrite Hd, Hc. subst j0. cbn. rewrite Hdump. reflexivity. }
  assert (Hno_library : dlopen L (library_name kIsDebugBuild) = None ->
    fst (Jit_Create P MapAnonymous RemapAtEnd PrettySize kIsDebugBuild L options)
    = JitCrashed).
  { intros Hopen.
    rewrite (Jit_Create_load_failed options _ _ _ (LoadCompiler_no_library j0 Hopen)).
    rewrite Hcrash by reflexivity. reflexivity. }
  assert (Hlacking : forall handle, lacks kIsDebugBuild L handle ->
    fst (Jit_Create P MapAnonymous RemapAtEnd PrettySize kIsDebugBuild L options)
    = JitCrashed).
  { intros handle Hlacks.
    destruct (LoadCompiler_lacks j0 handle Hlacks eq_refl)
      as (j' & msg & looked & E & _ & _ & Hd & Hc & _).
    rewrite (Jit_Create_load_failed options _ _ _ E).
    rewrite Hcrash by assumption. reflexivity. }
  split; [|split; [exact Hno_library | split; [exact Hlacking|]]].
  - intros msg.
    destruct (dlopen L (library_name kIsDebugBuild)) as [handle|] eqn:Hopen;
      [|rewrite (Hno_library eq_refl); discriminate].
    destruct (classic_loader handle Hopen) as [Hlacks | (compiler_handle & Hloads)];
      [rewrite (Hlacking handle Hlacks); discriminate|].
    destruct (LoadCompiler_loads j0 handle compiler_handle Hloads)
      as (j' & E & _ & _ & _ & _ & _ & _ & Hd & Hc & _).
    rewrite (Jit_Create_loaded options _ _ _ E).
    destruct (Create _ _ _ _ _ _); [discriminate | | discriminate].
    rewrite Hcrash by assumption. discriminate.
  - intros handle compiler_handle msg Hloads Hcreate.
    destruct (LoadCompiler_loads j0 handle compiler_handle Hloads)
      as (j' & E & _ & _ & _ & _ & _ & _ & Hd & Hc & _).
    rewrite (Jit_Create_loaded options _ _ _ E), Hcreate.
    rewrite Hcrash by assumption. reflexivity.
Qed.

End JitCreate.

Lemma created_jit_is_complete_witness :
  exists j calls,
    @Jit_Create Reference.counting_mspace Reference.x86_64 Reference.map_anonymous Reference.remap_at_end
      Reference.pretty_size false Scenario.complete_loader (Scenario.options_16K_64K false)
    = (JitCreated j, calls)
    /\ jit_compile_method_ j <> None
    /\ jit_compiler_handle_ j = Some 700
    /\ code_cache_ j = Some Reference.small_cache.
Proof.
  assert (Hrun : exists j calls,
    @Jit_Create Reference.counting_mspace Reference.x86_64 Reference.map_anonymous Reference.remap_at_end
      Reference.pretty_size false Scenario.complete_loader (Scenario.options_16K_64K false)
    = (JitCreated j, calls)) by (eexists _, _; vm_compute; reflexivity).
  destruct Hrun as (j & calls & Hrun). exists j, calls. split; [exact Hrun|].
  destruct (@created_jit_is_complete Reference.counting_mspace Reference.x86_64 Reference.map_anonymous
              Reference.remap_at_end Reference.pretty_size false Scenario.complete_loader
              (Scenario.options_16K_64K false) j calls Hrun)
    as ((handle & compiler_handle & Hloads & _ & Hch & _) & _ & _ & Hcompile & _ & _ & _
        & c & Hcache & Hcreate).
  split; [exact Hcompile|]. split.
  - rewrite Hch. destruct Hloads as (_ & _ & _ & _ & Hhandle & _).
    symmetry. exact Hhandle.
  - rewrite Hcache. change (code_cache_initial_capacity_ (Scenario.options_16K_64K false))
      with 16384 in Hcreate.
    change (code_cache_max_capacity_ (Scenario.options_16K_64K false)) with 65536 in Hcreate.
    rewrite created_small_cache in Hcreate. injection Hcreate as <-. reflexivity.
Defined.

Lemma failed_jit_create_closes_library_witness :
  options_dump_info_on_shutdown_ (Scenario.options_16K_64K false) = false
  /\ lacks false Scenario.loader_without_unload 500
  /\ exists msg,
       fst (@Jit_Create Reference.counting_mspace Reference.x86_64 Reference.map_anonymous Reference.remap_at_end
              Reference.pretty_size false Scenario.loader_without_unload
              (Scenario.options_16K_64K false))
       = JitFailed (Some msg)
       /\ count_occ LoaderCall_eq_dec
            (snd (@Jit_Create Reference.counting_mspace Reference.x86_64 Reference.map_anonymous Reference.remap_at_end
                    Reference.pretty_size false Scenario.loader_without_unload
                    (Scenario.options_16K_64K false)))
            (DlClose 500) = 2%nat.
Proof.
  assert (Hlacks : lacks false Scenario.loader_without_unload 500).
  { split; [reflexivity|]. right. left. reflexivity. }
  split; [reflexivity|]. split; [exact Hlacks|].
  destruct (@failed_jit_create_closes_library Reference.counting_mspace Reference.x86_64 Reference.map_anonymous
              Reference.remap_at_end Reference.pretty_size false
              Scenario.loader_without_unload (Scenario.options_16K_64K false) eq_refl)
    as (_ & Hlacking & _).
  destruct (Hlacking 500 Hlacks) as (msg & Hfailed & Hclosed & _).
  exists msg. split; [exact Hfailed | exact Hclosed].
Defined.

Lemma failed_jit_create_with_dump_dereferences_null_witness :
  options_dump_info_on_shutdown_ (Scenario.options_too_big true) = true
  /\ loads false Scenario.complete_loader 500 700
  /\ fst (@Jit_Create Reference.counting_mspace Reference.x86_64 Reference.map_anonymous Reference.remap_at_end
            Reference.pretty_size false Scenario.complete_loader
            (Scenario.options_too_big true))
     = JitCrashed.
Proof.
  assert (Hloads : loads false Scenario.complete_loader 500 700).
  { repeat split; discriminate. }
  split; [reflexivity|]. split; [exact Hloads|].
  destruct (@failed_jit_create_with_dump_dereferences_null Reference.counting_mspace Reference.x86_64
              Reference.map_anonymous Reference.remap_at_end Reference.pretty_size false
              Scenario.complete_loader (Scenario.options_too_big true) eq_refl)
    as (_ & _ & _ & Hcache).
  apply (Hcache 500 700
           "Maxium code cache capacity is limited to 1 GB, 2147483648B is too big" Hloads).
  vm_compute. reflexivity.
Defined.

(** ** Extending a region *)

Section MoreCoreProperties.
Context `{!Mspace} (P : Platform).

Lemma MoreCore_other (c : JitCodeCache) (sp sp' : Space) (increment : Z) (b : Breaks) :
  sp' <> sp -> break_of sp (snd (MoreCore P c sp' increment b)) = break_of sp b.
Proof. destruct sp, sp'; simpl; congruence. Qed.

Lemma MoreCore_calls_other (c : JitCodeCache) (sp : Space) (l : list (Space * Z))
    (b : Breaks) :
  Forall (fun call => fst call <> sp) l ->
  break_of sp (snd (MoreCore_calls P c l b)) = break_of sp b.
Proof.
  revert b. induction l as [|[sp' increment] l IH]; intros b Hall; [reflexivity|].
  inversion Hall as [|? ? Hne Hrest]; subst. simpl in Hne.
  cbn [MoreCore_calls].
  destruct (MoreCore P c sp' increment b) as [r b1] eqn:E1.
  destruct (MoreCore_calls P c l b1) as [rs b2] eqn:E2.
  cbn [snd]. change b2 with (snd (rs, b2)). rewrite <- E2. rewrite (IH b1 Hrest).
  change b1 with (snd (r, b1)). rewrite <- E1. apply MoreCore_other. exact Hne.
Qed.

(** X16. [MoreCore] extends each region contiguously and never refuses.  A
    call returns the address at which the region ended so far, the first one
    the end of the part given to [create_mspace_with_base]; the next call for
    the same region returns the address just past the block of this one,
    whatever was asked for the other region in between (the offset staying
    within [size_t]); and a call with a zero increment changes nothing. *)
Theorem MoreCore_extends_each_region_contiguously
    (c : JitCodeCache) (sp : Space) (increment increment' : Z)
    (others : list (Space * Z)) (b : Breaks) :
  Forall (fun call => fst call <> sp) others ->
  0 <= break_of sp b + increment < 2 ^ kBitsPerSizeT (kRuntimeISA P) ->
  let first := MoreCore P c sp increment b in
  let between := MoreCore_calls P c others (snd first) in
  let second := MoreCore P c sp increment' (snd between) in
  fst first = region_begin c sp + break_of sp b
  /\ fst second = fst first + increment
  /\ (increment = 0 -> snd first = b)
  /\ forall initial_code_capacity initial_data_capacity,
       b = Breaks_new initial_code_capacity initial_data_capacity ->
       fst first
       = region_begin c sp
         + match sp with
           | CodeSpace => initial_code_capacity
           | DataSpace => initial_data_capacity
           end.
Proof.
  intros Hothers Hrange first between second.
  assert (Hfirst : fst first = region_begin c sp + break_of sp b).
  { subst first. destruct sp; simpl; lia. }
  assert (Hbreak : break_of sp (snd first) = break_of sp b + increment).
  { subst first. destruct sp; simpl in *; unfold size_t_wrap;
      apply Z.mod_small; exact Hrange. }
  split; [exact Hfirst|]. split; [|split].
  - assert (Hsecond : fst second = region_begin c sp + break_of sp (snd between)).
    { subst second. destruct sp; simpl; lia. }
    rewrite Hsecond. subst between. rewrite (MoreCore_calls_other c sp others _ Hothers).
    rewrite Hbreak, Hfirst. lia.
  - intros ->. subst first. rewrite Z.add_0_r in Hrange.
    destruct sp, b as [ce de]; simpl in *; unfold size_t_wrap;
      rewrite Z.add_0_r, Z.mod_small by exact Hrange; reflexivity.
  - intros ic dc ->. rewrite Hfirst. destruct sp; reflexivity.
Qed.

End MoreCoreProperties.

Lemma MoreCore_extends_each_region_contiguously_witness :
  let b := Breaks_new 8192 8192 in
  let first := MoreCore Reference.x86_64 Reference.small_cache CodeSpace 4096 b in
  let between :=
    MoreCore_calls Reference.x86_64 Reference.small_cache [(DataSpace, 4096)] (snd first) in
  let second := MoreCore Reference.x86_64 Reference.small_cache CodeSpace 4096 (snd between) in
  fst first = 98304 + 8192 /\ fst second = 98304 + 8192 + 4096.
Proof.
  intros b first between second.
  destruct (MoreCore_extends_each_region_contiguously Reference.x86_64
              Reference.small_cache CodeSpace 4096 4096 [(DataSpace, 4096)] b)
    as (Hfirst & Hsecond & _).
  - constructor; [discriminate | constructor].
  - vm_compute. split; [discriminate | reflexivity].
  - split; [exact Hfirst|]. rewrite Hfirst in Hsecond. exact Hsecond.
Defined.

(** ** A new profiling info *)

Section NewProfilingInfo.
Context `{!Mspace} (P : Platform).

Lemma AddProfilingInfoInternal_cases (method : Z) (entries : list Z) (s : State) :
  idle s ->
  match GetProfilingInfo (methods s !!! method) with
  | Some info => AddProfilingInfoInternal P method entries s = Returns (Some info) s
  | None =>
      match mspace_malloc (data_mspace_ (cache s)) (profile_info_size P entries) with
      | Some (d, dms) =>
          AddProfilingInfoInternal P method entries s
          = Returns (Some d) (attached_state P method entries s d dms)
      | None =>
          AddProfilingInfoInternal P method entries s
          = Returns None
              (with_calls (cons (EvAlloc DataSpace (profile_info_size P entries) None)) s)
      end
  end.
Proof.
  unfold idle. intros Hidle.
  destruct (GetProfilingInfo (methods s !!! method)) as [info|] eqn:Hinfo;
    [|destruct (mspace_malloc _ _) as [[d dms]|] eqn:E];
    unfold AddProfilingInfoInternal, mbind, M_bind, bind,
      WaitForPotentialCollectionToComplete, get, malloc_data, modify,
      method_SetProfilingInfo, modify, ret;
    rewrite Hidle, Hinfo; [reflexivity | |];
    fold (profile_info_size P entries); rewrite E; [|reflexivity].
  destruct s as [c ms hs objs evs]. destruct c. reflexivity.
Qed.

Lemma reset_entries_jni (bridge : Z) (l : Catalog) (ms : gmap Z ArtMethod) (m : Z) :
  entry_point_from_jni_ (fold_left (reset_entry bridge) l ms !!! m)
  = entry_point_from_jni_ (ms !!! m).
Proof.
  revert ms. induction l as [|it l IH]; intros ms; simpl; [reflexivity|].
  rewrite IH. unfold reset_entry. destruct (decide (snd it = m)) as [<- | Hne].
  - rewrite lookup_total_insert_eq. reflexivity.
  - rewrite lookup_total_insert_ne by exact Hne. reflexivity.
Qed.

(** A collection attaches nothing. *)
Lemma GarbageCollectCache_keeps_detached (stacks : list (list (option Z)))
    (s s' : State) (m : Z) :
  idle s ->
  GetProfilingInfo (methods s !!! m) = None ->
  GarbageCollectCache P stacks s = Returns tt s' ->
  GetProfilingInfo (methods s' !!! m) = None.
Proof.
  intros Hidle Hnone Hrun.
  destruct (takes_growth_shortcut (cache s)) eqn:Hg.
  - rewrite (GarbageCollectCache_grows P s stacks Hidle Hg) in Hrun.
    injection Hrun as <-. exact Hnone.
  - destruct (GarbageCollectCache_collects P s stacks Hidle Hg) as (cms & dms & Hc).
    rewrite Hc in Hrun. injection Hrun as <-. simpl.
    unfold GetProfilingInfo. rewrite sweep_methods_jni.
    apply detach_infos_stays. unfold GetProfilingInfo. rewrite reset_entries_jni.
    exact Hnone.
Qed.

(** X17. [AddProfilingInfo] for a method that has no profiling info, called
    on an idle cache.  It returns.  An info it returns is new: it is the
    block the newest call of the allocator obtained from the data region, of
    the size computed from the number of entries; it records the method and
    the entries, it is listed last in [profiling_infos_], and the method
    points to it.  Without [retry_allocation] there is exactly one call of
    the allocator and no collection, whatever the outcome; with it there is
    at most one collection. *)
Theorem new_profiling_info_is_registered
    (stacks : list (list (option Z))) (method : Z) (entries : list Z)
    (retry_allocation : bool) (s : State) :
  idle s ->
  GetProfilingInfo (methods s !!! method) = None ->
  exists r s' evs,
    AddProfilingInfo P stacks method entries retry_allocation s = Returns r s'
    /\ calls s' = evs ++ calls s
    /\ (count_events is_collect evs <= 1)%nat
    /\ (retry_allocation = false ->
        evs = [EvAlloc DataSpace (profile_info_size P entries) r])
    /\ forall info,
         r = Some info ->
         (exists evs0,
            evs = EvAlloc DataSpace (profile_info_size P entries) (Some info) :: evs0)
         /\ infos s' !!! info = {| method_ := method; cache_ := entries |}
         /\ GetProfilingInfo (methods s' !!! method) = Some info
         /\ exists listed, profiling_infos_ (cache s') = listed ++ [info].
Proof.
  intros Hidle Hnone.
  assert (Hnew : forall s0 d dms,
    infos (attached_state P method entries s0 d dms) !!! d
    = {| method_ := method; cache_ := entries |}
    /\ GetProfilingInfo (methods (attached_state P method entries s0 d dms) !!! method)
       = Some d
    /\ exists listed,
         profiling_infos_ (cache (attached_state P method entries s0 d dms))
         = listed ++ [d]).
  { intros s0 d dms. simpl. rewrite !lookup_total_insert_eq.
    split; [reflexivity|]. split; [reflexivity|]. eexists. reflexivity. }
  unfold AddProfilingInfo, mbind, M_bind. unfold bind at 1.
  pose proof (AddProfilingInfoInternal_cases method entries s Hidle) as H1.
  rewrite Hnone in H1.
  destruct (mspace_malloc (data_mspace_ (cache s)) _) as [[d dms]|]; rewrite H1.
  - eexists (Some d), (attached_state P method entries s d dms), [_].
    split; [reflexivity|]. split; [reflexivity|].
    split; [unfold count_events; simpl; lia|]. split; [reflexivity|].
    intros info [= <-]. split; [exists []; reflexivity | apply Hnew].
  - destruct retry_allocation.
    2: { eexists None, _, [_]. split; [reflexivity|]. split; [reflexivity|].
         split; [unfold count_events; simpl; lia|]. split; [reflexivity|].
         discriminate. }
    unfold bind at 1.
    set (s1 := with_calls _ s).
    assert (Hidle1 : idle s1) by exact Hidle.
    destruct (GarbageCollectCache_run P stacks s1 Hidle1)
      as (s2 & frees & Hgc & Hcalls2 & Hfrees & Hidle2 & _).
    rewrite Hgc.
    assert (Hnone2 : GetProfilingInfo (methods s2 !!! method) = None)
      by (eapply GarbageCollectCache_keeps_detached; [exact Hidle1 | exact Hnone | exact Hgc]).
    pose proof (AddProfilingInfoInternal_cases method entries s2 Hidle2) as H2.
    rewrite Hnone2 in H2.
    assert (Hcount : forall res,
      (count_events is_collect
         (EvAlloc DataSpace (profile_info_size P entries) res
          :: frees ++ [EvCollect; EvAlloc DataSpace (profile_info_size P entries) None])
       <= 1)%nat).
    { intros res.
      change (EvAlloc DataSpace (profile_info_size P entries) res :: frees ++ ?l)
        with ([EvAlloc DataSpace (profile_info_size P entries) res] ++ frees ++ l).
      rewrite !count_events_app, (count_events_frees is_collect frees) by auto.
      unfold count_events. simpl. lia. }
    destruct (mspace_malloc (data_mspace_ (cache s2)) _) as [[d dms]|]; rewrite H2.
    + eexists (Some d), _, (_ :: frees ++ [EvCollect; _]).
      split; [reflexivity|]. split.
      { simpl. rewrite Hcalls2. simpl. rewrite <- app_assoc. reflexivity. }
      split; [apply Hcount|]. split; [discriminate|].
      intros info [= <-]. split; [eexists; reflexivity | apply Hnew].
    + eexists None, _, (_ :: frees ++ [EvCollect; _]).
      split; [reflexivity|]. split.
      { simpl. rewrite Hcalls2. simpl. rewrite <- app_assoc. reflexivity. }
      split; [apply Hcount|]. split; discriminate.
Qed.

End NewProfilingInfo.

Lemma new_profiling_info_is_registered_witness :
  let s := Reference.in_empty_memory Reference.small_cache in
  idle s
  /\ GetProfilingInfo (methods s !!! 1) = None
  /\ exists s',
       AddProfilingInfo Reference.x86_64 [] 1 [7; 8] false s = Returns (Some 65536) s'
       /\ calls s' = [EvAlloc DataSpace 112 (Some 65536)]
       /\ infos s' !!! 65536 = {| method_ := 1; cache_ := [7; 8] |}
       /\ GetProfilingInfo (methods s' !!! 1) = Some 65536.
Proof.
  intros s.
  assert (Hidle : idle s) by reflexivity.
  assert (Hnone : GetProfilingInfo (methods s !!! 1) = None) by reflexivity.
  split; [exact Hidle|]. split; [exact Hnone|].
  destruct (new_profiling_info_is_registered Reference.x86_64 [] 1 [7; 8] false s
              Hidle Hnone) as (r & s' & evs & Hrun & Hcalls & _ & Hone & Hinfo).
  assert (Hr : r = Some 65536).
  { assert (Hc : exists s0, AddProfilingInfo Reference.x86_64 [] 1 [7; 8] false s
                            = Returns (Some 65536) s0) by (eexists; vm_compute; reflexivity).
    destruct Hc as (s0 & Hc). rewrite Hc in Hrun. injection Hrun as <- _. reflexivity. }
  subst r. exists s'. split; [exact Hrun|].
  destruct (Hinfo 65536 eq_refl) as (_ & Hobj & Hattached & _).
  split; [|split; assumption].
  rewrite Hcalls, (Hone eq_refl). reflexivity.
Defined.

(** ** While a collection is in progress *)

Section DuringCollection.
Context `{!Mspace} (P : Platform).

(** X18. While a collection is in progress no allocation is served: a commit,
    a reservation of data, the attachment of a profiling info (even for a
    method that has one), a compilation that has a code generator and a
    second collection all wait for it to end.  The calls that take nothing
    from the allocator do not wait: giving data back, unloading, and the
    queries. *)
Theorem allocation_waits_for_collection (s : State) :
  collection_in_progress_ (cache s) = true ->
  (forall stacks a, CommitCode P stacks a s = Waits)
  /\ (forall stacks size, ReserveData P stacks size s = Waits)
  /\ (forall stacks method entries retry,
        AddProfilingInfo P stacks method entries retry s = Waits)
  /\ (forall stacks_data stacks_code method codegen,
        JitCompile P stacks_data stacks_code method (Some codegen) s = Waits)
  /\ (forall stacks, GarbageCollectCache P stacks s = Waits)
  /\ (forall data, exists s', ClearData data s = Returns tt s')
  /\ (forall alloc, exists s', RemoveMethodsIn P alloc s = Returns tt s')
  /\ (forall pc, LookupMethodHeader P pc s <> Waits)
  /\ (forall method, exists b, ContainsMethod method s = Returns b s).
Proof.
  intros Hbusy.
  assert (Hreserve : forall stacks size, ReserveData P stacks size s = Waits).
  { intros stacks size.
    unfold ReserveData, mbind, M_bind, bind, WaitForPotentialCollectionToComplete.
    rewrite Hbusy. reflexivity. }
  split; [|split; [exact Hreserve|split; [|split; [|split; [|split; [|split; [|split]]]]]]].
  - intros stacks a.
    unfold CommitCode, CommitCodeInternal, CommitCode_allocate, mbind, M_bind, bind,
      WaitForPotentialCollectionToComplete.
    rewrite Hbusy. reflexivity.
  - intros stacks method entries retry.
    unfold AddProfilingInfo, AddProfilingInfoInternal, mbind, M_bind, bind,
      WaitForPotentialCollectionToComplete.
    rewrite Hbusy. reflexivity.
  - intros stacks_data stacks_code method codegen.
    unfold JitCompile, mbind, M_bind. unfold bind at 1. rewrite Hreserve. reflexivity.
  - intros stacks.
    unfold GarbageCollectCache, mbind, M_bind, bind, WaitForPotentialCollectionToComplete.
    rewrite Hbusy. reflexivity.
  - intros data. eexists. reflexivity.
  - intros alloc. destruct (RemoveMethodsIn_run P alloc s) as (cms & dms & Hrun).
    eexists. exact Hrun.
  - intros pc.
    unfold LookupMethodHeader, mbind, M_bind, bind, get, ret, undefined.
    destruct (negb _); [discriminate|].
    destruct (method_code_map_ (cache s)); [discriminate|].
    destruct (lower_bound _ _); [discriminate|].
    destruct (nth_error _ _) as [[? ?]|]; [|discriminate].
    destruct (negb _); discriminate.
  - intros method. eexists. reflexivity.
Qed.

End DuringCollection.

Lemma allocation_waits_for_collection_witness :
  let s := scan_state Reference.x86_64 Reference.two_methods in
  collection_in_progress_ (cache s) = true
  /\ CommitCode Reference.x86_64 [] (Reference.plain_code 3 100) s = Waits
  /\ AddProfilingInfo Reference.x86_64 [] 1 [7] false s = Waits
  /\ exists s', RemoveMethodsIn Reference.x86_64 Scenario.loader_of_first s = Returns tt s'.
Proof.
  intros s.
  assert (Hbusy : collection_in_progress_ (cache s) = true) by reflexivity.
  split; [exact Hbusy|].
  destruct (allocation_waits_for_collection Reference.x86_64 s Hbusy)
    as (Hcommit & _ & Hattach & _ & _ & _ & Hunload & _).
  split; [apply Hcommit|]. split; [apply Hattach | apply Hunload].
Defined.

(** ** The number of entries *)

Section NumberOfEntries.
Context `{!Mspace} (P : Platform).

Lemma catalog_Put_length (k v : Z) (cat : Catalog) :
  (length (catalog_Put k v cat) <= S (length cat))%nat.
Proof.
  induction cat as [|[k' v'] t IH]; simpl; [lia|].
  destruct (k <? k'); [simpl; lia|]. destruct (k =? k'); simpl; lia.
Qed.

Lemma catalog_erase_length (k : Z) (cat : Catalog) :
  (length (catalog_erase k cat) <= length cat)%nat.
Proof. unfold catalog_erase. apply List.filter_length_le. Qed.

Lemma fold_left_pointwise {A B} (f g : A -> B -> A) (l : list B) (a : A) :
  (forall a b, f a b = g a b) -> fold_left f l a = fold_left g l a.
Proof.
  intros Hfg. revert a. induction l as [|b l IH]; intros a; simpl; [reflexivity|].
  rewrite Hfg. apply IH.
Qed.

(** Erasing the start addresses of the entries that are not kept leaves the
    entries no erased start address equals. *)
Lemma erase_unless_kept_filter (keep : Z * Z -> bool) (l cat : Catalog) :
  fold_left (fun cat it => if keep it then cat else catalog_erase (fst it) cat) l cat
  = List.filter (fun e => forallb (fun it => keep it || negb (fst it =? fst e)) l) cat.
Proof.
  revert cat. induction l as [|it l IH]; intros cat; cbn [fold_left forallb].
  - induction cat as [|e cat IHc]; simpl; [reflexivity | f_equal; exact IHc].
  - rewrite IH. destruct (keep it) eqn:Ek; cbn [orb andb]; [reflexivity|].
    unfold catalog_erase.
    induction cat as [|e cat IHc]; simpl; [reflexivity|].
    rewrite (Z.eqb_sym (fst e) (fst it)).
    destruct (fst it =? fst e); simpl; [exact IHc|].
    destruct (forallb _ l); [f_equal|]; exact IHc.
Qed.

Lemma sweep_whole_catalog_filter bm (cat : Catalog) :
  sweep_catalog P bm cat cat = List.filter (fun e => entry_live P bm (fst e)) cat.
Proof.
  unfold sweep_catalog.
  rewrite (erase_unless_kept_filter (fun it => entry_live P bm (fst it))).
  apply List.filter_ext_in. intros e Hin.
  destruct (entry_live P bm (fst e)) eqn:Elive.
  - apply forallb_forall. intros it _.
    destruct (Z.eqb_spec (fst it) (fst e)) as [-> | Hne].
    + rewrite Elive. reflexivity.
    + apply orb_true_r.
  - apply not_true_is_false. intros Hall. rewrite forallb_forall in Hall.
    specialize (Hall e Hin). rewrite Elive, Z.eqb_refl in Hall. discriminate.
Qed.

Lemma unload_whole_catalog_filter (alloc : Z -> bool) (cat : Catalog) :
  catalog_sorted cat ->
  unload_catalog alloc cat cat = List.filter (fun e => negb (alloc (snd e))) cat.
Proof.
  intros Hsorted. unfold unload_catalog.
  rewrite (fold_left_pointwise _
             (fun cat it => if negb (alloc (snd it)) then cat
                            else catalog_erase (fst it) cat))
    by (intros a b; destruct (alloc (snd b)); reflexivity).
  rewrite (erase_unless_kept_filter (fun it => negb (alloc (snd it)))).
  apply List.filter_ext_in. intros [k v] Hin. cbn [fst snd].
  destruct (alloc v) eqn:Ea; cbn [negb].
  - apply not_true_is_false. intros Hall. rewrite forallb_forall in Hall.
    specialize (Hall (k, v) Hin). cbn [fst snd] in Hall.
    rewrite Ea, Z.eqb_refl in Hall. discriminate.
  - apply forallb_forall. intros [k' v'] Hin'. cbn [fst snd].
    destruct (Z.eqb_spec k' k) as [-> | Hne]; [|apply orb_true_r].
    rewrite (catalog_sorted_unique cat k v' v Hsorted Hin' Hin), Ea. reflexivity.
Qed.

Lemma GarbageCollectCache_length (stacks : list (list (option Z))) (s s' : State) :
  idle s ->
  GarbageCollectCache P stacks s = Returns tt s' ->
  (length (method_code_map_ (cache s')) <= length (method_code_map_ (cache s)))%nat.
Proof.
  intros Hidle Hrun. destruct (takes_growth_shortcut (cache s)) eqn:Hg.
  - rewrite (GarbageCollectCache_grows P s stacks Hidle Hg) in Hrun.
    injection Hrun as <-. simpl. lia.
  - destruct (GarbageCollectCache_collects P s stacks Hidle Hg) as (cms & dms & Hc).
    rewrite Hc in Hrun. injection Hrun as <-. simpl.
    rewrite sweep_whole_catalog_filter. apply List.filter_length_le.
Qed.

(** X19. What [NumberOfCompiledCode] counts.  A commit adds at most one
    entry, and none when it returns null; a collection adds none, and a
    cycle that marks and sweeps leaves exactly the marked entries, in their
    order; unloading, from a catalog without duplicate start addresses,
    leaves exactly the entries of the methods that stay, in their order. *)
Theorem number_of_compiled_code_counts_entries (s : State) :
  idle s ->
  (forall stacks a r s' n n',
     CommitCode P stacks a s = Returns r s' ->
     NumberOfCompiledCode s = Returns n s ->
     NumberOfCompiledCode s' = Returns n' s' ->
     n' <= n + match r with Some _ => 1 | None => 0 end)
  /\ (forall stacks s' n n',
        GarbageCollectCache P stacks s = Returns tt s' ->
        NumberOfCompiledCode s = Returns n s ->
        NumberOfCompiledCode s' = Returns n' s' ->
        n' <= n
        /\ (takes_growth_shortcut (cache s) = false ->
            method_code_map_ (cache s')
            = List.filter
                (fun e => entry_live P (marked_bitmap P (cache s) stacks) (fst e))
                (method_code_map_ (cache s))))
  /\ (forall alloc s',
        catalog_sorted (method_code_map_ (cache s)) ->
        RemoveMethodsIn P alloc s = Returns tt s' ->
        method_code_map_ (cache s')
        = List.filter (fun e => negb (alloc (snd e))) (method_code_map_ (cache s))
        /\ NumberOfCompiledCode s'
           = Returns
               (Z.of_nat (length (List.filter (fun e => negb (alloc (snd e)))
                                    (method_code_map_ (cache s))))) s').
Proof.
  intros Hidle. unfold NumberOfCompiledCode, get. split; [|split].
  - intros stacks a r s' n n' Hrun [= <-] [= <-].
    unfold CommitCode, mbind, M_bind in Hrun. unfold bind at 1 in Hrun.
    pose proof (CommitCodeInternal_cases P a s Hidle) as H1.
    destruct (mspace_memalign (code_mspace_ (cache s)) _ _) as [[p cms]|];
      rewrite H1 in Hrun.
    + injection Hrun as <- <-. simpl.
      pose proof (catalog_Put_length (p + header_size P) (arg_method a)
                    (method_code_map_ (cache s))). lia.
    + unfold bind at 1 in Hrun.
      match type of Hrun with context [GarbageCollectCache P stacks ?x] =>
        set (s1 := x) in * end.
      assert (Hidle1 : idle s1) by exact Hidle.
      destruct (GarbageCollectCache_run P stacks s1 Hidle1)
        as (s2 & frees & Hgc & _ & _ & Hidle2 & _).
      rewrite Hgc in Hrun.
      pose proof (GarbageCollectCache_length stacks s1 s2 Hidle1 Hgc) as Hlen.
      change (method_code_map_ (cache s1)) with (method_code_map_ (cache s)) in Hlen.
      pose proof (CommitCodeInternal_cases P a s2 Hidle2) as H2.
      destruct (mspace_memalign (code_mspace_ (cache s2)) _ _) as [[p cms]|];
        rewrite H2 in Hrun; injection Hrun as <- <-; simpl.
      * pose proof (catalog_Put_length (p + header_size P) (arg_method a)
                      (method_code_map_ (cache s2))). lia.
      * lia.
  - intros stacks s' n n' Hrun [= <-] [= <-]. split.
    + pose proof (GarbageCollectCache_length stacks s s' Hidle Hrun). lia.
    + intros Hg.
      destruct (GarbageCollectCache_collects P s stacks Hidle Hg) as (cms & dms & Hc).
      rewrite Hc in Hrun. injection Hrun as <-. simpl.
      apply sweep_whole_catalog_filter.
  - intros alloc s' Hsorted Hrun.
    destruct (RemoveMethodsIn_run P alloc s) as (cms & dms & Hu).
    rewrite Hu in Hrun. injection Hrun as <-. simpl.
    rewrite (unload_whole_catalog_filter alloc _ Hsorted). split; reflexivity.
Qed.

End NumberOfEntries.

Lemma number_of_compiled_code_counts_entries_witness :
  idle Reference.two_methods
  /\ NumberOfCompiledCode Reference.two_methods = Returns 2 Reference.two_methods
  /\ (let s' := Reference.after (GarbageCollectCache Reference.x86_64 Reference.second_running)
                  Reference.two_methods in
      method_code_map_ (cache s') = [(98480, 2)]
      /\ NumberOfCompiledCode s' = Returns 1 s')
  /\ (let s' := Reference.after (RemoveMethodsIn Reference.x86_64 Scenario.loader_of_first)
                  Reference.two_methods in
      NumberOfCompiledCode s' = Returns 1 s').
Proof.
  assert (Hidle : idle Reference.two_methods) by reflexivity.
  split; [exact Hidle|]. split; [reflexivity|].
  destruct (number_of_compiled_code_counts_entries Reference.x86_64 Reference.two_methods
              Hidle) as (_ & Hgc & Hunload).
  split.
  - intros s'.
    assert (Hrun : GarbageCollectCache Reference.x86_64 Reference.second_running
                     Reference.two_methods = Returns tt s') by (vm_compute; reflexivity).
    destruct (Hgc Reference.second_running s' 2 (Z.of_nat (length (method_code_map_ (cache s'))))
                Hrun eq_refl eq_refl) as (_ & Hmarked).
    assert (Hcat : method_code_map_ (cache s') = [(98480, 2)]).
    { rewrite Hmarked by (vm_compute; reflexivity). vm_compute. reflexivity. }
    split; [exact Hcat|]. unfold NumberOfCompiledCode, get. rewrite Hcat. reflexivity.
  - intros s'.
    assert (Hrun : RemoveMethodsIn Reference.x86_64 Scenario.loader_of_first
                     Reference.two_methods = Returns tt s') by (vm_compute; reflexivity).
    destruct (Hunload Scenario.loader_of_first s' two_methods_sorted Hrun) as (_ & Hn).
    rewrite Hn. vm_compute. reflexivity.
Defined.

(** ** What the checkpoint marks *)

Section Marking.
Context `{!Mspace} (P : Platform).

Lemma AtomicTestAndSet_Test bm addr addr' :
  bitmap_Test P (snd (AtomicTestAndSet P bm addr)) addr'
  = bitmap_Test P bm addr'
    || ((BitIndexFromAddr P bm addr' =? BitIndexFromAddr P bm addr)
        && (0 <=? BitIndexFromAddr P bm addr)).
Proof.
  unfold AtomicTestAndSet, bitmap_Test, BitIndexFromAddr. simpl.
  set (i := (addr - cover_begin_ bm) / kJitCodeAlignment P).
  set (j := (addr' - cover_begin_ bm) / kJitCodeAlignment P).
  rewrite Z.lor_spec. f_equal.
  destruct (Z.leb_spec 0 i) as [Hi | Hi].
  - rewrite Z.shiftl_1_l, andb_true_r.
    destruct (Z.eqb_spec j i) as [-> | Hne].
    + apply Z.pow2_bits_true. exact Hi.
    + apply Z.pow2_bits_false. congruence.
  - rewrite andb_false_r. rewrite Z.shiftl_1_l.
    rewrite Z.pow_neg_r by exact Hi. apply Z.bits_0.
Qed.

Lemma mark_frame_cover (c : JitCodeCache) bm frame :
  cover_begin_ (mark_frame P c bm frame) = cover_begin_ bm.
Proof.
  unfold mark_frame. destruct frame as [code|]; [|reflexivity].
  destruct (ContainsPc c code); reflexivity.
Qed.

Lemma walk_stack_cover (c : JitCodeCache) stack bm :
  cover_begin_ (fold_left (mark_frame P c) stack bm) = cover_begin_ bm.
Proof.
  revert bm. induction stack as [|frame stack IH]; intros bm; simpl; [reflexivity|].
  rewrite IH. apply mark_frame_cover.
Qed.

Lemma walk_stack_Test (c : JitCodeCache) stack bm addr :
  bitmap_Test P (fold_left (mark_frame P c) stack bm) addr = true <->
  bitmap_Test P bm addr = true
  \/ exists code,
       In (Some code) stack /\ ContainsPc c code = true
       /\ BitIndexFromAddr P bm (FromCodeToAllocation P code) = BitIndexFromAddr P bm addr
       /\ 0 <= BitIndexFromAddr P bm addr.
Proof.
  revert bm. induction stack as [|frame stack IH]; intros bm; simpl.
  - split; [auto | intros [Hset | (? & [] & _)]; exact Hset].
  - rewrite IH. clear IH.
    assert (Hidx : forall x, BitIndexFromAddr P (mark_frame P c bm frame) x
                             = BitIndexFromAddr P bm x)
      by (intros x; unfold BitIndexFromAddr; rewrite mark_frame_cover; reflexivity).
    rewrite !Hidx.
    assert (Hstep : bitmap_Test P (mark_frame P c bm frame) addr = true <->
      bitmap_Test P bm addr = true
      \/ exists code, frame = Some code /\ ContainsPc c code = true
           /\ BitIndexFromAddr P bm (FromCodeToAllocation P code) = BitIndexFromAddr P bm addr
           /\ 0 <= BitIndexFromAddr P bm addr).
    { unfold mark_frame. destruct frame as [code|].
      - destruct (ContainsPc c code) eqn:Hin.
        + rewrite AtomicTestAndSet_Test, orb_true_iff, andb_true_iff, Z.eqb_eq, Z.leb_le.
          split.
          * intros [Hset | (Heq & Hpos)]; [left; exact Hset|].
            right. exists code. repeat split; [exact Hin | congruence | lia].
          * intros [Hset | (code' & [= <-] & _ & Heq & Hpos)]; [left; exact Hset|].
            right. split; [congruence | lia].
        + split; [auto | intros [Hset | (code' & [= <-] & Hin' & _)]; [exact Hset | congruence]].
      - split; [auto | intros [Hset | (code' & [=] & _)]; exact Hset]. }
    rewrite Hstep. split.
    + intros [[Hset | (code & -> & Hrest)] | (code & Hin & Hrest)].
      * left. exact Hset.
      * right. exists code. split; [left; reflexivity | exact Hrest].
      * rewrite Hidx in Hrest.
        right. exists code. split; [right; exact Hin | exact Hrest].
    + intros [Hset | (code & [-> | Hin] & Hrest)].
      * left. left. exact Hset.
      * left. right. exists code. split; [reflexivity | exact Hrest].
      * right. exists code. rewrite Hidx. split; [exact Hin | exact Hrest].
Qed.

Lemma mark_stacks_Test (c : JitCodeCache) stacks bm addr :
  bitmap_Test P (mark_stacks P c stacks bm) addr = true <->
  bitmap_Test P bm addr = true
  \/ exists stack code,
       In stack stacks /\ In (Some code) stack /\ ContainsPc c code = true
       /\ BitIndexFromAddr P bm (FromCodeToAllocation P code) = BitIndexFromAddr P bm addr
       /\ 0 <= BitIndexFromAddr P bm addr.
Proof.
  unfold mark_stacks. revert bm. induction stacks as [|stack stacks IH]; intros bm; simpl.
  - split; [auto | intros [Hset | (? & ? & [] & _)]; exact Hset].
  - rewrite IH. clear IH.
    assert (Hidx : forall x, BitIndexFromAddr P (fold_left (mark_frame P c) stack bm) x
                             = BitIndexFromAddr P bm x)
      by (intros x; unfold BitIndexFromAddr; rewrite walk_stack_cover; reflexivity).
    rewrite !Hidx, walk_stack_Test. split.
    + intros [[Hset | (code & Hin & Hrest)] | (stack' & code & Hs & Hrest)].
      * left. exact Hset.
      * right. exists stack, code. split; [left; reflexivity | split; [exact Hin | exact Hrest]].
      * rewrite Hidx in Hrest.
        right. exists stack', code. split; [right; exact Hs | exact Hrest].
    + intros [Hset | (stack' & code & [<- | Hs] & Hin & Hrest)].
      * left. left. exact Hset.
      * left. right. exists code. split; [exact Hin | exact Hrest].
      * right. exists stack', code. rewrite Hidx.
        split; [exact Hs | split; [exact Hin | exact Hrest]].
Qed.

(** X20. What the checkpoint marks.  In the bitmap a collection sweeps with,
    the bit of an address of the code region is set exactly when some frame
    of some stack runs code of the cache whose allocation lies in the same
    granule of the bitmap; frames without a method header and frames whose
    code is not in the cache mark nothing.  So the bitmap does not depend on
    the order in which the threads run the checkpoint, nor on the order of
    the frames. *)
Theorem checkpoint_marks_exactly_the_running_code
    (c : JitCodeCache) (stacks : list (list (option Z))) (addr : Z) :
  0 < kJitCodeAlignment P ->
  Begin (code_map_ c) <= addr ->
  (bitmap_Test P (marked_bitmap P c stacks) addr = true <-> runs_in_granule P c stacks addr)
  /\ forall stacks',
       (forall code, (exists stack, In stack stacks /\ In (Some code) stack)
                     <-> (exists stack, In stack stacks' /\ In (Some code) stack)) ->
       bitmap_Test P (marked_bitmap P c stacks') addr
       = bitmap_Test P (marked_bitmap P c stacks) addr.
Proof.
  intros Halign Haddr.
  assert (Hmarked : forall l,
    bitmap_Test P (marked_bitmap P c l) addr = true <-> runs_in_granule P c l addr).
  { intros l. unfold marked_bitmap, runs_in_granule. rewrite mark_stacks_Test.
    unfold bitmap_Test at 1. unfold BitIndexFromAddr, bitmap_Create. simpl.
    rewrite Z.bits_0. split.
    - intros [Hset | (stack & code & Hs & Hin & Hc & Heq & _)]; [discriminate|].
      exists stack, code. auto.
    - intros (stack & code & Hs & Hin & Hc & Heq). right.
      exists stack, code. repeat split; try assumption.
      apply Z.div_pos; lia. }
  split; [apply Hmarked|].
  intros stacks' Hsame.
  assert (Hiff : runs_in_granule P c stacks' addr <-> runs_in_granule P c stacks addr).
  { unfold runs_in_granule. split.
    - intros (stack & code & Hs & Hin & Hrest).
      destruct (proj2 (Hsame code)) as (stack0 & Hs0 & Hin0); [eauto|].
      exists stack0, code. auto.
    - intros (stack & code & Hs & Hin & Hrest).
      destruct (proj1 (Hsame code)) as (stack0 & Hs0 & Hin0); [eauto|].
      exists stack0, code. auto. }
  rewrite <- !Hmarked in Hiff.
  destruct (bitmap_Test P (marked_bitmap P c stacks') addr);
    destruct (bitmap_Test P (marked_bitmap P c stacks) addr); try reflexivity.
  - symmetry. apply Hiff. reflexivity.
  - apply Hiff. reflexivity.
Qed.

End Marking.

Lemma checkpoint_marks_exactly_the_running_code_witness :
  let c := cache Reference.two_methods in
  0 < kJitCodeAlignment Reference.x86_64
  /\ Begin (code_map_ c) <= 98448
  /\ bitmap_Test Reference.x86_64 (marked_bitmap Reference.x86_64 c Reference.second_running)
       98448 = true
  /\ bitmap_Test Reference.x86_64
       (marked_bitmap Reference.x86_64 c [[None]; [None; Some 98480]]) 98448 = true.
Proof.
  intros c.
  assert (Halign : 0 < kJitCodeAlignment Reference.x86_64) by reflexivity.
  assert (Haddr : Begin (code_map_ c) <= 98448) by (vm_compute; discriminate).
  split; [exact Halign|]. split; [exact Haddr|].
  destruct (checkpoint_marks_exactly_the_running_code Reference.x86_64 c
              Reference.second_running 98448 Halign Haddr) as (Hmarked & Horder).
  assert (Hset : bitmap_Test Reference.x86_64
                   (marked_bitmap Reference.x86_64 c Reference.second_running) 98448 = true).
  { apply Hmarked. exists [Some 98480; None], 98480.
    split; [left; reflexivity|]. split; [left; reflexivity|].
    split; vm_compute; reflexivity. }
  split; [exact Hset|].
  rewrite (Horder [[None]; [None; Some 98480]]); [exact Hset|].
  intros code. split.
  - intros (stack & [<- | []] & [E | [E | []]]); [|discriminate E].
    exists [None; Some 98480]. split; [right; left; reflexivity | right; left; exact E].
  - intros (stack & [<- | [<- | []]] & Hin).
    + destruct Hin as [E | []]. discriminate E.
    + destruct Hin as [E | [E | []]]; [discriminate E|].
      exists [Some 98480; None]. split; [left; reflexivity | left; exact E].
Defined.

(** ** Entry points after a collection *)

Section EntryPoints.
Context `{!Mspace} (P : Platform).

Lemma reset_entries_other (bridge : Z) (l : Catalog) (ms : gmap Z ArtMethod) (m : Z) :
  (forall c, ~ In (c, m) l) ->
  fold_left (reset_entry bridge) l ms !!! m = ms !!! m.
Proof.
  revert ms. induction l as [|it l IH]; intros ms Hout; simpl; [reflexivity|].
  rewrite IH by (intros c Hin; apply (Hout c); right; exact Hin).
  unfold reset_entry. apply lookup_total_insert_ne.
  intros Heq. apply (Hout (fst it)). left. destruct it; simpl in *; congruence.
Qed.

Lemma detach_infos_other objs (l : list Z) (ms : gmap Z ArtMethod) (m : Z) :
  (forall info, In info l -> method_ (objs !!! info) <> m) ->
  fold_left (detach_info objs) l ms !!! m = ms !!! m.
Proof.
  revert ms. induction l as [|info l IH]; intros ms Hout; simpl; [reflexivity|].
  rewrite IH by (intros i Hin; apply Hout; right; exact Hin).
  unfold detach_info. apply lookup_total_insert_ne. apply Hout. left. reflexivity.
Qed.

Lemma sweep_methods_other bm (l : Catalog) (ms : gmap Z ArtMethod) (m : Z) :
  (forall c, ~ In (c, m) l) ->
  sweep_methods P bm l ms !!! m = ms !!! m.
Proof.
  unfold sweep_methods. revert ms. induction l as [|it l IH]; intros ms Hout; simpl; [reflexivity|].
  rewrite IH by (intros c Hin; apply (Hout c); right; exact Hin).
  apply sweep_method_other.
  intros Heq. apply (Hout (fst it)). left. destruct it; simpl in *; congruence.
Qed.

(** After the sweep a method enters where it did before, or through the code
    of a marked entry it owns. *)
Lemma sweep_methods_entry_cases bm (l : Catalog) (ms : gmap Z ArtMethod) (m : Z) :
  entry_point_from_quick_compiled_code_ (sweep_methods P bm l ms !!! m)
  = entry_point_from_quick_compiled_code_ (ms !!! m)
  \/ exists c,
       In (c, m) l /\ entry_live P bm c = true
       /\ entry_point_from_quick_compiled_code_ (sweep_methods P bm l ms !!! m)
          = GetEntryPoint c.
Proof.
  unfold sweep_methods. revert ms. induction l as [|it l IH]; intros ms; simpl.
  - left. reflexivity.
  - destruct (IH (sweep_method P bm ms it)) as [Hsame | (c & Hin & Hlive & Hentry)].
    + rewrite Hsame. destruct (decide (snd it = m)) as [Heq | Hne].
      * unfold sweep_method. destruct (entry_live P bm (fst it)) eqn:Elive;
          rewrite Heq, lookup_total_insert_eq; simpl.
        -- right. exists (fst it). split; [|split; [exact Elive | reflexivity]].
           left. destruct it; simpl in *; congruence.
        -- left. reflexivity.
      * left. rewrite sweep_method_other by exact Hne. reflexivity.
    + right. exists c. split; [right; exact Hin | split; [exact Hlive | exact Hentry]].
Qed.

(** X21. Where methods enter after a collection.  A collection writes neither
    a method header nor a profiling info, and it leaves alone every method
    that owns no entry of the catalog and no listed profiling info.  After a
    cycle that marks and sweeps, a method that owned an entry enters through
    the interpreter bridge or through the code of a marked entry it owns,
    which is still in the catalog.  When none of its entries is marked it
    enters through the bridge. *)
Theorem collection_leaves_no_entry_point_into_swept_code
    (stacks : list (list (option Z))) (s s' : State) :
  idle s ->
  GarbageCollectCache P stacks s = Returns tt s' ->
  headers s' = headers s
  /\ infos s' = infos s
  /\ (forall m,
        (forall c, ~ In (c, m) (method_code_map_ (cache s))) ->
        (forall info, In info (profiling_infos_ (cache s)) ->
                      method_ (infos s !!! info) <> m) ->
        methods s' !!! m = methods s !!! m)
  /\ (takes_growth_shortcut (cache s) = false ->
      let bm := marked_bitmap P (cache s) stacks in
      forall c m,
        In (c, m) (method_code_map_ (cache s)) ->
        (entry_point_from_quick_compiled_code_ (methods s' !!! m)
         = kQuickToInterpreterBridge P
         \/ exists c',
              In (c', m) (method_code_map_ (cache s'))
              /\ entry_live P bm c' = true
              /\ entry_point_from_quick_compiled_code_ (methods s' !!! m)
                 = GetEntryPoint c')
        /\ ((forall c', In (c', m) (method_code_map_ (cache s)) ->
                        entry_live P bm c' = false) ->
            entry_point_from_quick_compiled_code_ (methods s' !!! m)
            = kQuickToInterpreterBridge P)).
Proof.
  intros Hidle Hrun.
  destruct (takes_growth_shortcut (cache s)) eqn:Hg.
  - rewrite (GarbageCollectCache_grows P s stacks Hidle Hg) in Hrun.
    injection Hrun as <-.
    split; [reflexivity|]. split; [reflexivity|]. split; [reflexivity|]. discriminate.
  - destruct (GarbageCollectCache_collects P s stacks Hidle Hg) as (cms & dms & Hc).
    rewrite Hc in Hrun. injection Hrun as <-.
    split; [reflexivity|]. split; [reflexivity|]. split.
    + intros m Hcat Hinfos. unfold collected_state. simpl.
      rewrite sweep_methods_other by exact Hcat.
      unfold reset_methods.
      rewrite detach_infos_other by exact Hinfos.
      apply reset_entries_other. exact Hcat.
    + intros _ bm c m Hin.
      assert (Hcases :
        entry_point_from_quick_compiled_code_
          (methods (collected_state P s stacks cms dms) !!! m)
        = kQuickToInterpreterBridge P
        \/ exists c',
             In (c', m) (method_code_map_ (cache s)) /\ entry_live P bm c' = true
             /\ entry_point_from_quick_compiled_code_
                  (methods (collected_state P s stacks cms dms) !!! m)
                = GetEntryPoint c').
      { unfold collected_state. simpl. fold bm.
        destruct (sweep_methods_entry_cases bm (method_code_map_ (cache s))
                    (reset_methods P (method_code_map_ (cache s))
                       (profiling_infos_ (cache s)) (infos s) (methods s)) m)
          as [Hsame | Hlive].
        - left. rewrite Hsame. eapply reset_methods_bridge. exact Hin.
        - right. exact Hlive. }
      split.
      * destruct Hcases as [Hbridge | (c' & Hin' & Hlive & Hentry)]; [left; exact Hbridge|].
        right. exists c'. split; [|split; [exact Hlive | exact Hentry]].
        unfold collected_state. simpl. apply sweep_whole_catalog_In.
        split; [exact Hin' | exact Hlive].
      * intros Hdead.
        destruct Hcases as [Hbridge | (c' & Hin' & Hlive & _)]; [exact Hbridge|].
        rewrite (Hdead c' Hin') in Hlive. discriminate.
Qed.

End EntryPoints.

Lemma collection_leaves_no_entry_point_into_swept_code_witness :
  idle Reference.two_methods
  /\ exists s',
       GarbageCollectCache Reference.x86_64 Reference.second_running Reference.two_methods
       = Returns tt s'
       /\ headers s' = headers Reference.two_methods
       /\ methods s' !!! 3 = methods Reference.two_methods !!! 3
       /\ entry_point_from_quick_compiled_code_ (methods s' !!! 1)
          = kQuickToInterpreterBridge Reference.x86_64.
Proof.
  assert (Hidle : idle Reference.two_methods) by (vm_compute; reflexivity).
  split; [exact Hidle|].
  assert (Hrun : exists s',
    GarbageCollectCache Reference.x86_64 Reference.second_running Reference.two_methods
    = Returns tt s') by (eexists; vm_compute; reflexivity).
  destruct Hrun as (s' & Hrun). exists s'. split; [exact Hrun|].
  destruct (collection_leaves_no_entry_point_into_swept_code Reference.x86_64
              Reference.second_running Reference.two_methods s' Hidle Hrun)
    as (Hheaders & _ & Hother & Hswept).
  split; [exact Hheaders|]. split.
  - apply Hother.
    + intros c Hin. vm_compute in Hin. destruct Hin as [Hin | [Hin | []]]; discriminate Hin.
    + intros info Hin. vm_compute in Hin. vm_compute.
      repeat (destruct Hin as [<- | Hin]; [discriminate|]). destruct Hin.
  - assert (Hin1 : In (98336, 1) (method_code_map_ (cache Reference.two_methods)))
      by (vm_compute; tauto).
    destruct (Hswept ltac:(vm_compute; reflexivity) 98336 1 Hin1) as (_ & Hdead).
    apply Hdead. intros c' Hin. vm_compute in Hin.
    destruct Hin as [Hin | [Hin | []]]; [|discriminate Hin].
    injection Hin as <-. vm_compute. reflexivity.
Defined.

(** ** A cache as [Create] returns it *)

Section Created.
Context `{!Mspace} (P : Platform).
Context (MapAnonymous : string -> Z -> MemMap + string).
Context (RemapAtEnd : MemMap -> Z -> string -> (MemMap * MemMap) + string).
Context (PrettySize : Z -> string).

Lemma Create_fields (initial_capacity max_capacity : Z) (c : JitCodeCache) :
  0 <= initial_capacity ->
  Create P MapAnonymous RemapAtEnd PrettySize initial_capacity max_capacity = Created c ->
  initial_capacity <= max_capacity <= GB
  /\ max_capacity_ c = RoundDown max_capacity (2 * kPageSize)
  /\ current_capacity_ c = RoundDown initial_capacity (2 * kPageSize)
  /\ CodeCacheSize c = 0 /\ DataCacheSize c = 0
  /\ method_code_map_ c = [] /\ profiling_infos_ c = []
  /\ collection_in_progress_ c = false /\ live_bitmap_ c = None
  /\ has_done_one_collection_ c = false.
Proof.
  intros Hi. unfold Create.
  destruct (max_capacity <? initial_capacity) eqn:Ecmp; [discriminate|].
  destruct (max_capacity >? 1 * GB) eqn:Egb; [discriminate|].
  destruct (MapAnonymous _ _) as [data_map|]; [|discriminate].
  destruct (RemapAtEnd _ _ _) as [[code_map data_map']|]; [|discriminate].
  unfold JitCodeCache_new.
  destruct (create_mspace_with_base _ _) as [cms|] eqn:Ec; [|discriminate].
  destruct (create_mspace_with_base (Begin data_map') _) as [dms|] eqn:Ed; [|discriminate].
  intros [= <-].
  apply Z.ltb_ge in Ecmp. assert (Hmax : max_capacity <= GB) by lia.
  assert (HGB : GB = 1073741824) by reflexivity.
  pose proof (RoundDown_two_pages_bounds initial_capacity Hi) as Hri.
  set (i := RoundDown initial_capacity (2 * kPageSize)) in *.
  replace (i - i / 2 + i / 2) with i by lia.
  rewrite size_t_wrap_small by lia.
  unfold CodeCacheSize, DataCacheSize, cache_SetFootprintLimit. simpl.
  rewrite !set_limit_bytes.
  rewrite (create_bytes _ _ _ Ec), (create_bytes _ _ _ Ed).
  repeat split; try reflexivity; lia.
Qed.

Lemma RoundDown_two_pages_loss (x : Z) :
  0 <= x -> x - 2 * kPageSize < RoundDown x (2 * kPageSize).
Proof.
  intros Hx. rewrite RoundDown_two_pages. unfold kPageSize.
  pose proof (Z.mod_pos_bound x 8192 ltac:(lia)).
  pose proof (Z.div_mod x 8192 ltac:(lia)). lia.
Qed.

(** X22. A cache that [Create] returns.  Its two capacities are the
    requested ones rounded down to a multiple of two pages, so each loses
    less than two pages, and each region may use half the current capacity.
    It is empty and at rest: nothing is in use in either region, there are
    no compiled code and no profiling info, every look-up answers null and
    every [ContainsMethod] false, unloading changes nothing, and its first
    collection marks, sweeps and frees nothing. *)
Theorem created_cache_is_empty (initial_capacity max_capacity : Z) (c : JitCodeCache) :
  0 <= initial_capacity ->
  Create P MapAnonymous RemapAtEnd PrettySize initial_capacity max_capacity = Created c ->
  max_capacity_ c = RoundDown max_capacity (2 * kPageSize)
  /\ current_capacity_ c = RoundDown initial_capacity (2 * kPageSize)
  /\ max_capacity - 2 * kPageSize < max_capacity_ c <= max_capacity
  /\ initial_capacity - 2 * kPageSize < current_capacity_ c <= initial_capacity
  /\ mspace_footprint_limit (code_mspace_ c) = current_capacity_ c / 2
  /\ mspace_footprint_limit (data_mspace_ c) = current_capacity_ c / 2
  /\ CodeCacheSize c = 0 /\ DataCacheSize c = 0
  /\ forall ms hs objs,
       let s := Build_State c ms hs objs [] in
       idle s
       /\ NumberOfCompiledCode s = Returns 0 s
       /\ (forall pc, LookupMethodHeader P pc s = Returns None s)
       /\ (forall method, ContainsMethod method s = Returns false s)
       /\ (forall alloc, RemoveMethodsIn P alloc s = Returns tt s)
       /\ forall stacks, exists s',
            GarbageCollectCache P stacks s = Returns tt s'
            /\ calls s' = [EvCollect]
            /\ has_done_one_collection_ (cache s') = true
            /\ current_capacity_ (cache s') = current_capacity_ c.
Proof.
  intros Hi Hc.
  destruct (Create_fields _ _ _ Hi Hc)
    as (Hle & Hmax & Hcur & Hcode & Hdata & Hcat & Hpis & Hidle & Hbm & Hdone).
  destruct (Create_capacity_inv P _ _ _ _ _ _ Hi Hc) as (_ & _ & Hlc & Hld & _ & _).
  pose proof (RoundDown_two_pages_bounds initial_capacity Hi) as Hri.
  pose proof (RoundDown_two_pages_bounds max_capacity ltac:(lia)) as Hrm.
  pose proof (RoundDown_two_pages_loss initial_capacity Hi) as Hli.
  pose proof (RoundDown_two_pages_loss max_capacity ltac:(lia)) as Hlm.
  split; [exact Hmax|]. split; [exact Hcur|].
  split; [rewrite Hmax; lia|]. split; [rewrite Hcur; lia|].
  split; [exact Hlc|]. split; [exact Hld|]. split; [exact Hcode|]. split; [exact Hdata|].
  intros ms hs objs s.
  assert (Hs : idle s) by exact Hidle.
  split; [exact Hs|]. split.
  { unfold NumberOfCompiledCode, get. subst s. simpl. rewrite Hcat. reflexivity. }
  split.
  { intros pc. unfold LookupMethodHeader, mbind, M_bind, bind, get, ret. subst s. simpl.
    rewrite Hcat. destruct (negb _); reflexivity. }
  split.
  { intros method. unfold ContainsMethod, mbind, M_bind, bind, get, ret. subst s. simpl.
    rewrite Hcat. reflexivity. }
  split.
  { intros alloc.
    unfold RemoveMethodsIn, mbind, M_bind, bind, get, ret. subst s. simpl.
    rewrite Hcat. simpl. rewrite Hpis. reflexivity. }
  intros stacks.
  assert (Hg : takes_growth_shortcut (cache s) = false).
  { unfold takes_growth_shortcut. subst s. simpl. rewrite Hdone. reflexivity. }
  destruct (GarbageCollectCache_collects P s stacks Hs Hg) as (cms & dms & Hrun).
  eexists. split; [exact Hrun|].
  unfold collected_state. subst s. simpl. rewrite Hcat, Hpis. simpl.
  repeat split; reflexivity.
Qed.

End Created.

Lemma created_cache_is_empty_witness :
  0 <= 20000
  /\ exists c,
       @Create Reference.counting_mspace Reference.x86_64 Reference.map_anonymous
         Reference.remap_at_end Reference.pretty_size 20000 70000 = Created c
       /\ max_capacity_ c = 65536
       /\ current_capacity_ c = 16384
       /\ mspace_footprint_limit (code_mspace_ c) = 8192
       /\ LookupMethodHeader Reference.x86_64 98400 (Reference.in_empty_memory c)
          = Returns None (Reference.in_empty_memory c).
Proof.
  assert (Hi : 0 <= 20000) by lia.
  split; [exact Hi|].
  assert (Hc : exists c,
    @Create Reference.counting_mspace Reference.x86_64 Reference.map_anonymous
      Reference.remap_at_end Reference.pretty_size 20000 70000 = Created c)
    by (eexists; vm_compute; reflexivity).
  destruct Hc as (c & Hc). exists c. split; [exact Hc|].
  destruct (created_cache_is_empty Reference.x86_64 Reference.map_anonymous
              Reference.remap_at_end Reference.pretty_size 20000 70000 c Hi Hc)
    as (Hmax & Hcur & _ & _ & Hlc & _ & _ & _ & Hempty).
  split; [rewrite Hmax; vm_compute; reflexivity|].
  split; [rewrite Hcur; vm_compute; reflexivity|].
  split; [rewrite Hlc, Hcur; vm_compute; reflexivity|].
  destruct (Hempty ∅ ∅ ∅) as (_ & _ & Hlookup & _).
  apply Hlookup.
Defined.

